(** * Process3DFLAIR: the variance pipeline of Code/Process3DFLAIR.py

    A shallow embedding of the class [Process3DFLAIR] (path construction,
    mask propagation, bias-field correction and its file reorganisation,
    intensity normalisation, voxel-wise variance, and the orchestrator
    [runVariancePipeline]) together with the properties of the
    specification that concern them.

    Modelling conventions.
    - Python [str] is [string]; Python [int] is [Z].
    - The file system is a finite map from path strings to file contents.
      Every artifact is referred to by one spelling of its path throughout
      the source, so the map is keyed by the path exactly as the source
      builds it.  Directories are not stored: a write never fails for a
      missing directory, and a listing shows files only.
    - Voxel intensities (float64 in numpy) are exact rationals [Q]; rounding
      is not modelled.  Volumes are three-dimensional.  NaN and the
      infinities are no values of the model: a volume of the model is a
      volume of finite numbers, and what is proved of the values of a
      variance map is proved for volumes of finite numbers only.
    - Methods run in a monad of file-system state and Python exceptions
      that records a trace of events: method entries, runs of external
      programs, images saved.  An exception keeps the effects that
      preceded it.
    - The FSL programs reached through nipype and the Nyul normaliser are
      external: what they do to the file system is a parameter [Env].
    - The module [Registration] belongs to the repository but not to the
      sources at hand: the methods take it as a parameter, and one
      instance of it is written from the specification.
    - [print], the histogram plots and the list [brain_nifti_filenames],
      which is filled and never read, are left out.
    - findDICOMFolder walks folders: it is modelled on a tree of folders of
      its own.  extractBrainNIFTIold runs BET, which the pipeline does
      not: it has a trace of its own programs (module [Old]).  Of
      renameNIFTIFiles and convertDICOMtoNIFTI only the construction of the
      file names is modelled. *)

From Stdlib Require Import ZArith QArith Lia List Ascii String DecimalString.
From stdpp Require Import base option list strings gmap fin_maps.

Open Scope string_scope.
Open Scope list_scope.

(** ** Python string primitives *)

Module Py.

(** [str(n)] for an [int]. *)
Definition str (z : Z) : string := NilZero.string_of_int (Z.to_int z).

Fixpoint zeros (n : nat) : string :=
  match n with
  | O => ""
  | S k => String "0" (zeros k)
  end.

Definition is_sign (c : ascii) : bool :=
  (Ascii.eqb c "+" || Ascii.eqb c "-")%bool.

(** [s.zfill(width)]: left padding with ["0"], after a leading sign. *)
Definition zfill (width : nat) (s : string) : string :=
  let n := String.length s in
  if (width <=? n)%nat then s
  else match s with
       | String c r =>
           if is_sign c then String c (zeros (width - n) +:+ r)
           else zeros (width - n) +:+ s
       | EmptyString => zeros width
       end.

(** [s.startswith(p)]. *)
Fixpoint startswith (p s : string) : bool :=
  match p, s with
  | EmptyString, _ => true
  | String a p', String b s' => if Ascii.eqb a b then startswith p' s' else false
  | String _ _, EmptyString => false
  end.

(** [needle in hay] on strings. *)
Fixpoint contains (needle hay : string) : bool :=
  if startswith needle hay then true
  else match hay with
       | EmptyString => false
       | String _ r => contains needle r
       end.

(** Pieces of [s] cut at the first [n] occurrences of [sep], scanning from
    the left; [cur] holds the current piece, reversed. *)
Fixpoint split_acc (sep : ascii) (n : nat) (s : list ascii) (cur : list ascii)
    {struct s} : list (list ascii) :=
  match n with
  | O => [rev cur ++ s]
  | S k =>
      match s with
      | [] => [rev cur]
      | c :: r =>
          if Ascii.eqb c sep then rev cur :: split_acc sep k r []
          else split_acc sep n r (c :: cur)
      end
  end.

Definition chars (s : string) : list ascii := list_ascii_of_string s.
Definition unchars (l : list ascii) : string := string_of_list_ascii l.

(** [s.rsplit(sep, maxsplit)] for a one-character separator: at most
    [maxsplit] cuts, taken from the right. *)
Definition rsplit (sep : ascii) (maxsplit : nat) (s : string) : list string :=
  rev (map (fun p => unchars (rev p)) (split_acc sep maxsplit (rev (chars s)) [])).

End Py.

(** ** Data model *)

(** A three-dimensional numpy array: its shape and its elements in C order. *)
Record ndarray := mk_ndarray {
  shape : nat * nat * nat;
  flat : list Q
}.

(** A 4x4 affine, row by row. *)
Definition matrix := list (list Q).

Definition eye4 : matrix :=
  [[1; 0; 0; 0]; [0; 1; 0; 0]; [0; 0; 1; 0]; [0; 0; 0; 1]]%Q.

(** [nib.Nifti1Image(dataobj, affine)]. *)
Record Nifti1Image := mk_nifti {
  dataobj : ndarray;
  affine : matrix
}.

(** What a path of the file system holds. *)
Inductive Content :=
| Nifti (img : Nifti1Image)
| Npy (values : list Q)
| Blob (bytes : string).

Abbreviation FS := (gmap string Content).

(** Python exceptions, with the error classes of the specification. *)
Inductive Exn :=
| IndexError
| FileNotFoundError
| ImageFileError
| MissingPrerequisite
| ShapeMismatch
| ExternalToolFailure.

(** Runs of the external FSL programs. *)
Inductive ToolCall :=
| FLIRT (dof : nat) (reference in_file out_file cost interp : string)
| FNIRT (reference in_file affine_file out_file : string)
| ApplyMask (in_file mask_file out_file : string)
| FAST (in_files : string) (bias_iters img_type number_classes : nat)
| Reorient2Std (in_file out_file : string).

(** Method entries worth observing. *)
Inductive Method :=
| M_extractBrain
| M_applyBETMask (extracted_timepoint to_extract_timepoint : Z)
| M_correctBiasField (method : string)
| M_intensityNormalisation (useBiasCorrected : bool)
| M_calcVariance (out_file : string).

Inductive Event :=
| Call (m : Method)
| Tool (t : ToolCall)
| NibSave (path : string) (img : Nifti1Image).

(** ** The monad of methods: file-system state, exceptions, event trace *)

Definition Res (A : Type) : Type := (Exn + A) * FS * list Event.
Definition M (A : Type) : Type := FS -> Res A.

Definition outcome {A} (r : Res A) : Exn + A := fst (fst r).
Definition final {A} (r : Res A) : FS := snd (fst r).
Definition trace {A} (r : Res A) : list Event := snd r.

Definition ret {A} (a : A) : M A := fun s => (inr a, s, []).
Definition raise {A} (e : Exn) : M A := fun s => (inl e, s, []).

Definition bind {A B} (m : M A) (f : A -> M B) : M B :=
  fun s =>
    match m s with
    | (inl e, s1, t1) => (inl e, s1, t1)
    | (inr a, s1, t1) =>
        match f a s1 with
        | (o, s2, t2) => (o, s2, t1 ++ t2)
        end
    end.

Notation "x <- m ;; k" := (bind m (fun x => k))
  (at level 100, m at next level, right associativity).
Notation "m ;;; k" := (bind m (fun _ => k))
  (at level 100, right associativity).

Definition emit (e : Event) : M unit := fun s => (inr tt, s, [e]).

(** Lifting of a pure computation that may raise. *)
Definition lift {A} (r : Exn + A) : M A :=
  match r with
  | inl e => raise e
  | inr a => ret a
  end.

(** [for x in l: body(x)]. *)
Fixpoint for_each {A} (l : list A) (body : A -> M unit) : M unit :=
  match l with
  | [] => ret tt
  | x :: r => body x ;;; for_each r body
  end.

(** [[f(x) for x in l]]. *)
Fixpoint comprehension {A B} (l : list A) (f : A -> M B) : M (list B) :=
  match l with
  | [] => ret []
  | x :: r => y <- f x ;; ys <- comprehension r f ;; ret (y :: ys)
  end.

(** [l[i]] for [0 <= i]. *)
Definition index {A} (l : list A) (i : nat) : Exn + A :=
  match l !! i with
  | Some x => inr x
  | None => inl IndexError
  end.

(** [l[-1]]. *)
Definition index_last {A} (l : list A) : Exn + A :=
  match last l with
  | Some x => inr x
  | None => inl IndexError
  end.

(** ** File-system primitives *)

Definition write_file (p : string) (c : Content) : M unit :=
  fun s => (inr tt, <[p := c]> s, []).

(** [os.remove(p)]. *)
Definition os_remove (p : string) : M unit :=
  fun s =>
    match s !! p with
    | Some _ => (inr tt, delete p s, [])
    | None => (inl FileNotFoundError, s, [])
    end.

(** [shutil.move(src, dst)] for a file: [dst] is replaced when present. *)
Definition shutil_move (src dst : string) : M unit :=
  fun s =>
    match s !! src with
    | Some c => (inr tt, <[dst := c]> (delete src s), [])
    | None => (inl FileNotFoundError, s, [])
    end.

(** Removal of a known prefix. *)
Fixpoint strip_prefix (p s : string) : option string :=
  match p, s with
  | EmptyString, _ => Some s
  | String a p', String b s' => if Ascii.eqb a b then strip_prefix p' s' else None
  | String _ _, EmptyString => None
  end.

Definition is_entry_name (n : string) : bool :=
  (negb (String.eqb n "") && negb (Py.contains "/" n))%bool.

(** [os.listdir(d)] for a directory path [d] ending in ["/"]: the names of
    the files directly inside, in the order of the store.  Sub-directories
    (the brain directory has [masks/]) are not listed. *)
Definition entry_of (d : string) (p : string) : option string :=
  match strip_prefix d p with
  | Some n => if is_entry_name n then Some n else None
  | None => None
  end.

Definition entries (d : string) (s : FS) : list string :=
  omap (entry_of d) (map fst (map_to_list s)).

Definition os_listdir (d : string) : M (list string) :=
  fun s => (inr (entries d s), s, []).

(** [nib.save(img, p)]. *)
Definition nib_save (img : Nifti1Image) (p : string) : M unit :=
  emit (NibSave p img) ;;; write_file p (Nifti img).

(** [nib.load(p).get_fdata()]. *)
Definition nib_load_fdata (p : string) : M ndarray :=
  fun s =>
    match s !! p with
    | Some (Nifti img) => (inr (dataobj img), s, [])
    | Some _ => (inl ImageFileError, s, [])
    | None => (inl FileNotFoundError, s, [])
    end.

(** ** numpy *)

Module np.

Definition size (shp : nat * nat * nat) : nat :=
  let '(nx, ny, nz) := shp in nx * ny * nz.

(** [np.zeros(shp)]. *)
Definition zeros (shp : nat * nat * nat) : ndarray :=
  mk_ndarray shp (replicate (size shp) 0%Q).

Definition in_bounds (shp : nat * nat * nat) (i j k : nat) : bool :=
  let '(nx, ny, nz) := shp in ((i <? nx) && (j <? ny) && (k <? nz))%bool%nat.

Definition offset (shp : nat * nat * nat) (i j k : nat) : nat :=
  let '(nx, ny, nz) := shp in (i * ny + j) * nz + k.

(** [a[i, j, k]] for non-negative indices. *)
Definition getitem (a : ndarray) (i j k : nat) : Exn + Q :=
  if in_bounds (shape a) i j k
  then inr (default 0%Q (flat a !! offset (shape a) i j k))
  else inl IndexError.

(** [a[i, j, k] = v] for non-negative indices. *)
Definition setitem (a : ndarray) (i j k : nat) (v : Q) : Exn + ndarray :=
  if in_bounds (shape a) i j k
  then inr (mk_ndarray (shape a) (<[offset (shape a) i j k := v]> (flat a)))
  else inl IndexError.

Definition sum (l : list Q) : Q := foldl Qplus 0%Q l.

Definition mean (l : list Q) : Q := (sum l / inject_Z (Z.of_nat (length l)))%Q.

(** [np.var(a)] over all the elements of [a]: the mean of the squared
    deviations from the mean. *)
Definition var (l : list Q) : Q :=
  let arrmean := mean l in
  mean (map (fun x => ((x - arrmean) * (x - arrmean))%Q) l).

End np.

(** A loop over [l] that threads a local variable and may raise. *)
Fixpoint fold_loop {A S} (l : list A) (body : A -> S -> Exn + S) (s : S) : Exn + S :=
  match l with
  | [] => inr s
  | x :: r =>
      match body x s with
      | inl e => inl e
      | inr s' => fold_loop r body s'
      end
  end.

(** ** The object and its paths *)

Record Process3DFLAIR := mk_Process3DFLAIR {
  subject_id : string;
  total_num_time_points : Z;
  time_points_to_consider : list Z;
  registration_method : string
}.

Section Paths.
Variable self : Process3DFLAIR.

Definition subject_directory_root : string :=
  "/home/ela/Documents/B-RAPIDD/" +:+ subject_id self +:+ "/3D-FLAIR/".
Definition registered_directory : string :=
  subject_directory_root +:+ "registered_nifti/".
Definition subject_bias_directory : string :=
  subject_directory_root +:+ "bias_nifti/".
Definition subject_bias_fields_directory : string :=
  subject_bias_directory +:+ "fields/".
Definition subject_normalised_directory : string :=
  subject_directory_root +:+ "normalised_nifti/".
Definition subject_nifti_directory : string :=
  subject_directory_root +:+ "original_nifti/".
Definition subject_brain_directory : string :=
  subject_directory_root +:+ "brain_nifti/".

(** The [..._format.format(tp)] paths; [tp] is the time-point string.  The
    subject identifier is taken to hold no brace, so that [format] only
    fills the one field. *)
Definition nifti_file (tp : string) : string :=
  subject_nifti_directory +:+ subject_id self +:+ "_" +:+ tp +:+ "_D1.nii.gz".
Definition brain_file_mask (tp : string) : string :=
  subject_brain_directory +:+ "masks/" +:+ subject_id self +:+ "_" +:+ tp +:+ "_D1.nii".
Definition brain_file (tp : string) : string :=
  subject_brain_directory +:+ subject_id self +:+ "_" +:+ tp +:+ "_D1.nii.gz".
Definition affine_file_path (tp : string) : string :=
  registered_directory +:+ "/FLIRT_mat/" +:+ subject_id self +:+ "_" +:+ tp +:+ "_D1_flirt.mat".
Definition registered_whole_brain_file (tp : string) : string :=
  registered_directory +:+ subject_id self +:+ "_" +:+ tp +:+ "_D1.nii.gz".
Definition bias_restore_file (tp : string) : string :=
  subject_bias_directory +:+ subject_id self +:+ "_" +:+ tp +:+ "_D1_restore.nii.gz".
Definition normalised_file (tp : string) : string :=
  subject_normalised_directory +:+ subject_id self +:+ "_" +:+ tp +:+ "_D1.nii.gz".

End Paths.

(** The two spellings of the time-point string found in the source:
    [str(t).zfill(2)] (applyBETMask) and [str(0)+str(t)] (correctBiasField,
    intensityNormalisation, calcVariance). *)
Definition tp_zfill (t : Z) : string := Py.zfill 2 (Py.str t).
Definition tp_str0 (t : Z) : string := Py.str 0 +:+ Py.str t.

(** [os.path.join(a, b)]. *)
Definition endswith_slash (a : string) : bool :=
  match last (Py.chars a) with
  | Some c => Ascii.eqb c "/"
  | None => false
  end.

Definition os_path_join (a b : string) : string :=
  if Py.startswith "/" b then b
  else if (String.eqb a "" || endswith_slash a)%bool then a +:+ b
  else a +:+ "/" +:+ b.

(** ** External collaborators *)

(** The FSL programs and the Nyul normaliser.  [fsl_run t s] is what running
    [t] does to the file system [s]. *)
Record Env := mk_Env {
  fsl_run : ToolCall -> FS -> (Exn + unit) * FS;
  nyul_fit : list ndarray -> Exn + list Q;
  nyul_apply : list Q -> ndarray -> Exn + ndarray
}.

(** The inputs of [rg.Registration(reference_path, target_path, out_path)]. *)
Record Registration := mk_Registration {
  reference_path : string;
  target_path : string;
  out_path : string
}.

(** What a registration method may do: change the file system, run FSL
    programs, raise. *)
Definition RegAction : Type := FS -> (Exn + unit) * FS * list ToolCall.

(** The interface of the module [Registration], imported as [rg]. *)
Record RegistrationModule := mk_RegistrationModule {
  rigidFslFLIRT : Registration -> string -> string -> RegAction;
  affineFslFLIRT : Registration -> string -> string -> RegAction;
  nonlinearFslFNIRT : Registration -> string -> RegAction
}.

Definition run_reg (a : RegAction) : M unit :=
  fun s => match a s with (o, s', ts) => (o, s', map Tool ts) end.

(** ** The methods of [Process3DFLAIR] *)

Section Methods.
Variable env : Env.
Variable rg : RegistrationModule.
Variable self : Process3DFLAIR.

(** [tool.run()] for an FSL interface with inputs [t]. *)
Definition run_tool (t : ToolCall) : M unit :=
  emit (Tool t) ;;;
  fun s => match fsl_run env t s with (o, s') => (o, s', []) end.

Definition applyBETMask (extracted_timepoint to_extract_timepoint : Z) : M unit :=
  emit (Call (M_applyBETMask extracted_timepoint to_extract_timepoint)) ;;;
  let extracted_brain := brain_file self (tp_zfill extracted_timepoint) in
  let brain_to_extract := nifti_file self (tp_zfill to_extract_timepoint) in
  let mask := brain_file_mask self (tp_zfill extracted_timepoint) in
  let registered_whole_brain :=
    registered_whole_brain_file self (tp_zfill to_extract_timepoint) in
  (if String.eqb (registration_method self) "rigidfsl" then
     run_reg (rigidFslFLIRT rg
                (mk_Registration extracted_brain brain_to_extract registered_whole_brain)
                "mutualinfo" "trilinear")
   else ret tt) ;;;
  (if String.eqb (registration_method self) "affinefsl" then
     run_reg (affineFslFLIRT rg
                (mk_Registration extracted_brain brain_to_extract registered_whole_brain)
                "mutualinfo" "trilinear")
   else ret tt) ;;;
  (if String.eqb (registration_method self) "nonlinearfsl" then
     let affine_file := affine_file_path self (tp_zfill to_extract_timepoint) in
     run_reg (nonlinearFslFNIRT rg
                (mk_Registration extracted_brain brain_to_extract registered_whole_brain)
                affine_file)
   else ret tt) ;;;
  run_tool (ApplyMask registered_whole_brain mask
              (brain_file self (tp_zfill to_extract_timepoint))).

Definition extractBrain : M unit :=
  emit (Call M_extractBrain) ;;;
  brain_template <- lift (index_last (time_points_to_consider self)) ;;
  for_each (seq 0 (length (time_points_to_consider self) - 1))
    (fun i =>
       t <- lift (index (time_points_to_consider self) i) ;;
       applyBETMask brain_template t).

(** The body of the reorganisation loop of [correctBiasField], for one
    [filename] of the listing. *)
Definition reorganise_file (filename : string) : M unit :=
  let source_folder := subject_brain_directory self in
  let target_folder := subject_bias_directory self in
  let bias_subfolder := subject_bias_fields_directory self in
  if Py.startswith (subject_id self) filename then
    base_name <- lift (index (Py.rsplit "." 2 filename) 0) ;;
    suffix <- lift (index (Py.rsplit "_" 1 base_name) 1) ;;
    if String.eqb suffix "restore" then
      shutil_move (os_path_join source_folder filename)
                  (os_path_join target_folder filename)
    else if String.eqb suffix "bias" then
      shutil_move (os_path_join source_folder filename)
                  (os_path_join bias_subfolder filename)
    else if String.eqb suffix "mixeltype" then
      os_remove (os_path_join source_folder filename)
    else if String.eqb suffix "seg" then
      os_remove (os_path_join source_folder filename)
    else if Py.contains "pve" base_name then
      os_remove (os_path_join source_folder filename)
    else ret tt
  else ret tt.

Definition reorganise (names : list string) : M unit :=
  for_each names reorganise_file.

Definition correctBiasField (method : string) : M unit :=
  emit (Call (M_correctBiasField method)) ;;;
  if String.eqb method "FSL" then
    for_each (seq 0 (length (time_points_to_consider self)))
      (fun i =>
         t <- lift (index (time_points_to_consider self) i) ;;
         let current_brain_loc := brain_file self (tp_str0 t) in
         run_tool (FAST current_brain_loc 5 1 5)) ;;;
    names <- os_listdir (subject_brain_directory self) ;;
    reorganise names
  else ret tt.

(** Histogram plotting has no effect on files and is left out. *)
Definition intensityNormalisation (useBiasCorrected : bool) : M unit :=
  emit (Call (M_intensityNormalisation useBiasCorrected)) ;;;
  let brain_file_format :=
    if useBiasCorrected then bias_restore_file self else brain_file self in
  image_paths <- comprehension (seq 0 (length (time_points_to_consider self)))
    (fun i =>
       t <- lift (index (time_points_to_consider self) i) ;;
       ret (brain_file_format (tp_str0 t))) ;;
  images <- comprehension image_paths nib_load_fdata ;;
  standard <- lift (nyul_fit env images) ;;
  normalized <- comprehension images (fun image => lift (nyul_apply env standard image)) ;;
  write_file (subject_normalised_directory self +:+ "standard_histogram.npy")
             (Npy standard) ;;;
  for_each (seq 0 (length (time_points_to_consider self)))
    (fun i =>
       t <- lift (index (time_points_to_consider self) i) ;;
       data <- lift (index normalized i) ;;
       nib_save (mk_nifti data eye4) (normalised_file self (tp_str0 t))) ;;;
  for_each (seq 0 (length (time_points_to_consider self)))
    (fun i =>
       t <- lift (index (time_points_to_consider self) i) ;;
       run_tool (Reorient2Std (normalised_file self (tp_str0 t))
                              (normalised_file self (tp_str0 t)))).

(** The intensities of voxel [(i, j, k)] over the time points. *)
Definition voxel_intensities (images : list ndarray) (ntp i j k : nat) : Exn + list Q :=
  fold_loop (seq 0 ntp)
    (fun n vi =>
       match index images n with
       | inl e => inl e
       | inr img =>
           match np.getitem img i j k with
           | inl e => inl e
           | inr x => inr (<[n := x]> vi)
           end
       end)
    (replicate ntp 0%Q).

(** The voxel loop of [calcVariance]. *)
Definition variance_loop (images : list ndarray) (ntp : nat) (variances : ndarray)
  : Exn + ndarray :=
  let '(nx, ny, nz) := shape variances in
  fold_loop (seq 0 nx)
    (fun i v =>
       fold_loop (seq 0 ny)
         (fun j v =>
            fold_loop (seq 0 nz)
              (fun k v =>
                 match voxel_intensities images ntp i j k with
                 | inl e => inl e
                 | inr vi => np.setitem v i j k (np.var vi)
                 end) v) v)
    variances.

Definition calcVariance (out_file : string) : M unit :=
  emit (Call (M_calcVariance out_file)) ;;;
  image_paths <- comprehension (seq 0 (length (time_points_to_consider self)))
    (fun i =>
       t <- lift (index (time_points_to_consider self) i) ;;
       ret (normalised_file self (tp_str0 t))) ;;
  images <- comprehension image_paths nib_load_fdata ;;
  first <- lift (index images 0) ;;
  variances <- lift (variance_loop images (length (time_points_to_consider self))
                       (np.zeros (shape first))) ;;
  nib_save (mk_nifti variances eye4) out_file.

Definition runVariancePipeline (out_file : string) : M unit :=
  extractBrain ;;;
  correctBiasField "FSL" ;;;
  intensityNormalisation true ;;;
  calcVariance out_file.

End Methods.

(** ** The module [Registration] *)

(** A registration method that runs one FSL program. *)
Definition reg_tool (env : Env) (t : ToolCall) : RegAction :=
  fun s => match fsl_run env t s with (o, s') => (o, s', [t]) end.

(** Modelled from the spec: the module [Registration] (imported as [rg]),
    which the sources at hand do not include.  Section 4.3: rigid and affine
    registration resample the target onto the reference and write the
    registered volume at the output path; non-linear registration takes the
    prior affine transform and fails with MissingPrerequisite when none
    exists for the time point, before anything is run or written. *)
Definition spec_Registration (env : Env) : RegistrationModule := {|
  rigidFslFLIRT r cost_function interpolation :=
    reg_tool env (FLIRT 6 (reference_path r) (target_path r) (out_path r)
                    cost_function interpolation);
  affineFslFLIRT r cost_function interpolation :=
    reg_tool env (FLIRT 12 (reference_path r) (target_path r) (out_path r)
                    cost_function interpolation);
  nonlinearFslFNIRT r affine_file :=
    fun s =>
      if bool_decide (is_Some (s !! affine_file))
      then reg_tool env (FNIRT (reference_path r) (target_path r) affine_file
                           (out_path r)) s
      else (inl MissingPrerequisite, s, [])
|}.

(** ** A sample environment

    A plain stand-in for FSL, used to run the methods on concrete file
    systems: every program needs its inputs and writes its outputs as
    copies of its input; FAST writes its usual family of files next to its
    input. *)

Module Sample.

Definition copy (src : string) (dsts : list string) (s : FS) : (Exn + unit) * FS :=
  match s !! src with
  | Some c => (inr tt, foldl (fun m d => <[d := c]> m) s dsts)
  | None => (inl ExternalToolFailure, s)
  end.

Definition needs (inputs : list string) (s : FS) (k : (Exn + unit) * FS)
  : (Exn + unit) * FS :=
  if forallb (fun p => bool_decide (is_Some (s !! p))) inputs then k
  else (inl ExternalToolFailure, s).

(** [p] without its extension [".nii.gz"]. *)
Definition fast_basename (p : string) : string :=
  match Py.rsplit "." 2 p with
  | [b; "nii"; "gz"] => b
  | _ => p
  end.

Definition fast_outputs (p : string) : list string :=
  map (fun sfx => fast_basename p +:+ sfx +:+ ".nii.gz")
      ["_restore"; "_bias"; "_seg"; "_mixeltype";
       "_pve_0"; "_pve_1"; "_pve_2"; "_pve_3"; "_pve_4"].

Definition run (t : ToolCall) (s : FS) : (Exn + unit) * FS :=
  match t with
  | FLIRT _ reference in_file out_file _ _ =>
      needs [reference] s (copy in_file [out_file] s)
  | FNIRT reference in_file affine_file out_file =>
      needs [reference; affine_file] s (copy in_file [out_file] s)
  | ApplyMask in_file mask_file out_file =>
      needs [mask_file] s (copy in_file [out_file] s)
  | FAST in_files _ _ _ => copy in_files (fast_outputs in_files) s
  | Reorient2Std in_file out_file => copy in_file [out_file] s
  end.

Definition env : Env := {|
  fsl_run := run;
  nyul_fit images := inr [0; 1]%Q;
  nyul_apply standard image := inr image
|}.

Definition rg : RegistrationModule := spec_Registration env.

(** A volume of the given shape with the same intensity at every voxel. *)
Definition uniform (shp : nat * nat * nat) (x : Q) : ndarray :=
  mk_ndarray shp (replicate (np.size shp) x).

(** An affine that is not the identity. *)
Definition scanner_affine : matrix :=
  [[-1; 0; 0; 90]; [0; 1; 0; -126]; [0; 0; 1; -72]; [0; 0; 0; 1]]%Q.

Definition volume (shp : nat * nat * nat) (x : Q) : Content :=
  Nifti (mk_nifti (uniform shp x) scanner_affine).

Definition subject : Process3DFLAIR :=
  mk_Process3DFLAIR "B-RAP_0027" 5 [1; 2]%Z "rigidfsl".

Definition out_file : string :=
  "/home/ela/Documents/B-RAPIDD/B-RAP_0027/3D-FLAIR/variance_maps/rigid.nii.gz".

(** The state before a first run: the two converted scans, and the brain
    and mask of the template time point 2. *)
Definition fs_raw : FS :=
  list_to_map
    [(nifti_file subject "01", volume (2, 2, 1)%nat 10);
     (nifti_file subject "02", volume (2, 2, 1)%nat 20);
     (brain_file subject "02", volume (2, 2, 1)%nat 20);
     (brain_file_mask subject "02", volume (2, 2, 1)%nat 1)].

(** The same subject with a method name that the source does not know. *)
Definition subject_unknown : Process3DFLAIR :=
  mk_Process3DFLAIR "B-RAP_0027" 5 [1; 2]%Z "ants".

(** The same subject asking for non-linear registration. *)
Definition subject_nonlinear : Process3DFLAIR :=
  mk_Process3DFLAIR "B-RAP_0027" 5 [1; 2]%Z "nonlinearfsl".

(** The subject of the script at the end of the source file: five time
    points, the fifth is the template. *)
Definition subject5 : Process3DFLAIR :=
  mk_Process3DFLAIR "B-RAP_0100" 5 [1; 2; 3; 4; 5]%Z "rigidfsl".

Definition fs_raw5 : FS :=
  list_to_map
    [(nifti_file subject5 "01", volume (1, 1, 1)%nat 10);
     (nifti_file subject5 "02", volume (1, 1, 1)%nat 20);
     (nifti_file subject5 "03", volume (1, 1, 1)%nat 30);
     (nifti_file subject5 "04", volume (1, 1, 1)%nat 40);
     (nifti_file subject5 "05", volume (1, 1, 1)%nat 50);
     (brain_file subject5 "05", volume (1, 1, 1)%nat 50);
     (brain_file_mask subject5 "05", volume (1, 1, 1)%nat 1)].

(** The state before calcVariance: the two normalised volumes, uniformly 10
    and uniformly 20, still with the affine of the scanner. *)
Definition fs_normalised : FS :=
  list_to_map
    [(normalised_file subject "01", volume (2, 2, 1)%nat 10);
     (normalised_file subject "02", volume (2, 2, 1)%nat 20)].

(** Two normalised volumes of different shapes: the second has one more
    plane than the first. *)
Definition fs_mismatch : FS :=
  list_to_map
    [(normalised_file subject "01", volume (1, 1, 1)%nat 10);
     (normalised_file subject "02", volume (2, 1, 1)%nat 20)].

(** The same with the larger volume first. *)
Definition fs_mismatch_small : FS :=
  list_to_map
    [(normalised_file subject "01", volume (2, 1, 1)%nat 10);
     (normalised_file subject "02", volume (1, 1, 1)%nat 20)].

(** The brain directory after FAST on one time point, as in the example
    of the specification: the brain volume and one output of each kind. *)
Definition fs_fast_outputs : FS :=
  list_to_map
    [(brain_file subject "01", volume (1, 1, 1)%nat 10);
     (subject_brain_directory subject +:+ "B-RAP_0027_01_D1_restore.nii.gz",
      volume (1, 1, 1)%nat 11);
     (subject_brain_directory subject +:+ "B-RAP_0027_01_D1_bias.nii.gz",
      volume (1, 1, 1)%nat 12);
     (subject_brain_directory subject +:+ "B-RAP_0027_01_D1_mixeltype.nii.gz",
      volume (1, 1, 1)%nat 13);
     (subject_brain_directory subject +:+ "B-RAP_0027_01_D1_seg.nii.gz",
      volume (1, 1, 1)%nat 14);
     (subject_brain_directory subject +:+ "B-RAP_0027_01_D1_pve_0.nii.gz",
      volume (1, 1, 1)%nat 15)].

End Sample.

(** ** Observations

    What the properties below look at: the shape of a time-point string and
    the events of a trace. *)

Definition is_digit (c : ascii) : bool :=
  match Ascii.is_nat c with Some _ => true | None => false end.

Definition two_digits (s : string) : bool :=
  match s with
  | String a (String b EmptyString) => (is_digit a && is_digit b)%bool
  | _ => false
  end.

(** Every event of every run of [m] satisfies [P]. *)
Definition trace_all {A} (P : Event -> Prop) (m : M A) : Prop :=
  forall s, Forall P (trace (m s)).

(** The calls of [applyBETMask]: (template, target). *)
Definition mask_call (e : Event) : option (Z * Z) :=
  match e with
  | Call (M_applyBETMask a b) => Some (a, b)
  | _ => None
  end.
Definition mask_calls (tr : list Event) : list (Z * Z) := omap mask_call tr.

(** The calls of the four stages. *)
Definition stage_call (e : Event) : option Method :=
  match e with
  | Call (M_applyBETMask _ _) => None
  | Call m => Some m
  | _ => None
  end.
Definition stage_calls (tr : list Event) : list Method := omap stage_call tr.

(** The runs of external programs. *)
Definition tool_run (e : Event) : option ToolCall :=
  match e with
  | Tool t => Some t
  | _ => None
  end.
Definition tool_runs (tr : list Event) : list ToolCall := omap tool_run tr.


(** A saved image carries the identity affine. *)
Definition saved_with_identity (e : Event) : Prop :=
  match e with
  | NibSave _ img => affine img = eye4
  | _ => True
  end.

(** Counting the events of a trace that satisfy a test. *)
Definition ecount (p : Event -> bool) (tr : list Event) : nat :=
  length (List.filter p tr).

Definition is_ApplyMask_run (e : Event) : bool :=
  match e with Tool (ApplyMask _ _ _) => true | _ => false end.
Definition is_FAST_run (e : Event) : bool :=
  match e with Tool (FAST _ _ _ _) => true | _ => false end.
Definition is_Reorient2Std_run (e : Event) : bool :=
  match e with Tool (Reorient2Std _ _) => true | _ => false end.

(** The bias field of a time point, where the reorganisation puts it. *)
Definition bias_field_file (self : Process3DFLAIR) (tp : string) : string :=
  subject_bias_fields_directory self +:+ subject_id self +:+ "_" +:+ tp
  +:+ "_D1_bias.nii.gz".

Definition is_file (s : FS) (p : string) : bool := bool_decide (is_Some (s !! p)).

(** Every artifact of every stage is on the file system: converted,
    registered (all but the template), brain-extracted, bias-corrected,
    bias field and normalised volume of each time point, and the variance
    map. *)
Definition all_artifacts_present (self : Process3DFLAIR) (out_file : string) (s : FS)
  : bool :=
  (forallb (fun t =>
      is_file s (nifti_file self (tp_zfill t))
      && is_file s (brain_file self (tp_zfill t))
      && is_file s (bias_restore_file self (tp_str0 t))
      && is_file s (bias_field_file self (tp_str0 t))
      && is_file s (normalised_file self (tp_str0 t)))
     (time_points_to_consider self)
   && forallb (fun t => is_file s (registered_whole_brain_file self (tp_zfill t)))
        (removelast (time_points_to_consider self))
   && is_file s out_file)%bool.

(** The order of the stages in [runVariancePipeline]. *)
Definition pipeline_stages (out_file : string) : list Method :=
  [M_extractBrain; M_correctBiasField "FSL"; M_intensityNormalisation true;
   M_calcVariance out_file].

(** The result of a list comprehension whose body only reads. *)
Fixpoint collect {A B} (f : A -> Exn + B) (l : list A) : Exn + list B :=
  match l with
  | [] => inr []
  | x :: r =>
      match f x with
      | inl e => inl e
      | inr y =>
          match collect f r with
          | inl e => inl e
          | inr ys => inr (y :: ys)
          end
      end
  end.

(** The array that [nib.load(p).get_fdata()] returns on the file system [s]. *)
Definition load_fdata (s : FS) (p : string) : Exn + ndarray :=
  outcome (nib_load_fdata p s).

(** The paths of the normalised volumes that calcVariance loads. *)
Definition variance_inputs (self : Process3DFLAIR) : list string :=
  map (fun t => normalised_file self (tp_str0 t)) (time_points_to_consider self).

(** The element that [a[i, j, k]] reads. *)
Definition voxel (a : ndarray) (i j k : nat) : Q :=
  default 0%Q (flat a !! np.offset (shape a) i j k).

(** The intensities of one voxel across a family of volumes. *)
Definition intensities (images : list ndarray) (i j k : nat) : list Q :=
  map (fun img => voxel img i j k) images.

(** The voxel coordinates of a grid, in the order of the three loops. *)
Definition voxels (shp : nat * nat * nat) : list (nat * nat * nat) :=
  let '(nx, ny, nz) := shp in
  flat_map (fun i =>
    flat_map (fun j => map (fun k => (i, j, k)) (seq 0 nz)) (seq 0 ny)) (seq 0 nx).

(** One iteration of the voxel loop. *)
Definition variance_step (images : list ndarray) (ntp : nat)
    (idx : nat * nat * nat) (v : ndarray) : Exn + ndarray :=
  let '(i, j, k) := idx in
  match voxel_intensities images ntp i j k with
  | inl e => inl e
  | inr vi => np.setitem v i j k (np.var vi)
  end.

(** The variance of one voxel, when every volume has it. *)
Definition voxel_variance (images : list ndarray) (idx : nat * nat * nat) : Exn + Q :=
  let '(i, j, k) := idx in
  if forallb (fun img => np.in_bounds (shape img) i j k) images
  then inr (np.var (intensities images i j k))
  else inl IndexError.

(** A grid of shape [big] contains the grid of shape [small]. *)
Definition covers (big small : nat * nat * nat) : bool :=
  let '(a, b, c) := big in
  let '(nx, ny, nz) := small in
  ((nx <=? a) && (ny <=? b) && (nz <=? c))%bool%nat.

(** The shapes of the volumes that calcVariance loads. *)
Definition input_shapes (self : Process3DFLAIR) (s : FS)
  : Exn + list (nat * nat * nat) :=
  match collect (load_fdata s) (variance_inputs self) with
  | inl e => inl e
  | inr images => inr (map shape images)
  end.

(** The file system holds the volumes [images] at [paths], one by one. *)
Definition holds_volumes (s : FS) (paths : list string) (images : list ndarray) : Prop :=
  Forall2 (fun p img => exists aff, s !! p = Some (Nifti (mk_nifti img aff)))
          paths images.

(** The population variance in the words of the specification: the mean of
    the squared deviations from the mean. *)
Definition arithmetic_mean (l : list Q) : Q :=
  (fold_right Qplus 0 l / inject_Z (Z.of_nat (length l)))%Q.

Definition population_variance (l : list Q) : Q :=
  arithmetic_mean
    (map (fun x => ((x - arithmetic_mean l) ^ 2)%Q) l).

(** What the reorganisation does with one file of the brain directory. *)
Inductive Action :=
| ToBiasCorrected
| ToFields
| Remove
| Leave.

(** The branch of the reorganisation loop that a file name takes. *)
Definition classify (self : Process3DFLAIR) (filename : string) : Exn + Action :=
  if Py.startswith (subject_id self) filename then
    match index (Py.rsplit "." 2 filename) 0 with
    | inl e => inl e
    | inr base_name =>
        match index (Py.rsplit "_" 1 base_name) 1 with
        | inl e => inl e
        | inr suffix =>
            if String.eqb suffix "restore" then inr ToBiasCorrected
            else if String.eqb suffix "bias" then inr ToFields
            else if String.eqb suffix "mixeltype" then inr Remove
            else if String.eqb suffix "seg" then inr Remove
            else if Py.contains "pve" base_name then inr Remove
            else inr Leave
        end
    end
  else inr Leave.

(** Where a moved file goes. *)
Definition target_of (self : Process3DFLAIR) (act : Action) (n : string)
  : option string :=
  match act with
  | ToBiasCorrected => Some (subject_bias_directory self +:+ n)
  | ToFields => Some (subject_bias_fields_directory self +:+ n)
  | Remove | Leave => None
  end.

(** The file system after the action [act] on the file [n] of the brain
    directory. *)
Definition effect (self : Process3DFLAIR) (act : Action) (n : string) (s : FS) : FS :=
  match act with
  | Leave => s
  | Remove => delete (subject_brain_directory self +:+ n) s
  | ToBiasCorrected | ToFields =>
      match s !! (subject_brain_directory self +:+ n), target_of self act n with
      | Some c, Some t => <[t := c]> (delete (subject_brain_directory self +:+ n) s)
      | _, _ => s
      end
  end.

(** The paths that the reorganisation of [names] writes or removes. *)
Definition touched (self : Process3DFLAIR) (names : list string) (p : string) : Prop :=
  exists n act,
    n ∈ names /\ classify self n = inr act /\
    ((p = subject_brain_directory self +:+ n /\ act <> Leave) \/
     target_of self act n = Some p).

(** Where one file [n] of the brain directory has to be, between the
    file systems [s] before and [s'] after: a restore file is in the
    bias-corrected directory, a bias file in the fields subdirectory, both
    gone from the brain directory; a mixeltype, seg or pve file is gone;
    any other file is where it was. *)
Definition placed (self : Process3DFLAIR) (s s' : FS) (n : string) : Prop :=
  let src := subject_brain_directory self +:+ n in
  match classify self n with
  | inr ToBiasCorrected =>
      s' !! (subject_bias_directory self +:+ n) = s !! src /\ s' !! src = None
  | inr ToFields =>
      s' !! (subject_bias_fields_directory self +:+ n) = s !! src /\ s' !! src = None
  | inr Remove => s' !! src = None
  | inr Leave => s' !! src = s !! src
  | inl _ => False
  end.

(** ** Further methods and observations *)

(** The registration that applyBETMask selects for a pair of time points:
    the branch of the three tests on [registration_method] that fires. *)
Definition selected_registration (rg : RegistrationModule) (self : Process3DFLAIR)
    (extracted_timepoint to_extract_timepoint : Z) : option RegAction :=
  let r := mk_Registration
             (brain_file self (tp_zfill extracted_timepoint))
             (nifti_file self (tp_zfill to_extract_timepoint))
             (registered_whole_brain_file self (tp_zfill to_extract_timepoint)) in
  if String.eqb (registration_method self) "rigidfsl"
  then Some (rigidFslFLIRT rg r "mutualinfo" "trilinear")
  else if String.eqb (registration_method self) "affinefsl"
  then Some (affineFslFLIRT rg r "mutualinfo" "trilinear")
  else if String.eqb (registration_method self) "nonlinearfsl"
  then Some (nonlinearFslFNIRT rg r
               (affine_file_path self (tp_zfill to_extract_timepoint)))
  else None.

(** The mask step of applyBETMask. *)
Definition mask_step (self : Process3DFLAIR)
    (extracted_timepoint to_extract_timepoint : Z) : ToolCall :=
  ApplyMask (registered_whole_brain_file self (tp_zfill to_extract_timepoint))
            (brain_file_mask self (tp_zfill extracted_timepoint))
            (brain_file self (tp_zfill to_extract_timepoint)).

(** The run of FAST that correctBiasField makes for a time point. *)
Definition fast_step (self : Process3DFLAIR) (t : Z) : ToolCall :=
  FAST (brain_file self (tp_str0 t)) 5 1 5.

(** The run of Reorient2Std that intensityNormalisation makes for a time
    point: in place. *)
Definition reorient_step (self : Process3DFLAIR) (t : Z) : ToolCall :=
  Reorient2Std (normalised_file self (tp_str0 t)) (normalised_file self (tp_str0 t)).

(** The volumes that intensityNormalisation loads. *)
Definition normalisation_inputs (self : Process3DFLAIR) (useBiasCorrected : bool)
  : list string :=
  map (fun t => (if useBiasCorrected then bias_restore_file self else brain_file self)
                  (tp_str0 t))
      (time_points_to_consider self).

(** The images written with [nib.save], in order. *)
Definition saved_image (e : Event) : option (string * Nifti1Image) :=
  match e with
  | NibSave p img => Some (p, img)
  | _ => None
  end.
Definition saved_images (tr : list Event) : list (string * Nifti1Image) :=
  omap saved_image tr.

(** Kinds of programs. *)
Definition is_FAST (e : Event) : Prop :=
  match e with Tool (FAST _ _ _ _) => True | Tool _ => False | _ => True end.
Definition is_Reorient2Std (e : Event) : Prop :=
  match e with Tool (Reorient2Std _ _) => True | Tool _ => False | _ => True end.
Definition no_program (e : Event) : Prop :=
  match e with Tool _ => False | _ => True end.
Definition is_registration_or_mask (e : Event) : Prop :=
  match e with
  | Tool (FLIRT _ _ _ _ _ _) | Tool (FNIRT _ _ _ _) | Tool (ApplyMask _ _ _) => True
  | Tool _ => False
  | _ => True
  end.

(** Further sample states. *)
Module Cases.

(** The brain directory after mask propagation: the extracted brains of
    the two time points. *)
Definition fs_brains : FS :=
  list_to_map
    [(brain_file Sample.subject "01", Sample.volume (2, 2, 1)%nat 10);
     (brain_file Sample.subject "02", Sample.volume (2, 2, 1)%nat 20)].

(** The bias-corrected directory after correctBiasField: the restored
    volumes of the two time points. *)
Definition fs_restored : FS :=
  list_to_map
    [(bias_restore_file Sample.subject "01", Sample.volume (2, 2, 1)%nat 10);
     (bias_restore_file Sample.subject "02", Sample.volume (2, 2, 1)%nat 20)].

(** A subject whose identifier has no underscore, and a brain directory
    with a stray file that has none either, between two outputs of the
    bias correction. *)
Definition subject_plain : Process3DFLAIR :=
  mk_Process3DFLAIR "B" 1 [1]%Z "rigidfsl".

Definition fs_stray : FS :=
  list_to_map
    [(subject_brain_directory subject_plain +:+ "B_01_D1_seg.nii.gz",
      Sample.volume (1, 1, 1)%nat 14);
     (subject_brain_directory subject_plain +:+ "B.nii.gz",
      Sample.volume (1, 1, 1)%nat 10);
     (subject_brain_directory subject_plain +:+ "B_01_D1_restore.nii.gz",
      Sample.volume (1, 1, 1)%nat 11)].

End Cases.

(** What intensityNormalisation computes before it writes anything: the
    loaded volumes, the standard histogram fitted on them, and each volume
    transformed with it. *)
Definition normalised_volumes (env : Env) (self : Process3DFLAIR)
    (useBiasCorrected : bool) (s : FS) : Exn + (list Q * list ndarray) :=
  match collect (load_fdata s) (normalisation_inputs self useBiasCorrected) with
  | inl e => inl e
  | inr images =>
      match nyul_fit env images with
      | inl e => inl e
      | inr standard =>
          match collect (nyul_apply env standard) images with
          | inl e => inl e
          | inr normalized => inr (standard, normalized)
          end
      end
  end.

(** The image that intensityNormalisation saves for a time point and its
    normalised data, and where. *)
Definition normalised_image (self : Process3DFLAIR) (p : Z * ndarray)
  : string * Nifti1Image :=
  (normalised_file self (tp_str0 p.1), mk_nifti p.2 eye4).

Definition standard_histogram_file (self : Process3DFLAIR) : string :=
  subject_normalised_directory self +:+ "standard_histogram.npy".

(** The file system after a sequence of [nib.save]. *)
Definition save_all (l : list (string * Nifti1Image)) (s : FS) : FS :=
  foldl (fun m p => <[p.1 := Nifti p.2]> m) s l.

Definition save_event (p : string * Nifti1Image) : Event := NibSave p.1 p.2.

(** The kinds of per-time-point files that the methods name. *)
Inductive PathKind :=
| KNifti
| KMask
| KBrain
| KAffine
| KRegistered
| KRestore
| KNormalised.

Definition path_of (self : Process3DFLAIR) (k : PathKind) (tp : string) : string :=
  match k with
  | KNifti => nifti_file self tp
  | KMask => brain_file_mask self tp
  | KBrain => brain_file self tp
  | KAffine => affine_file_path self tp
  | KRegistered => registered_whole_brain_file self tp
  | KRestore => bias_restore_file self tp
  | KNormalised => normalised_file self tp
  end.

(** The folder, below the root of the subject, and the ending of the paths
    of each kind. *)
Definition folder_of (k : PathKind) : string :=
  match k with
  | KNifti => "original_nifti/"
  | KMask => "brain_nifti/masks/"
  | KBrain => "brain_nifti/"
  | KAffine => "registered_nifti//FLIRT_mat/"
  | KRegistered => "registered_nifti/"
  | KRestore => "bias_nifti/"
  | KNormalised => "normalised_nifti/"
  end.

Definition ending_of (k : PathKind) : string :=
  match k with
  | KMask => "_D1.nii"
  | KAffine => "_D1_flirt.mat"
  | KRestore => "_D1_restore.nii.gz"
  | KNifti | KBrain | KRegistered | KNormalised => "_D1.nii.gz"
  end.

(** ** The search of the DICOM folder

    findDICOMFolder looks at folders, which the flat store [FS] does not
    hold; it is modelled on the tree of folders below the DICOM root.  A
    folder holds the names of its files and its sub-folders by name, in the
    order in which the operating system lists them. *)

#[local] Unset Elimination Schemes.
Inductive DirTree :=
| Dir (files : list string) (subdirs : list (string * DirTree)).
#[local] Set Elimination Schemes.

Definition files_of (d : DirTree) : list string :=
  match d with Dir files _ => files end.
Definition subdirs_of (d : DirTree) : list (string * DirTree) :=
  match d with Dir _ subdirs => subdirs end.

(** [os.listdir(folder)]: the names of the files and of the sub-folders. *)
Definition listdir (d : DirTree) : list string :=
  files_of d ++ map fst (subdirs_of d).

(** [s.endswith(suffix)]. *)
Definition endswith (suffix s : string) : bool :=
  (String.length suffix <=? String.length s)%nat
  && String.eqb (String.substring (String.length s - String.length suffix)
                                  (String.length suffix) s) suffix.

(** [os.walk(top)], top-down: the folder itself, then the walk of each of
    its sub-folders in turn.  Each item is the path of a folder with its
    sub-folders. *)
Fixpoint os_walk (dirpath : string) (d : DirTree) {struct d}
  : list (string * list (string * DirTree)) :=
  match d with
  | Dir _ subdirs =>
      (dirpath, subdirs)
      :: flat_map (fun p => os_walk (os_path_join dirpath (fst p)) (snd p)) subdirs
  end.

(** [[file for file in os.listdir(folder) if file.endswith('.dcm')]]. *)
Definition dicom_files (d : DirTree) : list string :=
  List.filter (endswith ".dcm") (listdir d).

(** The inner loop: the first of [dirnames] that holds a DICOM file. *)
Fixpoint first_dicom_folder (dirpath : string) (dirnames : list (string * DirTree))
  : option string :=
  match dirnames with
  | [] => None
  | (dirname, d) :: rest =>
      let folder_path := os_path_join dirpath dirname in
      match dicom_files d with
      | _ :: _ => Some folder_path
      | [] => first_dicom_folder dirpath rest
      end
  end.

(** The outer loop over the items of the walk. *)
Fixpoint search_walk (items : list (string * list (string * DirTree))) : option string :=
  match items with
  | [] => None
  | (dirpath, dirnames) :: rest =>
      match first_dicom_folder dirpath dirnames with
      | Some folder_path => Some folder_path
      | None => search_walk rest
      end
  end.

Definition subject_dicom_directory (self : Process3DFLAIR) : string :=
  subject_directory_root self +:+ "original_dicom/".

Definition dicom_root_path (self : Process3DFLAIR) (time_point : Z) : string :=
  subject_dicom_directory self +:+ subject_id self +:+ "_" +:+ tp_zfill time_point
  +:+ "_D1".

(** [root] is the folder at the DICOM root path of the time point, when
    there is one; the walk of a path that is no folder is empty. *)
Definition findDICOMFolder (self : Process3DFLAIR) (time_point : Z)
    (root : option DirTree) : option string :=
  match root with
  | Some d => search_walk (os_walk (dicom_root_path self time_point) d)
  | None => None
  end.

(** [d'] at path [q] is a folder somewhere below the folder [d] at path
    [p]. *)
Inductive below : string -> DirTree -> string -> DirTree -> Prop :=
| below_child p d name d' :
    (name, d') ∈ subdirs_of d -> below p d (os_path_join p name) d'
| below_deeper p d name d1 q d' :
    (name, d1) ∈ subdirs_of d -> below (os_path_join p name) d1 q d' ->
    below p d q d'.

(** A folder that holds at least one entry whose name ends in [.dcm]. *)
Definition holds_dicom (d : DirTree) : Prop :=
  exists f, f ∈ listdir d /\ endswith ".dcm" f = true.

(** Sample folder trees. *)
Module Folders.

(** The scans two levels below the root, as in the B-RAPIDD downloads. *)
Definition nested : DirTree :=
  Dir ["README.txt"]
      [("scans", Dir [] [("1-FLAIR", Dir ["IM0001.dcm"; "IM0002.dcm"] [])])].

(** The scans directly in the root folder. *)
Definition flat : DirTree := Dir ["IM0001.dcm"; "IM0002.dcm"] [].

End Folders.

(** ** The earlier brain extraction

    extractBrainNIFTIold runs BET besides the programs of [ToolCall]; the
    runs of its programs are recorded in a trace of their own. *)

Module Old.

Inductive Program :=
| BET (in_file out_file : string) (frac : Q) (mask : bool)
| Fsl (t : ToolCall).

Definition Res : Type := (Exn + unit) * FS * list Program.

(** The FSL programs, and BET. *)
Record Tools := mk_Tools {
  fsl : Env;
  bet_run : string -> string -> Q -> bool -> FS -> (Exn + unit) * FS
}.

(** [program.run()]. *)
Definition run (tools : Tools) (p : Program) (s : FS) : Res :=
  match p with
  | BET i o f m => (bet_run tools i o f m s, [p])
  | Fsl t => (fsl_run (fsl tools) t s, [p])
  end.

Definition skip (s : FS) : Res := (inr tt, s, []).

(** Sequencing: the next statement runs when the first one returned. *)
Definition and_then (r : Res) (k : FS -> Res) : Res :=
  match r with
  | (inl e, s, t) => (inl e, s, t)
  | (inr _, s, t) =>
      match k s with
      | (o, s', t') => (o, s', t ++ t')
      end
  end.

Fixpoint each {A} (l : list A) (body : A -> FS -> Res) (s : FS) : Res :=
  match l with
  | [] => skip s
  | x :: r => and_then (body x s) (each r body)
  end.

Section Paths.
Variable self : Process3DFLAIR.

Definition subject_T1_directory : string :=
  "/home/ela/Documents/B-RAPIDD/" +:+ subject_id self +:+ "/T1-MPRAGE/".
Definition subject_T1_nifti_directory : string :=
  subject_T1_directory +:+ "original_nifti/".
Definition subject_T1_brain_directory : string :=
  subject_T1_directory +:+ "brain_nifti/".
Definition T1_nifti_file (tp : string) : string :=
  subject_T1_nifti_directory +:+ subject_id self +:+ "_" +:+ tp +:+ "_D1.nii.gz".
Definition T1_brain_file (tp : string) : string :=
  subject_T1_brain_directory +:+ subject_id self +:+ "_" +:+ tp +:+ "_D1.nii.gz".
Definition T1_brain_masks_file (tp : string) : string :=
  subject_T1_brain_directory +:+ subject_id self +:+ "_" +:+ tp +:+ "_D1_mask.nii.gz".
Definition registered_T1_file (tp : string) : string :=
  subject_T1_directory +:+ "T1_in_FLAIR_nifti/" +:+ subject_id self +:+ "_" +:+ tp
  +:+ "_D1.nii.gz".

End Paths.

(** The body of the loop of extractBrainNIFTIold for the time point [t]. *)
Definition time_point_step (tools : Tools) (self : Process3DFLAIR) (useT1 : bool)
    (t : Z) (s : FS) : Res :=
  let current_img_str := tp_str0 t in
  let current_brain_loc := brain_file self current_img_str in
  if is_file s current_brain_loc then skip s
  else
    let current_nifti_loc := nifti_file self current_img_str in
    if negb useT1 then
      run tools (BET current_nifti_loc current_brain_loc (45 # 100) false) s
    else
      let current_T1_loc := T1_nifti_file self current_img_str in
      let current_registered_T1_loc := registered_T1_file self current_img_str in
      and_then
        (if negb (is_file s current_registered_T1_loc)
         then run tools (Fsl (FLIRT 6 current_nifti_loc current_T1_loc
                                current_registered_T1_loc "mutualinfo" "trilinear")) s
         else skip s)
        (fun s1 =>
           let current_T1_brain := T1_brain_file self current_img_str in
           and_then
             (if negb (is_file s1 current_T1_brain)
              then run tools (BET current_registered_T1_loc current_T1_brain
                                (4 # 10) true) s1
              else skip s1)
             (fun s2 =>
                run tools (Fsl (ApplyMask current_nifti_loc
                                  (T1_brain_masks_file self current_img_str)
                                  current_brain_loc)) s2)).

Definition extractBrainNIFTIold (tools : Tools) (self : Process3DFLAIR) (useT1 : bool)
    (s : FS) : Res :=
  each (seq 0 (length (time_points_to_consider self)))
    (fun i s' =>
       match index (time_points_to_consider self) i with
       | inl e => (inl e, s', [])
       | inr t => time_point_step tools self useT1 t s'
       end) s.

(** The run of BET for a time point when the T1 is not used. *)
Definition bet_step (self : Process3DFLAIR) (t : Z) : Program :=
  BET (nifti_file self (tp_str0 t)) (brain_file self (tp_str0 t)) (45 # 100) false.

(** A stand-in for BET: it needs its input and writes its output. *)
Definition sample_tools : Tools := {|
  fsl := Sample.env;
  bet_run i o _ _ := Sample.copy i [o]
|}.

End Old.

(** ** The names given to the converted scans

    renameNIFTIFiles names the scan at position [index] of the sorted
    listing, counted from 1; convertDICOMtoNIFTI tests for, and reorients,
    the scan of the time point [i + 1]. *)

Definition new_file_name (self : Process3DFLAIR) (index : Z) : string :=
  subject_id self +:+ "_" +:+ Py.zfill 2 (Py.str index) +:+ "_D1".

Definition new_nifti_name (self : Process3DFLAIR) (index : Z) : string :=
  new_file_name self index +:+ ".nii.gz".

Definition renamed_nifti_path (self : Process3DFLAIR) (index : Z) : string :=
  os_path_join (subject_nifti_directory self) (new_nifti_name self index).

Definition converted_nifti_path (self : Process3DFLAIR) (time_point : Z) : string :=
  nifti_file self (Py.str 0 +:+ Py.str time_point).

(** * Properties *)

(** ** Time-point strings and paths *)

Lemma in_Z_range (lo n : nat) (t : Z) :
  (Z.of_nat lo <= t < Z.of_nat (lo + n))%Z -> In t (map Z.of_nat (seq lo n)).
Proof.
  intros H. apply in_map_iff. exists (Z.to_nat t). split; [lia|].
  apply in_seq. lia.
Qed.

(** [str(t).zfill(2)] is two digits for every time point from 1 to 99. *)
Lemma tp_zfill_two_digits (t : Z) :
  (1 <= t <= 99)%Z -> two_digits (tp_zfill t) = true.
Proof.
  intros H.
  assert (Hall : forallb (fun t => two_digits (tp_zfill t))
                   (map Z.of_nat (seq 1 99)) = true) by (vm_compute; reflexivity).
  rewrite forallb_forall in Hall. apply Hall. apply in_Z_range. lia.
Qed.

(** [str(0)+str(t)] is two digits for the time points from 1 to 9, where it
    agrees with [zfill]. *)
Lemma tp_str0_one_digit (t : Z) :
  (1 <= t <= 9)%Z -> tp_str0 t = tp_zfill t /\ two_digits (tp_str0 t) = true.
Proof.
  intros H.
  assert (Hall : forallb (fun t => (String.eqb (tp_str0 t) (tp_zfill t)
                                     && two_digits (tp_str0 t))%bool)
                   (map Z.of_nat (seq 1 9)) = true) by (vm_compute; reflexivity).
  rewrite forallb_forall in Hall.
  specialize (Hall t (in_Z_range 1 9 t ltac:(lia))).
  apply andb_prop in Hall as [H1 H2]. apply String.eqb_eq in H1. auto.
Qed.

Lemma chars_app (a b : string) : Py.chars (a +:+ b) = Py.chars a ++ Py.chars b.
Proof.
  induction a as [|c a IH]; [done|].
  change (c :: Py.chars (a +:+ b) = c :: (Py.chars a ++ Py.chars b)).
  by rewrite IH.
Qed.

Lemma chars_inj (a b : string) : Py.chars a = Py.chars b -> a = b.
Proof.
  intros H.
  rewrite <- (string_of_list_ascii_of_string a), <- (string_of_list_ascii_of_string b).
  unfold Py.chars in H. by rewrite H.
Qed.

Lemma append_inj_r (s a b : string) : a +:+ s = b +:+ s -> a = b.
Proof.
  intros H. apply chars_inj.
  apply (app_inv_tail (Py.chars s)). by rewrite <- !chars_app, H.
Qed.

Lemma brain_file_inj (self : Process3DFLAIR) (a b : string) :
  brain_file self a = brain_file self b -> a = b.
Proof.
  unfold brain_file. intros H.
  apply String.app_inj in H. apply String.app_inj in H.
  apply (String.app_inj "_") in H. by apply append_inj_r in H.
Qed.

(** Resolving a path is a function of its arguments: two resolutions with
    the same subject and time point give the same string. *)
Lemma resolve_deterministic (self self' : Process3DFLAIR) (t t' : Z) :
  self = self' -> t = t' ->
  brain_file self (tp_zfill t) = brain_file self' (tp_zfill t') /\
  normalised_file self (tp_str0 t) = normalised_file self' (tp_str0 t').
Proof. by intros -> ->. Qed.

(** C6, the failing half: for the time points from 10 to 99 the string
    [str(0)+str(t)] that correctBiasField, intensityNormalisation and
    calcVariance put in their paths has three characters, not two, so the
    brain volume correctBiasField reads is not the one applyBETMask wrote
    for the same time point. *)
Theorem C6_time_point_three_chars (self : Process3DFLAIR) (t : Z) :
  (10 <= t <= 99)%Z ->
  String.length (tp_str0 t) = 3 /\
  two_digits (tp_str0 t) = false /\
  brain_file self (tp_str0 t) <> brain_file self (tp_zfill t).
Proof.
  intros H.
  assert (Hall : forallb (fun t => (Nat.eqb (String.length (tp_str0 t)) 3
                                     && negb (two_digits (tp_str0 t))
                                     && two_digits (tp_zfill t))%bool)
                   (map Z.of_nat (seq 10 90)) = true) by (vm_compute; reflexivity).
  rewrite forallb_forall in Hall.
  specialize (Hall t (in_Z_range 10 90 t ltac:(lia))).
  apply andb_prop in Hall as [H12 H3]. apply andb_prop in H12 as [H1 H2].
  apply Nat.eqb_eq in H1. apply negb_true_iff in H2.
  repeat split; [done | done |].
  intros Heq%brain_file_inj. rewrite Heq in H2. congruence.
Qed.

Lemma C6_time_point_three_chars_at_10 :
  String.length (tp_str0 10) = 3 /\
  two_digits (tp_str0 10) = false /\
  brain_file Sample.subject (tp_str0 10) <> brain_file Sample.subject (tp_zfill 10).
Proof. apply (C6_time_point_three_chars Sample.subject 10). lia. Defined.

(** ** Laws of the monad *)

Section MonadLaws.
Context {A B : Type}.
Implicit Types (m : M A) (f : A -> M B) (s : FS).

Lemma outcome_bind m f s :
  outcome (bind m f s) =
  match outcome (m s) with
  | inl e => inl e
  | inr a => outcome (f a (final (m s)))
  end.
Proof.
  unfold bind, outcome, final.
  destruct (m s) as [[[e|a] s1] t1]; simpl; [done|].
  by destruct (f a s1) as [[o s2] t2].
Qed.

Lemma final_bind m f s :
  final (bind m f s) =
  match outcome (m s) with
  | inl _ => final (m s)
  | inr a => final (f a (final (m s)))
  end.
Proof.
  unfold bind, outcome, final.
  destruct (m s) as [[[e|a] s1] t1]; simpl; [done|].
  by destruct (f a s1) as [[o s2] t2].
Qed.

Lemma trace_bind m f s :
  trace (bind m f s) =
  trace (m s) ++
  match outcome (m s) with
  | inl _ => []
  | inr a => trace (f a (final (m s)))
  end.
Proof.
  unfold bind, outcome, final, trace.
  destruct (m s) as [[[e|a] s1] t1]; simpl; [by rewrite app_nil_r|].
  by destruct (f a s1) as [[o s2] t2].
Qed.

Lemma bind_ok m f s a s1 t1 :
  m s = (inr a, s1, t1) ->
  bind m f s = (outcome (f a s1), final (f a s1), t1 ++ trace (f a s1)).
Proof.
  intros H. unfold bind, outcome, final, trace. rewrite H.
  by destruct (f a s1) as [[o s2] t2].
Qed.

End MonadLaws.

Lemma bind_ret_l {A B} (a : A) (f : A -> M B) s : bind (ret a) f s = f a s.
Proof. unfold bind, ret. by destruct (f a s) as [[o s2] t2]. Qed.

Lemma bind_lift_ok {A B} (r : Exn + A) (a : A) (f : A -> M B) s :
  r = inr a -> bind (lift r) f s = f a s.
Proof. intros ->. apply bind_ret_l. Qed.

(** ** Loops over [range(len(l))] that read [l[i]] *)

Lemma index_app_r {A} (pre l : list A) (x : A) :
  index (pre ++ x :: l) (length pre) = inr x.
Proof. unfold index. by rewrite list_lookup_middle. Qed.

Lemma for_each_seq_index_gen {A} (body : A -> M unit) (n : nat) :
  forall (pre l : list A) s,
    n <= length l ->
    for_each (seq (length pre) n)
      (fun i => x <- lift (index (pre ++ l) i) ;; body x) s
    = for_each (take n l) body s.
Proof.
  induction n as [|n IH]; intros pre l s Hn; [done|].
  destruct l as [|x l]; [simpl in Hn; lia|].
  cbn [seq for_each take].
  unfold bind at 1. rewrite (bind_lift_ok _ x) by apply index_app_r.
  unfold bind at 2.
  destruct (body x s) as [[[e|[]] s1] t1]; [done|].
  specialize (IH (pre ++ [x]) l s1 ltac:(simpl in Hn; lia)).
  rewrite length_app, Nat.add_1_r, <- app_assoc in IH. simpl in IH.
  by rewrite IH.
Qed.

(** [for i in range(n): body(l[i])] runs [body] on the first [n] elements. *)
Lemma for_each_seq_index {A} (l : list A) (body : A -> M unit) (n : nat) s :
  n <= length l ->
  for_each (seq 0 n) (fun i => x <- lift (index l i) ;; body x) s
  = for_each (take n l) body s.
Proof. apply (for_each_seq_index_gen body n [] l s). Qed.

Lemma comprehension_seq_index_gen {A B} (g : A -> B) :
  forall (l pre : list A) s,
    comprehension (seq (length pre) (length l))
      (fun i => x <- lift (index (pre ++ l) i) ;; ret (g x)) s
    = (inr (map g l), s, []).
Proof.
  induction l as [|x l IH]; intros pre s; [done|].
  cbn [length seq comprehension map].
  unfold bind at 1. rewrite (bind_lift_ok _ x) by apply index_app_r.
  unfold ret at 1.
  specialize (IH (pre ++ [x]) s).
  rewrite length_app, Nat.add_1_r, <- app_assoc in IH. simpl in IH.
  unfold bind at 1. rewrite IH. done.
Qed.

(** The path-collecting loops build the list of the paths of all the
    configured time points, in order. *)
Lemma comprehension_seq_index {A B} (g : A -> B) (l : list A) s :
  comprehension (seq 0 (length l))
    (fun i => x <- lift (index l i) ;; ret (g x)) s
  = (inr (map g l), s, []).
Proof. apply (comprehension_seq_index_gen g l [] s). Qed.

(** ** Events a method can emit *)

Section TraceAll.
Variable P : Event -> Prop.

Lemma trace_all_ret {A} (a : A) : trace_all P (ret a).
Proof. intros s. constructor. Qed.

Lemma trace_all_lift {A} (r : Exn + A) : trace_all P (lift r).
Proof. intros s. destruct r; constructor. Qed.

Lemma trace_all_emit e : P e -> trace_all P (emit e).
Proof. intros H s. by repeat constructor. Qed.

Lemma trace_all_bind {A B} (m : M A) (f : A -> M B) :
  trace_all P m -> (forall a, trace_all P (f a)) -> trace_all P (bind m f).
Proof.
  intros Hm Hf s. rewrite trace_bind. apply Forall_app. split; [apply Hm|].
  destruct (outcome (m s)); [constructor | apply Hf].
Qed.

Lemma trace_all_for_each {A} (l : list A) (body : A -> M unit) :
  (forall x, trace_all P (body x)) -> trace_all P (for_each l body).
Proof.
  intros H. induction l as [|x l IH]; [apply trace_all_ret|].
  apply trace_all_bind; auto.
Qed.

Lemma trace_all_comprehension {A B} (l : list A) (f : A -> M B) :
  (forall x, trace_all P (f x)) -> trace_all P (comprehension l f).
Proof.
  intros H. induction l as [|x l IH]; [apply trace_all_ret|].
  cbn [comprehension]. apply trace_all_bind; [auto|]. intros y.
  apply trace_all_bind; [auto|]. intros ys. apply trace_all_ret.
Qed.

Lemma trace_all_if {A} (b : bool) (m1 m2 : M A) :
  trace_all P m1 -> trace_all P m2 -> trace_all P (if b then m1 else m2).
Proof. by destruct b. Qed.

Lemma trace_all_write_file p c : trace_all P (write_file p c).
Proof. intros s. constructor. Qed.

Lemma trace_all_os_remove p : trace_all P (os_remove p).
Proof. intros s. unfold os_remove. destruct (s !! p); constructor. Qed.

Lemma trace_all_shutil_move p q : trace_all P (shutil_move p q).
Proof. intros s. unfold shutil_move. destruct (s !! p); constructor. Qed.

Lemma trace_all_os_listdir d : trace_all P (os_listdir d).
Proof. intros s. constructor. Qed.

Lemma trace_all_nib_load_fdata p : trace_all P (nib_load_fdata p).
Proof.
  intros s. unfold nib_load_fdata. destruct (s !! p) as [[]|]; constructor.
Qed.

Lemma trace_all_nib_save img p :
  P (NibSave p img) -> trace_all P (nib_save img p).
Proof.
  intros H. apply trace_all_bind; [by apply trace_all_emit|].
  intros _. apply trace_all_write_file.
Qed.

Lemma trace_all_run_tool env t : P (Tool t) -> trace_all P (run_tool env t).
Proof.
  intros H. apply trace_all_bind; [by apply trace_all_emit|].
  intros _ s. destruct (fsl_run env t s). constructor.
Qed.

Lemma trace_all_run_reg (a : RegAction) :
  (forall t, P (Tool t)) -> trace_all P (run_reg a).
Proof.
  intros H s. unfold run_reg, trace. destruct (a s) as [[o s'] ts]. simpl.
  apply Forall_forall. intros e [t [<- _]]%list_elem_of_In%in_map_iff. apply H.
Qed.

End TraceAll.

(** Every event of a method body satisfies [P], by the shape of the body. *)
Ltac trace_auto :=
  repeat (intros; first
    [ apply trace_all_nib_save | apply trace_all_run_tool
    | apply trace_all_run_reg | apply trace_all_emit
    | apply trace_all_ret | apply trace_all_lift
    | apply trace_all_write_file
    | apply trace_all_os_remove | apply trace_all_shutil_move
    | apply trace_all_os_listdir | apply trace_all_nib_load_fdata
    | apply trace_all_for_each | apply trace_all_comprehension
    | apply trace_all_if | apply trace_all_bind ]);
  try done.

Lemma omap_none_nil {A B} (f : A -> option B) (l : list A) :
  Forall (fun x => f x = None) l -> omap f l = [].
Proof. induction 1 as [|x l Hx _ IH]; [done|]. simpl. by rewrite Hx. Qed.


(** ** Mask propagation *)

Lemma eqb_neq_false (a b : string) : a <> b -> String.eqb a b = false.
Proof. intros H. by apply String.eqb_neq. Qed.

(** C9: with a registration method that is none of ['rigidfsl'],
    ['affinefsl'], ['nonlinearfsl'], applyBETMask runs no registration and
    raises nothing of its own: the file system reaches the mask step
    unchanged, and the one program run is ApplyMask, reading the path
    where the registered volume was expected. *)
Theorem C9_unknown_method_is_silent
    (env : Env) (rg : RegistrationModule) (self : Process3DFLAIR)
    (extracted to_extract : Z) (s : FS) :
  registration_method self <> "rigidfsl" ->
  registration_method self <> "affinefsl" ->
  registration_method self <> "nonlinearfsl" ->
  let step := ApplyMask (registered_whole_brain_file self (tp_zfill to_extract))
                        (brain_file_mask self (tp_zfill extracted))
                        (brain_file self (tp_zfill to_extract)) in
  applyBETMask env rg self extracted to_extract s
  = (fst (fsl_run env step s), snd (fsl_run env step s),
     [Call (M_applyBETMask extracted to_extract); Tool step]).
Proof.
  intros H1 H2 H3 step. unfold applyBETMask.
  rewrite !eqb_neq_false by done.
  unfold run_tool, bind, emit, ret. fold step.
  by destruct (fsl_run env step s) as [o s'].
Qed.

(** C4: with the registration module of the specification, asking
    applyBETMask for non-linear registration of a time point whose affine
    transform file is absent raises MissingPrerequisite; no program is run
    and the file system is left as it was. *)
Theorem C4_nonlinear_needs_affine
    (env : Env) (self : Process3DFLAIR) (extracted to_extract : Z) (s : FS) :
  registration_method self = "nonlinearfsl" ->
  s !! affine_file_path self (tp_zfill to_extract) = None ->
  applyBETMask env (spec_Registration env) self extracted to_extract s
  = (inl MissingPrerequisite, s, [Call (M_applyBETMask extracted to_extract)]).
Proof.
  intros Hm Hnone. unfold applyBETMask. rewrite Hm.
  change (String.eqb "nonlinearfsl" "rigidfsl") with false.
  change (String.eqb "nonlinearfsl" "affinefsl") with false.
  change (String.eqb "nonlinearfsl" "nonlinearfsl") with true.
  cbv beta iota.
  unfold run_reg, bind, emit, ret.
  cbn [spec_Registration nonlinearFslFNIRT reference_path target_path out_path].
  rewrite Hnone. rewrite bool_decide_eq_false_2 by (by intros [? ?]).
  done.
Qed.

Lemma applyBETMask_mask_calls env rg self a b s :
  mask_calls (trace (applyBETMask env rg self a b s)) = [(a, b)].
Proof.
  unfold applyBETMask. rewrite trace_bind. unfold mask_calls.
  rewrite omap_app. cbn [emit trace snd outcome fst].
  match goal with
  | |- context [omap _ (trace (?m ?s'))] =>
      assert (Ht : trace_all (fun x => mask_call x = None) m) by trace_auto;
      rewrite (omap_none_nil mask_call (trace (m s'))) by apply Ht
  end.
  reflexivity.
Qed.

Lemma for_each_mask_calls env rg self template (l : list Z) s :
  let r := for_each l (applyBETMask env rg self template) s in
  (exists k, mask_calls (trace r) = map (pair template) (take k l)) /\
  (outcome r = inr tt -> mask_calls (trace r) = map (pair template) l).
Proof.
  revert s. induction l as [|t l IH]; intros s; cbn zeta.
  { split; [by exists 0|done]. }
  cbn [for_each]. rewrite trace_bind, outcome_bind. unfold mask_calls.
  rewrite omap_app. fold (mask_calls (trace (applyBETMask env rg self template t s))).
  rewrite applyBETMask_mask_calls.
  destruct (outcome (applyBETMask env rg self template t s)) as [e|[]].
  - split; [by exists 1|done].
  - destruct (IH (final (applyBETMask env rg self template t s))) as [[k Hk] Hall].
    split.
    + exists (S k). cbn [take map]. unfold mask_calls in Hk. by rewrite Hk.
    + intros Hok. unfold mask_calls in Hall. by rewrite Hall.
Qed.

Lemma last_removelast {A} (l : list A) (x : A) :
  last l = Some x -> l = removelast l ++ [x].
Proof.
  intros H. destruct (last_Some l x) as [[l' ->] _]; [done|].
  by rewrite removelast_last.
Qed.

(** C5: extractBrain takes the last configured time point as the template
    and calls applyBETMask with it once for each earlier position of the
    list, in order, and never for the last position; a failing call stops
    the loop, so in general the calls are an initial part of that list.
    When the time points are pairwise distinct, no call has the template
    as its target. *)
Theorem C5_mask_propagation_skips_template
    (env : Env) (rg : RegistrationModule) (self : Process3DFLAIR)
    (template : Z) (s : FS) :
  last (time_points_to_consider self) = Some template ->
  let others := removelast (time_points_to_consider self) in
  let r := extractBrain env rg self s in
  (exists k, mask_calls (trace r) = map (pair template) (take k others)) /\
  (outcome r = inr tt ->
   mask_calls (trace r) = map (pair template) others /\
   length (mask_calls (trace r)) = length (time_points_to_consider self) - 1) /\
  (NoDup (time_points_to_consider self) ->
   Forall (fun c => snd c <> template) (mask_calls (trace r))).
Proof.
  intros Hlast others r.
  pose proof (last_removelast _ _ Hlast) as Hsplit. fold others in Hsplit.
  assert (Hlen : length (time_points_to_consider self) - 1 = length others).
  { rewrite Hsplit at 1. rewrite length_app. simpl. lia. }
  clearbody others.
  assert (Hr : r = (outcome (for_each others (applyBETMask env rg self template) s),
                    final (for_each others (applyBETMask env rg self template) s),
                    Call M_extractBrain ::
                    trace (for_each others (applyBETMask env rg self template) s))).
  { unfold r, extractBrain. unfold bind at 1. unfold emit at 1.
    unfold index_last. rewrite Hlast. cbn [lift].
    rewrite bind_ret_l, Hlen.
    rewrite for_each_seq_index by (rewrite <- Hlen; lia).
    replace (take (length others) (time_points_to_consider self)) with others.
    2:{ by rewrite Hsplit, take_app_length. }
    by destruct (for_each others (applyBETMask env rg self template) s) as [[o s'] t']. }
  destruct (for_each_mask_calls env rg self template others s) as [Hk Hall].
  assert (Hcalls : mask_calls (trace r)
                   = mask_calls (trace (for_each others (applyBETMask env rg self template) s)))
    by (by rewrite Hr).
  assert (Hout : outcome r
                 = outcome (for_each others (applyBETMask env rg self template) s))
    by (by rewrite Hr).
  rewrite Hcalls, Hout.
  split; [exact Hk|]. split.
  - intros Hok. rewrite (Hall Hok). split; [done|].
    by rewrite length_map, Hlen.
  - intros Hnd. destruct Hk as [k ->].
    apply Forall_forall. intros c [t [<- Ht]]%list_elem_of_In%in_map_iff. simpl.
    intros ->. rewrite Hsplit in Hnd. apply NoDup_app in Hnd as (_ & Hdisj & _).
    apply (Hdisj template); [|by left].
    apply list_elem_of_In in Ht. by eapply subseteq_take.
Qed.


Lemma C9_unknown_method_is_silent_sample :
  let step := ApplyMask (registered_whole_brain_file Sample.subject_unknown "01")
                        (brain_file_mask Sample.subject_unknown "02")
                        (brain_file Sample.subject_unknown "01") in
  applyBETMask Sample.env Sample.rg Sample.subject_unknown 2 1 Sample.fs_raw
  = (fst (Sample.run step Sample.fs_raw), snd (Sample.run step Sample.fs_raw),
     [Call (M_applyBETMask 2 1); Tool step]).
Proof.
  exact (C9_unknown_method_is_silent Sample.env Sample.rg Sample.subject_unknown 2 1
           Sample.fs_raw ltac:(discriminate) ltac:(discriminate) ltac:(discriminate)).
Defined.

Lemma C4_nonlinear_needs_affine_sample :
  applyBETMask Sample.env (spec_Registration Sample.env) Sample.subject_nonlinear 2 1
    Sample.fs_raw
  = (inl MissingPrerequisite, Sample.fs_raw, [Call (M_applyBETMask 2 1)]).
Proof.
  assert (H : Sample.fs_raw !! affine_file_path Sample.subject_nonlinear (tp_zfill 1) = None)
    by (vm_compute; reflexivity).
  exact (C4_nonlinear_needs_affine Sample.env Sample.subject_nonlinear 2 1
           Sample.fs_raw eq_refl H).
Defined.

(** Small lists without repetition. *)
Ltac solve_NoDup :=
  repeat (apply NoDup_cons_2;
          [ let Hin := fresh in
            intros Hin;
            repeat (apply elem_of_cons in Hin as [Hin|Hin]; [discriminate|]);
            by apply elem_of_nil in Hin | ]);
  apply NoDup_nil_2.

(** The case of the specification: time points 1 to 5 with template 5
    give exactly the four calls for 1, 2, 3 and 4. *)
Lemma C5_mask_propagation_five_time_points :
  let r := extractBrain Sample.env Sample.rg Sample.subject5 Sample.fs_raw5 in
  mask_calls (trace r) = [(5, 1); (5, 2); (5, 3); (5, 4)]%Z /\
  length (mask_calls (trace r)) = 4 /\
  Forall (fun c => snd c <> 5%Z) (mask_calls (trace r)).
Proof.
  pose proof (C5_mask_propagation_skips_template Sample.env Sample.rg Sample.subject5 5
                Sample.fs_raw5 eq_refl) as (_ & Hok & Hnd).
  assert (Hrun : outcome (extractBrain Sample.env Sample.rg Sample.subject5
                            Sample.fs_raw5) = inr tt) by (vm_compute; reflexivity).
  destruct (Hok Hrun) as [H1 H2].
  assert (Hd : NoDup (time_points_to_consider Sample.subject5)) by solve_NoDup.
  split; [exact H1|]. split; [exact H2|].
  exact (Hnd Hd).
Defined.

(** ** The orchestrator *)

Lemma stage_calls_of_stage {A} (m : Method) (body : M A) (s : FS) :
  stage_call (Call m) = Some m ->
  trace_all (fun e => stage_call e = None) body ->
  stage_calls (trace ((emit (Call m) ;;; body) s)) = [m].
Proof.
  intros Hm Hb. rewrite trace_bind. unfold stage_calls. rewrite omap_app.
  cbn [emit trace snd outcome fst final].
  rewrite (omap_none_nil stage_call (trace (body s))) by apply Hb.
  destruct m; (discriminate Hm || reflexivity).
Qed.

Lemma stage_calls_extractBrain env rg self s :
  stage_calls (trace (extractBrain env rg self s)) = [M_extractBrain].
Proof.
  apply stage_calls_of_stage; [done|]. trace_auto.
Qed.

Lemma stage_calls_correctBiasField env self method s :
  stage_calls (trace (correctBiasField env self method s)) = [M_correctBiasField method].
Proof.
  apply stage_calls_of_stage; [done|]. trace_auto.
Qed.

Lemma stage_calls_intensityNormalisation env self b s :
  stage_calls (trace (intensityNormalisation env self b s)) = [M_intensityNormalisation b].
Proof. apply stage_calls_of_stage; [done|]. trace_auto. Qed.

Lemma stage_calls_calcVariance self out s :
  stage_calls (trace (calcVariance self out s)) = [M_calcVariance out].
Proof. apply stage_calls_of_stage; [done|]. trace_auto. Qed.

(** ** Saved volumes *)

Lemma bind_ok_inv {A B} (m : M A) (f : A -> M B) (s : FS) (b : B) :
  outcome (bind m f s) = inr b ->
  exists a, outcome (m s) = inr a /\
            outcome (f a (final (m s))) = inr b /\
            final (bind m f s) = final (f a (final (m s))) /\
            trace (bind m f s) = trace (m s) ++ trace (f a (final (m s))).
Proof.
  rewrite outcome_bind, final_bind, trace_bind.
  destruct (outcome (m s)) as [e|a]; [done|]. intros H. by exists a.
Qed.

Lemma nib_save_run (img : Nifti1Image) (p : string) (s : FS) :
  nib_save img p s = (inr tt, <[p := Nifti img]> s, [NibSave p img]).
Proof. reflexivity. Qed.

Lemma comprehension_reader {A B} (f : A -> M B) (g : FS -> A -> Exn + B)
    (l : list A) (s : FS) :
  (forall x, f x s = (g s x, s, [])) ->
  comprehension l f s = (collect (g s) l, s, []).
Proof.
  intros Hf. induction l as [|x l IH]; [done|].
  cbn [comprehension collect]. unfold bind at 1. rewrite Hf.
  destruct (g s x) as [e|y]; [done|].
  unfold bind at 1. rewrite IH. by destruct (collect (g s) l).
Qed.

Lemma nib_load_fdata_reader (p : string) (s : FS) :
  nib_load_fdata p s = (load_fdata s p, s, []).
Proof.
  unfold load_fdata, nib_load_fdata, outcome. by destruct (s !! p) as [[]|].
Qed.

(** calcVariance as a function of the file system: it reads the normalised
    volumes, computes, and writes once at the end. *)
Lemma calcVariance_run (self : Process3DFLAIR) (out_file : string) (s : FS) :
  calcVariance self out_file s =
  match collect (load_fdata s) (variance_inputs self) with
  | inl e => (inl e, s, [Call (M_calcVariance out_file)])
  | inr images =>
      match index images 0 with
      | inl e => (inl e, s, [Call (M_calcVariance out_file)])
      | inr first =>
          match variance_loop images (length (time_points_to_consider self))
                  (np.zeros (shape first)) with
          | inl e => (inl e, s, [Call (M_calcVariance out_file)])
          | inr variances =>
              (inr tt, <[out_file := Nifti (mk_nifti variances eye4)]> s,
               [Call (M_calcVariance out_file);
                NibSave out_file (mk_nifti variances eye4)])
          end
      end
  end.
Proof.
  unfold calcVariance. unfold bind at 1, emit at 1.
  unfold bind at 1. rewrite comprehension_seq_index.
  unfold bind at 1.
  rewrite (comprehension_reader nib_load_fdata load_fdata)
    by (intros; apply nib_load_fdata_reader).
  fold (variance_inputs self).
  destruct (collect (load_fdata s) (variance_inputs self)) as [e|images]; [done|].
  unfold bind at 1. destruct (index images 0) as [e|first]; [done|].
  cbn [lift]. unfold ret at 1. unfold bind at 1.
  destruct (variance_loop images _ _) as [e|variances]; [done|].
  cbn [lift]. unfold ret at 1. by rewrite nib_save_run.
Qed.

(** ** Reruns *)

Lemma ecount_app (p : Event -> bool) (l1 l2 : list Event) :
  ecount p (l1 ++ l2) = ecount p l1 + ecount p l2.
Proof. unfold ecount. by rewrite List.filter_app, length_app. Qed.

Lemma ecount_bind_l {A B} (p : Event -> bool) (m : M A) (f : A -> M B) (s : FS) :
  ecount p (trace (m s)) <= ecount p (trace (bind m f s)).
Proof. rewrite trace_bind, ecount_app. lia. Qed.

Lemma ecount_bind_r {A B} (p : Event -> bool) (m : M A) (f : A -> M B) (s : FS) (a : A) :
  outcome (m s) = inr a ->
  ecount p (trace (f a (final (m s)))) <= ecount p (trace (bind m f s)).
Proof. intros H. rewrite trace_bind, ecount_app, H. lia. Qed.

(** A loop that runs to its end has run its body once per element. *)
Lemma for_each_ecount {A} (p : Event -> bool) (body : A -> M unit) (l : list A) :
  (forall x s, outcome (body x s) = inr tt -> 1 <= ecount p (trace (body x s))) ->
  forall s, outcome (for_each l body s) = inr tt ->
            length l <= ecount p (trace (for_each l body s)).
Proof.
  intros Hbody. induction l as [|x l IH]; intros s Hok; [simpl; lia|].
  cbn [for_each] in *.
  apply bind_ok_inv in Hok as ([] & Hx & Hl & _ & ->).
  rewrite ecount_app. specialize (Hbody x s Hx). specialize (IH _ Hl).
  simpl. lia.
Qed.

Lemma trace_run_tool env t s : trace (run_tool env t s) = [Tool t].
Proof.
  unfold run_tool. rewrite trace_bind. cbn [emit trace snd outcome fst final].
  by destruct (fsl_run env t s).
Qed.

Lemma applyBETMask_runs_ApplyMask env rg self a b s :
  outcome (applyBETMask env rg self a b s) = inr tt ->
  1 <= ecount is_ApplyMask_run (trace (applyBETMask env rg self a b s)).
Proof.
  unfold applyBETMask. intros H.
  apply bind_ok_inv in H as ([] & H0 & H & _ & ->). rewrite ecount_app.
  apply bind_ok_inv in H as ([] & H1 & H & _ & ->). rewrite ecount_app.
  apply bind_ok_inv in H as ([] & H2 & H & _ & ->). rewrite ecount_app.
  apply bind_ok_inv in H as ([] & H3 & H & _ & ->). rewrite ecount_app.
  rewrite trace_run_tool. cbn [ecount List.filter is_ApplyMask_run length]. lia.
Qed.

Lemma extractBrain_runs_ApplyMask env rg self s :
  outcome (extractBrain env rg self s) = inr tt ->
  length (time_points_to_consider self) - 1
  <= ecount is_ApplyMask_run (trace (extractBrain env rg self s)).
Proof.
  unfold extractBrain. intros H.
  apply bind_ok_inv in H as ([] & H0 & H & _ & ->). rewrite ecount_app.
  apply bind_ok_inv in H as (template & H1 & H & _ & ->). rewrite ecount_app.
  rewrite for_each_seq_index in * by lia.
  apply (for_each_ecount is_ApplyMask_run) in H.
  - rewrite length_take in H. lia.
  - intros x s'. apply applyBETMask_runs_ApplyMask.
Qed.

Lemma correctBiasField_runs_FAST env self s :
  outcome (correctBiasField env self "FSL" s) = inr tt ->
  length (time_points_to_consider self)
  <= ecount is_FAST_run (trace (correctBiasField env self "FSL" s)).
Proof.
  unfold correctBiasField. change (String.eqb "FSL" "FSL") with true. cbv iota.
  intros H.
  apply bind_ok_inv in H as ([] & H0 & H & _ & ->). rewrite ecount_app.
  apply bind_ok_inv in H as ([] & H1 & H & _ & ->). rewrite ecount_app.
  rewrite for_each_seq_index in * by lia.
  apply (for_each_ecount is_FAST_run) in H1.
  - rewrite length_take in H1. lia.
  - intros x s' _. by rewrite trace_run_tool.
Qed.

Lemma intensityNormalisation_runs_Reorient2Std env self b s :
  outcome (intensityNormalisation env self b s) = inr tt ->
  length (time_points_to_consider self)
  <= ecount is_Reorient2Std_run (trace (intensityNormalisation env self b s)).
Proof.
  unfold intensityNormalisation. intros H.
  apply bind_ok_inv in H as ([] & _ & H & _ & ->). rewrite ecount_app.
  apply bind_ok_inv in H as (paths & _ & H & _ & ->). rewrite ecount_app.
  apply bind_ok_inv in H as (images & _ & H & _ & ->). rewrite ecount_app.
  apply bind_ok_inv in H as (standard & _ & H & _ & ->). rewrite ecount_app.
  apply bind_ok_inv in H as (normalized & _ & H & _ & ->). rewrite ecount_app.
  apply bind_ok_inv in H as ([] & _ & H & _ & ->). rewrite ecount_app.
  apply bind_ok_inv in H as ([] & _ & H & _ & ->). rewrite ecount_app.
  rewrite for_each_seq_index in * by lia.
  apply (for_each_ecount is_Reorient2Std_run) in H.
  - rewrite length_take in H. lia.
  - intros x s' _. by rewrite trace_run_tool.
Qed.

(** C1, as the code has it: no stage of runVariancePipeline tests whether
    its target exists.  A run that returns has run ApplyMask for every time
    point but the template, FAST for every time point and Reorient2Std for
    every time point, whatever the file system held before; with at least
    one time point that is never zero runs. *)
Theorem C1_every_run_invokes_the_tools
    (env : Env) (rg : RegistrationModule) (self : Process3DFLAIR)
    (out_file : string) (s : FS) :
  let r := runVariancePipeline env rg self out_file s in
  let n := length (time_points_to_consider self) in
  outcome r = inr tt ->
  n - 1 <= ecount is_ApplyMask_run (trace r) /\
  n <= ecount is_FAST_run (trace r) /\
  n <= ecount is_Reorient2Std_run (trace r) /\
  0 < length (tool_runs (trace r)).
Proof.
  cbn zeta. unfold runVariancePipeline. intros H.
  apply bind_ok_inv in H as ([] & HE & H & _ & ->).
  apply bind_ok_inv in H as ([] & HB & H & _ & ->).
  apply bind_ok_inv in H as ([] & HN & H & _ & ->).
  rewrite !ecount_app.
  pose proof (extractBrain_runs_ApplyMask _ _ _ _ HE) as H1.
  pose proof (correctBiasField_runs_FAST _ _ _ HB) as H2.
  pose proof (intensityNormalisation_runs_Reorient2Std _ _ _ _ HN) as H3.
  assert (Hn : 0 < length (time_points_to_consider self)).
  { unfold extractBrain in HE. rewrite outcome_bind in HE.
    cbn [emit outcome fst final snd] in HE. rewrite outcome_bind in HE.
    unfold index_last in HE.
    destruct (time_points_to_consider self); [discriminate HE | simpl; lia]. }
  repeat split; [lia | lia | lia |].
  set (tB := trace (correctBiasField env self "FSL" _)) in *.
  assert (Hle : ecount is_FAST_run tB <= length (tool_runs tB)).
  { clear. unfold ecount. induction tB as [|e tB IH]; [simpl; lia|].
    destruct e as [m|[]|p i]; simpl in *; lia. }
  unfold tool_runs in *. rewrite !omap_app, !length_app. lia.
Qed.

(** C1 fails on a rerun: after a first run of the sample subject every
    artifact of every stage is present, and a second run still returns
    after six runs of external programs. *)
Lemma C1_second_run_invokes_tools :
  let s1 := final (runVariancePipeline Sample.env Sample.rg Sample.subject
                     Sample.out_file Sample.fs_raw) in
  let r2 := runVariancePipeline Sample.env Sample.rg Sample.subject Sample.out_file s1 in
  all_artifacts_present Sample.subject Sample.out_file s1 = true /\
  outcome r2 = inr tt /\
  length (tool_runs (trace r2)) = 6 /\
  length (tool_runs (trace r2)) <> 0.
Proof. vm_compute. repeat split; discriminate. Qed.

Lemma C1_every_run_invokes_the_tools_sample :
  let s1 := final (runVariancePipeline Sample.env Sample.rg Sample.subject
                     Sample.out_file Sample.fs_raw) in
  let r2 := runVariancePipeline Sample.env Sample.rg Sample.subject Sample.out_file s1 in
  1 <= ecount is_ApplyMask_run (trace r2) /\
  2 <= ecount is_FAST_run (trace r2) /\
  2 <= ecount is_Reorient2Std_run (trace r2) /\
  0 < length (tool_runs (trace r2)).
Proof.
  intros s1 r2.
  assert (Hrun : outcome r2 = inr tt) by (vm_compute; reflexivity).
  exact (C1_every_run_invokes_the_tools Sample.env Sample.rg Sample.subject
           Sample.out_file s1 Hrun).
Defined.

(** ** The voxel loop *)

Lemma fold_loop_ext {A S} (l : list A) (f g : A -> S -> Exn + S) (s : S) :
  (forall x s', f x s' = g x s') -> fold_loop l f s = fold_loop l g s.
Proof.
  intros H. revert s. induction l as [|x l IH]; intros s; [done|].
  cbn [fold_loop]. rewrite H. destruct (g x s); [done|apply IH].
Qed.

Lemma fold_loop_app {A S} (l1 l2 : list A) (f : A -> S -> Exn + S) (s : S) :
  fold_loop (l1 ++ l2) f s =
  match fold_loop l1 f s with
  | inl e => inl e
  | inr s' => fold_loop l2 f s'
  end.
Proof.
  revert s. induction l1 as [|x l1 IH]; intros s; [done|].
  cbn [fold_loop app]. destruct (f x s); [done|apply IH].
Qed.

Lemma fold_loop_map {A B S} (h : A -> B) (l : list A) (f : B -> S -> Exn + S) (s : S) :
  fold_loop (map h l) f s = fold_loop l (fun x => f (h x)) s.
Proof.
  revert s. induction l as [|x l IH]; intros s; [done|].
  cbn [fold_loop map]. destruct (f (h x) s); [done|apply IH].
Qed.

(** A loop nested in a loop is one loop over the pairs. *)
Lemma fold_loop_flat_map {A B S} (g : A -> list B) (l : list A)
    (f : B -> S -> Exn + S) (s : S) :
  fold_loop l (fun x s' => fold_loop (g x) f s') s = fold_loop (flat_map g l) f s.
Proof.
  revert s. induction l as [|x l IH]; intros s; [done|].
  cbn [fold_loop flat_map]. rewrite fold_loop_app.
  destruct (fold_loop (g x) f s); [done|apply IH].
Qed.

Lemma variance_loop_flat (images : list ndarray) (ntp : nat) (v : ndarray) :
  variance_loop images ntp v
  = fold_loop (voxels (shape v)) (variance_step images ntp) v.
Proof.
  unfold variance_loop, voxels. destruct (shape v) as [[nx ny] nz].
  rewrite <- fold_loop_flat_map. apply fold_loop_ext. intros i v1.
  rewrite <- fold_loop_flat_map. apply fold_loop_ext. intros j v2.
  by rewrite fold_loop_map.
Qed.

(** *** The order of the loops is the order of the elements *)

Lemma seq_blocks (m n b : nat) :
  flat_map (fun j => seq (b + j * m) m) (seq 0 n) = seq b (n * m).
Proof.
  induction n as [|n IH]; [done|].
  rewrite seq_S, flat_map_app, IH. cbn [flat_map]. rewrite app_nil_r.
  replace (S n * m) with (n * m + m) by lia.
  rewrite seq_app. do 2 f_equal.
Qed.

Lemma map_flat_map {A B C} (h : B -> C) (g : A -> list B) (l : list A) :
  map h (flat_map g l) = flat_map (fun x => map h (g x)) l.
Proof.
  induction l as [|x l IH]; [done|].
  cbn [flat_map]. by rewrite map_app, IH.
Qed.

Lemma map_add_seq (b a n : nat) :
  map (fun k => b + k) (seq a n) = seq (b + a) n.
Proof.
  revert a. induction n as [|n IH]; intros a; [done|].
  cbn [seq map]. f_equal. rewrite IH. f_equal. lia.
Qed.

Lemma offsets_of_voxels (shp : nat * nat * nat) :
  map (fun '(i, j, k) => np.offset shp i j k) (voxels shp) = seq 0 (np.size shp).
Proof.
  destruct shp as [[nx ny] nz]. unfold voxels, np.size, np.offset.
  rewrite map_flat_map.
  rewrite (flat_map_ext _ (fun i => seq (0 + i * (ny * nz)) (ny * nz))).
  { rewrite seq_blocks. f_equal. lia. }
  intros i. rewrite map_flat_map.
  rewrite (flat_map_ext _ (fun j => seq (i * (ny * nz) + j * nz) nz)).
  { by rewrite seq_blocks. }
  intros j. rewrite map_map.
  replace (i * (ny * nz) + j * nz) with ((i * ny + j) * nz + 0) by lia.
  by rewrite <- map_add_seq.
Qed.

Lemma length_voxels (shp : nat * nat * nat) : length (voxels shp) = np.size shp.
Proof.
  pose proof (f_equal (@length nat) (offsets_of_voxels shp)) as H.
  by rewrite length_map, length_seq in H.
Qed.

Lemma voxels_in_bounds (shp : nat * nat * nat) (i j k : nat) :
  In (i, j, k) (voxels shp) <-> np.in_bounds shp i j k = true.
Proof.
  destruct shp as [[nx ny] nz]. unfold voxels, np.in_bounds.
  rewrite in_flat_map. setoid_rewrite in_flat_map. setoid_rewrite in_map_iff.
  setoid_rewrite in_seq. rewrite !andb_true_iff, !Nat.ltb_lt. split.
  - intros (i' & Hi & j' & Hj & k' & Heq & Hk). inversion Heq; subst. lia.
  - intros [[Hi Hj] Hk]. exists i. split; [lia|]. exists j. split; [lia|].
    exists k. split; [done|lia].
Qed.

(** *** Reading one voxel across the time points *)

Lemma getitem_spec (a : ndarray) (i j k : nat) :
  np.getitem a i j k
  = if np.in_bounds (shape a) i j k then inr (voxel a i j k) else inl IndexError.
Proof. reflexivity. Qed.

Lemma voxel_intensities_gen (i j k : nat) (l : list ndarray) :
  forall pre : list ndarray,
    fold_loop (seq (length pre) (length l))
      (fun n vi =>
         match index (pre ++ l) n with
         | inl e => inl e
         | inr img =>
             match np.getitem img i j k with
             | inl e => inl e
             | inr x => inr (<[n := x]> vi)
             end
         end)
      (intensities pre i j k ++ replicate (length l) 0%Q)
    = if forallb (fun img => np.in_bounds (shape img) i j k) l
      then inr (intensities (pre ++ l) i j k)
      else inl IndexError.
Proof.
  induction l as [|x l IH]; intros pre.
  { cbn. by rewrite !app_nil_r. }
  cbn [length seq fold_loop forallb replicate]. rewrite index_app_r, getitem_spec.
  destruct (np.in_bounds (shape x) i j k); [|done]. cbn [andb].
  specialize (IH (pre ++ [x])).
  rewrite length_app, Nat.add_1_r, <- app_assoc in IH. cbn [app] in IH.
  replace (<[length pre := voxel x i j k]>
             (intensities pre i j k ++ 0%Q :: replicate (length l) 0%Q))
    with (intensities (pre ++ [x]) i j k ++ replicate (length l) 0%Q).
  { exact IH. }
  unfold intensities. rewrite map_app, <- app_assoc. cbn [map app].
  rewrite insert_app_r_alt by (rewrite length_map; lia).
  rewrite length_map, Nat.sub_diag. done.
Qed.

(** The inner loop gathers the intensities of the voxel from every volume,
    and raises IndexError as soon as one volume does not have the voxel. *)
Lemma voxel_intensities_spec (images : list ndarray) (i j k : nat) :
  voxel_intensities images (length images) i j k
  = if forallb (fun img => np.in_bounds (shape img) i j k) images
    then inr (intensities images i j k)
    else inl IndexError.
Proof. apply (voxel_intensities_gen i j k images []). Qed.

Lemma variance_step_spec (images : list ndarray) (idx : nat * nat * nat) (v : ndarray) :
  variance_step images (length images) idx v
  = match voxel_variance images idx with
    | inl e => inl e
    | inr x => let '(i, j, k) := idx in np.setitem v i j k x
    end.
Proof.
  destruct idx as [[i j] k]. unfold variance_step, voxel_variance.
  rewrite voxel_intensities_spec. by destruct (forallb _ images).
Qed.

(** *** Filling an array in element order *)

Lemma setitem_spec (shp : nat * nat * nat) (fl : list Q) (i j k : nat) (x : Q) :
  np.setitem (mk_ndarray shp fl) i j k x
  = if np.in_bounds shp i j k
    then inr (mk_ndarray shp (<[np.offset shp i j k := x]> fl))
    else inl IndexError.
Proof. reflexivity. Qed.

Lemma fill_loop (f : nat * nat * nat -> Exn + Q) (shp : nat * nat * nat)
    (idxs : list (nat * nat * nat)) :
  forall done rest : list Q,
    map (fun '(i, j, k) => np.offset shp i j k) idxs = seq (length done) (length idxs) ->
    length rest = length idxs ->
    Forall (fun '(i, j, k) => np.in_bounds shp i j k = true) idxs ->
    fold_loop idxs
      (fun idx v =>
         match f idx with
         | inl e => inl e
         | inr x => let '(i, j, k) := idx in np.setitem v i j k x
         end)
      (mk_ndarray shp (done ++ rest))
    = match collect f idxs with
      | inl e => inl e
      | inr xs => inr (mk_ndarray shp (done ++ xs))
      end.
Proof.
  induction idxs as [|[[i j] k] idxs IH]; intros done rest Hoff Hlen Hin.
  { destruct rest; [done|discriminate]. }
  destruct rest as [|r rest]; [discriminate|].
  cbn [map length seq] in Hoff. injection Hoff as Ho Hoff.
  apply Forall_cons in Hin as [Hb Hin].
  cbn [fold_loop collect]. destruct (f (i, j, k)) as [e|x]; [done|].
  rewrite setitem_spec, Hb, Ho.
  rewrite insert_app_r_alt by lia. rewrite Nat.sub_diag.
  change (<[0 := x]> (r :: rest)) with (x :: rest).
  specialize (IH (done ++ [x]) rest).
  rewrite length_app, Nat.add_1_r, <- app_assoc in IH. cbn [app] in IH.
  rewrite IH; [|done|simpl in Hlen; lia|done].
  destruct (collect f idxs) as [e|xs]; [done|].
  by rewrite <- app_assoc.
Qed.

(** The voxel loop, started on [np.zeros(shp)] with one volume per time
    point, computes the variance of every voxel in element order; it raises
    at the first voxel that some volume lacks. *)
Lemma variance_loop_spec (images : list ndarray) (shp : nat * nat * nat) :
  variance_loop images (length images) (np.zeros shp)
  = match collect (voxel_variance images) (voxels shp) with
    | inl e => inl e
    | inr xs => inr (mk_ndarray shp xs)
    end.
Proof.
  rewrite variance_loop_flat. cbn [np.zeros shape].
  rewrite (fold_loop_ext _ _ _ _ (variance_step_spec images)).
  apply (fill_loop (voxel_variance images) shp (voxels shp) []).
  - rewrite length_voxels. apply offsets_of_voxels.
  - by rewrite length_replicate, length_voxels.
  - apply Forall_forall. intros [[i j] k] Hin%list_elem_of_In.
    by apply voxels_in_bounds.
Qed.

(** *** Results of a comprehension *)

Lemma collect_ok_iff {A B} (f : A -> Exn + B) (l : list A) (ys : list B) :
  collect f l = inr ys <-> Forall2 (fun x y => f x = inr y) l ys.
Proof.
  revert ys. induction l as [|x l IH]; intros ys; cbn [collect].
  - split; [intros [= <-]; constructor | by intros ->%Forall2_nil_inv_l].
  - destruct (f x) as [e|y] eqn:Hx.
    + split; [done|]. intros (y & ys' & Hy & _ & _)%Forall2_cons_inv_l. congruence.
    + destruct (collect f l) as [e|ys'] eqn:Hl.
      * split; [done|]. intros (y' & ys' & _ & Hys & _)%Forall2_cons_inv_l.
        apply IH in Hys. congruence.
      * split.
        -- intros [= <-]. constructor; [done|]. by apply IH.
        -- intros (y' & ys'' & Hy & Hys & ->)%Forall2_cons_inv_l.
           apply IH in Hys. congruence.
Qed.

Lemma collect_error {A B} (f : A -> Exn + B) (l : list A) (e : Exn) :
  collect f l = inl e -> exists x, x ∈ l /\ f x = inl e.
Proof.
  induction l as [|x l IH]; cbn [collect]; [done|].
  destruct (f x) as [e'|y] eqn:Hx.
  - intros [= ->]. exists x. split; [left|done].
  - destruct (collect f l) as [e'|ys]; [|done].
    intros [= ->]. destruct IH as (x' & Hin & Hx'); [done|].
    exists x'. split; [by right|done].
Qed.

Lemma collect_total {A B} (f : A -> Exn + B) (l : list A) :
  (forall x, x ∈ l -> exists y, f x = inr y) -> exists ys, collect f l = inr ys.
Proof.
  induction l as [|x l IH]; intros H; [by exists []|].
  cbn [collect]. destruct (H x) as [y ->]; [left|].
  destruct IH as [ys ->]; [intros x' Hx'; apply H; by right|]. by exists (y :: ys).
Qed.

Lemma holds_volumes_load (s : FS) (paths : list string) (images : list ndarray) :
  holds_volumes s paths images -> collect (load_fdata s) paths = inr images.
Proof.
  intros H. apply collect_ok_iff. eapply Forall2_impl; [exact H|].
  intros p img [aff Hp]. unfold load_fdata, nib_load_fdata, outcome.
  by rewrite Hp.
Qed.

(** *** Addressing *)

Lemma offset_lt_size (shp : nat * nat * nat) (i j k : nat) :
  np.in_bounds shp i j k = true -> np.offset shp i j k < np.size shp.
Proof.
  destruct shp as [[nx ny] nz]. unfold np.in_bounds, np.offset, np.size.
  rewrite !andb_true_iff, !Nat.ltb_lt. intros [[Hi Hj] Hk].
  assert (H1 : S i * ny <= nx * ny) by (apply Nat.mul_le_mono_r; lia).
  assert (H2 : S (i * ny + j) * nz <= nx * ny * nz) by (apply Nat.mul_le_mono_r; lia).
  lia.
Qed.

Lemma offset_inj (shp : nat * nat * nat) (i j k i' j' k' : nat) :
  np.in_bounds shp i j k = true -> np.in_bounds shp i' j' k' = true ->
  np.offset shp i j k = np.offset shp i' j' k' -> (i, j, k) = (i', j', k').
Proof.
  destruct shp as [[nx ny] nz]. unfold np.in_bounds, np.offset.
  rewrite !andb_true_iff, !Nat.ltb_lt. intros [[Hi Hj] Hk] [[Hi' Hj'] Hk'] Heq.
  assert (Hmix : forall m a b a' b', b < m -> b' < m ->
                   a * m + b = a' * m + b' -> a = a' /\ b = b').
  { clear. intros m a b a' b' Hb Hb' H.
    destruct (Nat.lt_trichotomy a a') as [Hlt|[->|Hlt]]; [|lia|].
    - pose proof (Nat.mul_le_mono_r (S a) a' m ltac:(lia)). lia.
    - pose proof (Nat.mul_le_mono_r (S a') a m ltac:(lia)). lia. }
  destruct (Hmix _ _ _ _ _ Hk Hk' Heq) as [Hrow ->].
  destruct (Hmix _ _ _ _ _ Hj Hj' Hrow) as [-> ->].
  done.
Qed.

(** The voxel met at step [offset(i, j, k)] of the loops is [(i, j, k)]. *)
Lemma voxels_lookup (shp : nat * nat * nat) (i j k : nat) :
  np.in_bounds shp i j k = true ->
  voxels shp !! np.offset shp i j k = Some (i, j, k).
Proof.
  intros Hb. pose proof (offset_lt_size _ _ _ _ Hb) as Hlt.
  destruct (voxels shp !! np.offset shp i j k) as [[[i' j'] k']|] eqn:Hl.
  2:{ apply lookup_ge_None in Hl. rewrite length_voxels in Hl. lia. }
  f_equal. symmetry. apply (offset_inj shp); [done| |].
  - apply voxels_in_bounds, list_elem_of_In. by eapply list_elem_of_lookup_2.
  - pose proof (offsets_of_voxels shp) as Hoff.
    apply (f_equal (fun l => l !! np.offset shp i j k)) in Hoff.
    change (map ?f ?l) with (f <$> l) in Hoff.
    rewrite list_lookup_fmap, Hl, lookup_seq_lt in Hoff by done.
    simpl in Hoff. congruence.
Qed.

(** ** The variance map *)

Lemma sum_foldl (l : list Q) (a : Q) :
  (foldl Qplus a l == a + fold_right Qplus 0 l)%Q.
Proof.
  revert a. induction l as [|x l IH]; intros a; cbn [foldl fold_right].
  - ring.
  - rewrite IH. ring.
Qed.

Lemma np_mean_arithmetic_mean (l : list Q) : (np.mean l == arithmetic_mean l)%Q.
Proof.
  unfold np.mean, arithmetic_mean, np.sum. rewrite sum_foldl. by rewrite Qplus_0_l.
Qed.

Lemma fold_right_Qplus_ext (f g : Q -> Q) (l : list Q) :
  (forall x, (f x == g x)%Q) ->
  (fold_right Qplus 0 (map f l) == fold_right Qplus 0 (map g l))%Q.
Proof.
  intros H. induction l as [|x l IH]; cbn [map fold_right]; [reflexivity|].
  by rewrite H, IH.
Qed.

Lemma arithmetic_mean_ext (f g : Q -> Q) (l : list Q) :
  (forall x, (f x == g x)%Q) ->
  (arithmetic_mean (map f l) == arithmetic_mean (map g l))%Q.
Proof.
  intros H. unfold arithmetic_mean. rewrite !length_map.
  apply Qdiv_comp; [|reflexivity]. by apply fold_right_Qplus_ext.
Qed.

(** [np.var] is the population variance. *)
Lemma np_var_population_variance (l : list Q) :
  (np.var l == population_variance l)%Q.
Proof.
  unfold np.var, population_variance. rewrite np_mean_arithmetic_mean.
  apply arithmetic_mean_ext. intros x. rewrite np_mean_arithmetic_mean.
  simpl. ring.
Qed.

Lemma calcVariance_on_volumes (self : Process3DFLAIR) (out_file : string) (s : FS)
    (images : list ndarray) (first : ndarray) :
  holds_volumes s (variance_inputs self) images ->
  images !! 0 = Some first ->
  calcVariance self out_file s =
  match collect (voxel_variance images) (voxels (shape first)) with
  | inl e => (inl e, s, [Call (M_calcVariance out_file)])
  | inr xs =>
      (inr tt, <[out_file := Nifti (mk_nifti (mk_ndarray (shape first) xs) eye4)]> s,
       [Call (M_calcVariance out_file);
        NibSave out_file (mk_nifti (mk_ndarray (shape first) xs) eye4)])
  end.
Proof.
  intros Hvol Hfirst. rewrite calcVariance_run.
  rewrite (holds_volumes_load _ _ _ Hvol). unfold index. rewrite Hfirst.
  assert (Hlen : length (time_points_to_consider self) = length images).
  { apply Forall2_length in Hvol. unfold variance_inputs in Hvol.
    by rewrite length_map in Hvol. }
  rewrite Hlen, variance_loop_spec.
  by destruct (collect (voxel_variance images) (voxels (shape first))).
Qed.

Lemma voxel_variance_covered (images : list ndarray) (shp : nat * nat * nat)
    (i j k : nat) :
  forallb (fun img => covers (shape img) shp) images = true ->
  np.in_bounds shp i j k = true ->
  voxel_variance images (i, j, k) = inr (np.var (intensities images i j k)).
Proof.
  intros Hcov Hb. unfold voxel_variance.
  replace (forallb _ images) with true; [done|].
  symmetry. apply forallb_forall. intros img Himg.
  rewrite forallb_forall in Hcov. specialize (Hcov img Himg).
  destruct shp as [[nx ny] nz], (shape img) as [[a b] c].
  unfold covers in Hcov. unfold np.in_bounds in *.
  rewrite !andb_true_iff, !Nat.ltb_lt in *. rewrite !Nat.leb_le in Hcov. lia.
Qed.

Lemma covers_refl (shp : nat * nat * nat) : covers shp shp = true.
Proof.
  destruct shp as [[nx ny] nz]. unfold covers.
  rewrite !andb_true_iff, !Nat.leb_le. lia.
Qed.

Lemma calcVariance_same_shape
    (self : Process3DFLAIR) (out_file : string) (s : FS)
    (images : list ndarray) (shp : nat * nat * nat) :
  time_points_to_consider self <> [] ->
  holds_volumes s (variance_inputs self) images ->
  Forall (fun img => shape img = shp) images ->
  exists variances,
    calcVariance self out_file s
    = (inr tt, <[out_file := Nifti (mk_nifti variances eye4)]> s,
       [Call (M_calcVariance out_file); NibSave out_file (mk_nifti variances eye4)]) /\
    shape variances = shp /\
    length (flat variances) = np.size shp /\
    forall i j k,
      np.in_bounds shp i j k = true ->
      np.getitem variances i j k = inr (np.var (intensities images i j k)) /\
      (np.var (intensities images i j k)
       == population_variance (intensities images i j k))%Q.
Proof.
  intros Hne Hvol Hshape.
  destruct images as [|first rest] eqn:Himg.
  { apply Forall2_length in Hvol. unfold variance_inputs in Hvol.
    rewrite length_map in Hvol. destruct (time_points_to_consider self); done. }
  rewrite <- Himg in *.
  assert (Hfirst : images !! 0 = Some first) by (by rewrite Himg).
  assert (Hs0 : shape first = shp).
  { rewrite Forall_forall in Hshape. apply Hshape. rewrite Himg. left. }
  assert (Hcov : forallb (fun img => covers (shape img) shp) images = true).
  { apply forallb_forall. intros img Hin%list_elem_of_In.
    rewrite Forall_forall in Hshape. rewrite (Hshape img Hin). apply covers_refl. }
  rewrite (calcVariance_on_volumes self out_file s images first Hvol Hfirst), Hs0.
  destruct (collect_total (voxel_variance images) (voxels shp)) as [xs Hxs].
  { intros [[i j] k] Hin%list_elem_of_In. apply voxels_in_bounds in Hin.
    eexists. by apply (voxel_variance_covered images shp). }
  rewrite Hxs. exists (mk_ndarray shp xs). cbn [shape flat].
  apply collect_ok_iff in Hxs.
  split; [done|]. split; [done|]. split.
  { apply Forall2_length in Hxs. by rewrite <- Hxs, length_voxels. }
  intros i j k Hb. split; [|apply np_var_population_variance].
  rewrite getitem_spec. cbn [shape]. rewrite Hb. unfold voxel. cbn [shape flat].
  destruct (Forall2_lookup_l _ _ _ _ _ Hxs (voxels_lookup shp i j k Hb)) as (y & Hy & Hf).
  rewrite Hy.
  rewrite (voxel_variance_covered images shp i j k Hcov Hb) in Hf.
  injection Hf as ->. reflexivity.
Qed.

(** C2: when the normalised volumes of the configured time points (at least
    one) all have the voxel grid [shp], calcVariance returns and writes one
    volume of shape [shp], with one element per voxel, whose value at every
    coordinate is [np.var] of that voxel's intensities across the time
    points, which is their population variance. *)
Theorem C2_variance_map
    (self : Process3DFLAIR) (out_file : string) (s : FS)
    (images : list ndarray) (shp : nat * nat * nat) :
  time_points_to_consider self <> [] ->
  holds_volumes s (variance_inputs self) images ->
  Forall (fun img => shape img = shp) images ->
  exists variances,
    calcVariance self out_file s
    = (inr tt, <[out_file := Nifti (mk_nifti variances eye4)]> s,
       [Call (M_calcVariance out_file); NibSave out_file (mk_nifti variances eye4)]) /\
    shape variances = shp /\
    length (flat variances) = np.size shp /\
    forall i j k,
      np.in_bounds shp i j k = true ->
      np.getitem variances i j k = inr (np.var (intensities images i j k)) /\
      (np.var (intensities images i j k)
       == population_variance (intensities images i j k))%Q.
Proof. apply calcVariance_same_shape. Qed.

Lemma voxel_uniform (shp : nat * nat * nat) (x : Q) (i j k : nat) :
  np.in_bounds shp i j k = true -> voxel (Sample.uniform shp x) i j k = x.
Proof.
  intros Hb. unfold voxel, Sample.uniform. cbn [shape flat].
  by rewrite lookup_replicate_2 by by apply offset_lt_size.
Qed.

(** The case of the specification, for a grid of any shape: two time points
    with the uniform intensities 10 and 20 give the variance 25 at every
    voxel. *)
Lemma variance_of_10_and_20 (self : Process3DFLAIR) (out_file : string) (s : FS)
    (shp : nat * nat * nat) :
  length (time_points_to_consider self) = 2 ->
  holds_volumes s (variance_inputs self)
    [Sample.uniform shp 10; Sample.uniform shp 20] ->
  exists variances,
    final (calcVariance self out_file s) !! out_file
    = Some (Nifti (mk_nifti variances eye4)) /\
    shape variances = shp /\
    forall i j k,
      np.in_bounds shp i j k = true ->
      exists x, np.getitem variances i j k = inr x /\ (x == 25)%Q.
Proof.
  intros Hlen Hvol.
  assert (Hne : time_points_to_consider self <> [])
    by (intros Hnil; by rewrite Hnil in Hlen).
  destruct (calcVariance_same_shape self out_file s _ shp Hne Hvol
              ltac:(by repeat constructor))
    as (v & Hrun & Hshape & _ & Hvox).
  exists v. rewrite Hrun. cbn [final fst snd]. rewrite lookup_insert_eq.
  split; [done|]. split; [done|].
  intros i j k Hb. destruct (Hvox i j k Hb) as [Hget _].
  eexists. split; [exact Hget|].
  unfold intensities. cbn [map]. rewrite !voxel_uniform by done.
  reflexivity.
Qed.

Lemma C2_variance_map_10_and_20 :
  exists variances,
    final (calcVariance Sample.subject Sample.out_file Sample.fs_normalised)
      !! Sample.out_file
    = Some (Nifti (mk_nifti variances eye4)) /\
    shape variances = (2, 2, 1) /\
    length (flat variances) = 4 /\
    (forall i j k, np.in_bounds (2, 2, 1) i j k = true ->
                   exists x, np.getitem variances i j k = inr x /\ (x == 25)%Q).
Proof.
  assert (Hvol : holds_volumes Sample.fs_normalised (variance_inputs Sample.subject)
                   [Sample.uniform (2, 2, 1) 10; Sample.uniform (2, 2, 1) 20]).
  { repeat constructor; exists Sample.scanner_affine; vm_compute; reflexivity. }
  destruct (C2_variance_map Sample.subject Sample.out_file Sample.fs_normalised _
              (2, 2, 1) ltac:(discriminate) Hvol ltac:(by repeat constructor))
    as (v & Hrun & Hshape & Hlen & Hvox).
  exists v. rewrite Hrun. cbn [final fst snd]. rewrite lookup_insert_eq.
  split; [done|]. split; [done|]. split; [done|].
  intros i j k Hb. destruct (Hvox i j k Hb) as [Hget _].
  eexists. split; [exact Hget|].
  unfold intensities. cbn [map]. rewrite !voxel_uniform by done.
  reflexivity.
Defined.

(** ** Volumes of differing shapes *)

Lemma voxel_variance_error (images : list ndarray) (idx : nat * nat * nat) (e : Exn) :
  voxel_variance images idx = inl e -> e = IndexError.
Proof.
  destruct idx as [[i j] k]. unfold voxel_variance.
  destruct (forallb _ images); congruence.
Qed.

Lemma collect_voxel_variance_error (images : list ndarray)
    (idxs : list (nat * nat * nat)) (e : Exn) :
  collect (voxel_variance images) idxs = inl e -> e = IndexError.
Proof.
  intros (idx & _ & H)%collect_error. by eapply voxel_variance_error.
Qed.

(** The last voxel of a non-empty grid is read only from volumes that cover
    the grid. *)
Lemma last_voxel_covers (images : list ndarray) (shp : nat * nat * nat) (xs : list Q) :
  0 < np.size shp ->
  collect (voxel_variance images) (voxels shp) = inr xs ->
  forallb (fun img => covers (shape img) shp) images = true.
Proof.
  intros Hpos Hxs. apply collect_ok_iff in Hxs.
  destruct shp as [[nx ny] nz]. unfold np.size in Hpos.
  assert (Hb : np.in_bounds (nx, ny, nz) (nx - 1) (ny - 1) (nz - 1) = true).
  { unfold np.in_bounds. rewrite !andb_true_iff, !Nat.ltb_lt. nia. }
  destruct (Forall2_lookup_l _ _ _ _ _ Hxs (voxels_lookup _ _ _ _ Hb)) as (y & _ & Hy).
  unfold voxel_variance in Hy.
  destruct (forallb _ images) eqn:Hall; [|discriminate].
  apply forallb_forall. intros img Himg.
  rewrite forallb_forall in Hall. specialize (Hall img Himg).
  destruct (shape img) as [[a b] c]. unfold covers, np.in_bounds in *.
  rewrite !andb_true_iff, !Nat.ltb_lt in Hall. rewrite !andb_true_iff, !Nat.leb_le.
  lia.
Qed.

(** C3, as the code has it: calcVariance never compares shapes and never
    raises ShapeMismatch.  It takes the shape of the first volume.  When
    every volume covers that grid it returns and writes a map of that
    shape, also when the shapes differ; when the grid is not empty and some
    volume does not cover it, the read of a missing voxel raises IndexError
    before anything is written. *)
Theorem C3_shapes_are_not_compared
    (self : Process3DFLAIR) (out_file : string) (s : FS)
    (images : list ndarray) (first : ndarray) :
  holds_volumes s (variance_inputs self) images ->
  images !! 0 = Some first ->
  let r := calcVariance self out_file s in
  let covered := forallb (fun img => covers (shape img) (shape first)) images in
  outcome r <> inl ShapeMismatch /\
  (covered = true ->
   exists variances,
     shape variances = shape first /\
     r = (inr tt, <[out_file := Nifti (mk_nifti variances eye4)]> s,
          [Call (M_calcVariance out_file);
           NibSave out_file (mk_nifti variances eye4)])) /\
  (covered = false -> 0 < np.size (shape first) ->
   r = (inl IndexError, s, [Call (M_calcVariance out_file)])).
Proof.
  intros Hvol Hfirst r covered. unfold r.
  rewrite (calcVariance_on_volumes self out_file s images first Hvol Hfirst).
  destruct (collect (voxel_variance images) (voxels (shape first))) as [e|xs] eqn:Hc.
  - pose proof (collect_voxel_variance_error _ _ _ Hc) as ->.
    split; [done|]. split; [|done].
    intros Hcov. exfalso.
    destruct (collect_total (voxel_variance images) (voxels (shape first))) as [xs Hxs].
    { intros [[i j] k] Hin%list_elem_of_In. apply voxels_in_bounds in Hin.
      eexists. by apply (voxel_variance_covered images (shape first)). }
    congruence.
  - split; [done|]. split.
    + intros _. by exists (mk_ndarray (shape first) xs).
    + intros Hcov Hpos. unfold covered in Hcov.
      rewrite (last_voxel_covers images (shape first) xs Hpos Hc) in Hcov. done.
Qed.

(** C3 fails both ways.  With a second volume larger than the first,
    calcVariance returns and writes its output; with a second volume smaller
    than the first it raises IndexError, not ShapeMismatch. *)
Lemma C3_mismatch_is_not_reported :
  input_shapes Sample.subject Sample.fs_mismatch = inr [(1, 1, 1); (2, 1, 1)] /\
  outcome (calcVariance Sample.subject Sample.out_file Sample.fs_mismatch) = inr tt /\
  is_file (final (calcVariance Sample.subject Sample.out_file Sample.fs_mismatch))
    Sample.out_file = true /\
  input_shapes Sample.subject Sample.fs_mismatch_small = inr [(2, 1, 1); (1, 1, 1)] /\
  outcome (calcVariance Sample.subject Sample.out_file Sample.fs_mismatch_small)
  = inl IndexError.
Proof. vm_compute. repeat split. Qed.

Lemma C3_shapes_are_not_compared_sample :
  (exists variances,
     shape variances = (1, 1, 1) /\
     calcVariance Sample.subject Sample.out_file Sample.fs_mismatch
     = (inr tt, <[Sample.out_file := Nifti (mk_nifti variances eye4)]> Sample.fs_mismatch,
        [Call (M_calcVariance Sample.out_file);
         NibSave Sample.out_file (mk_nifti variances eye4)])) /\
  calcVariance Sample.subject Sample.out_file Sample.fs_mismatch_small
  = (inl IndexError, Sample.fs_mismatch_small, [Call (M_calcVariance Sample.out_file)]).
Proof.
  split.
  - assert (Hvol : holds_volumes Sample.fs_mismatch (variance_inputs Sample.subject)
                     [Sample.uniform (1, 1, 1) 10; Sample.uniform (2, 1, 1) 20]).
    { repeat constructor; exists Sample.scanner_affine; vm_compute; reflexivity. }
    pose proof (C3_shapes_are_not_compared Sample.subject Sample.out_file
                  Sample.fs_mismatch _ _ Hvol eq_refl) as (_ & Hcov & _).
    exact (Hcov eq_refl).
  - assert (Hvol : holds_volumes Sample.fs_mismatch_small (variance_inputs Sample.subject)
                     [Sample.uniform (2, 1, 1) 10; Sample.uniform (1, 1, 1) 20]).
    { repeat constructor; exists Sample.scanner_affine; vm_compute; reflexivity. }
    pose proof (C3_shapes_are_not_compared Sample.subject Sample.out_file
                  Sample.fs_mismatch_small _ _ Hvol eq_refl) as (_ & _ & Hnot).
    apply Hnot; [reflexivity | simpl; lia].
Defined.

(** ** Reorganisation of the bias-correction outputs *)

(** *** Paths of the three directories *)

Lemma append_assoc (a b c : string) : (a +:+ b) +:+ c = a +:+ (b +:+ c).
Proof.
  induction a as [|x a IH]; [done|].
  change (String x ((a +:+ b) +:+ c) = String x (a +:+ (b +:+ c))). by rewrite IH.
Qed.

Lemma strip_prefix_Some (d p n : string) :
  strip_prefix d p = Some n <-> p = d +:+ n.
Proof.
  revert p. induction d as [|a d IH]; intros p; cbn [strip_prefix].
  - split; [by intros [= ->] | by intros ->].
  - destruct p as [|b p].
    + split; [done|]. intros H. discriminate H.
    + destruct (Ascii.eqb_spec a b) as [->|Hne].
      * rewrite IH. split; [by intros -> |]. intros H. by injection H.
      * split; [done|]. intros H. injection H as H _. done.
Qed.

Lemma contains_slash_head (n : string) :
  Py.contains "/" n = false -> Py.startswith "/" n = false.
Proof.
  destruct n as [|c n]; [done|]. cbn [Py.contains].
  by destruct (Py.startswith "/" (String c n)).
Qed.

Lemma contains_app_r (needle a b : string) :
  Py.contains needle b = true -> Py.contains needle (a +:+ b) = true.
Proof.
  intros H. induction a as [|c a IH]; [done|].
  change (String c a +:+ b) with (String c (a +:+ b)). cbn [Py.contains].
  rewrite IH. by destruct (Py.startswith needle _).
Qed.

Lemma endswith_slash_app (a : string) (c : ascii) (b : string) :
  endswith_slash (a +:+ String c b) = endswith_slash (String c b).
Proof.
  unfold endswith_slash. rewrite chars_app.
  change (Py.chars (String c b)) with (c :: Py.chars b).
  by rewrite last_app_cons.
Qed.

Section Directories.
Variable self : Process3DFLAIR.

Local Abbreviation src_dir := (subject_brain_directory self).
Local Abbreviation bias_dir := (subject_bias_directory self).
Local Abbreviation fields_dir := (subject_bias_fields_directory self).

Lemma join_entry (d n : string) :
  endswith_slash d = true -> is_entry_name n = true -> os_path_join d n = d +:+ n.
Proof.
  intros Hd Hn. unfold os_path_join, is_entry_name in *.
  apply andb_prop in Hn as [_ Hn]. apply negb_true_iff in Hn.
  rewrite (contains_slash_head n Hn), Hd. by rewrite orb_true_r.
Qed.

Lemma src_dir_slash : endswith_slash src_dir = true.
Proof. unfold subject_brain_directory. by rewrite endswith_slash_app. Qed.

Lemma bias_dir_slash : endswith_slash bias_dir = true.
Proof. unfold subject_bias_directory. by rewrite endswith_slash_app. Qed.

Lemma fields_dir_slash : endswith_slash fields_dir = true.
Proof. unfold subject_bias_fields_directory. by rewrite endswith_slash_app. Qed.

Lemma src_inj (a b : string) : src_dir +:+ a = src_dir +:+ b -> a = b.
Proof. apply String.app_inj. Qed.

Lemma bias_inj (a b : string) : bias_dir +:+ a = bias_dir +:+ b -> a = b.
Proof. apply String.app_inj. Qed.

Lemma fields_inj (a b : string) : fields_dir +:+ a = fields_dir +:+ b -> a = b.
Proof. apply String.app_inj. Qed.

Lemma bias_not_src (a b : string) : bias_dir +:+ a <> src_dir +:+ b.
Proof.
  unfold subject_bias_directory, subject_brain_directory.
  rewrite !append_assoc. intros H%String.app_inj.
  vm_compute in H. discriminate H.
Qed.

Lemma fields_not_src (a b : string) : fields_dir +:+ a <> src_dir +:+ b.
Proof.
  unfold subject_bias_fields_directory. rewrite append_assoc. apply bias_not_src.
Qed.

Lemma fields_not_bias (a b : string) :
  is_entry_name b = true -> fields_dir +:+ a <> bias_dir +:+ b.
Proof.
  unfold subject_bias_fields_directory. rewrite append_assoc.
  intros Hb H%String.app_inj. subst b.
  unfold is_entry_name in Hb. apply andb_prop in Hb as [_ Hb].
  apply negb_true_iff in Hb. vm_compute in Hb. discriminate Hb.
Qed.

End Directories.

(** *** The listing of a directory *)

Lemma entry_of_Some (d p n : string) :
  entry_of d p = Some n <-> p = d +:+ n /\ is_entry_name n = true.
Proof.
  unfold entry_of. destruct (strip_prefix d p) as [m|] eqn:Hs.
  - apply strip_prefix_Some in Hs as ->.
    destruct (is_entry_name m) eqn:Hm.
    + split; [by intros [= ->] |]. by intros [->%String.app_inj _].
    + split; [done|]. intros [->%String.app_inj Hn]. congruence.
  - split; [done|]. intros [-> _].
    assert (H : strip_prefix d (d +:+ n) = Some n) by by apply strip_prefix_Some.
    congruence.
Qed.

Lemma elem_of_entries (d n : string) (s : FS) :
  n ∈ entries d s <-> is_entry_name n = true /\ is_Some (s !! (d +:+ n)).
Proof.
  unfold entries. rewrite list_elem_of_omap. split.
  - intros (p & Hp & [-> Hn]%entry_of_Some). split; [done|].
    change (map fst (map_to_list s)) with ((map_to_list s).*1) in Hp.
    apply list_elem_of_fmap in Hp as ([k c] & -> & Hkc).
    apply elem_of_map_to_list in Hkc. by exists c.
  - intros [Hn [c Hc]]. exists (d +:+ n). split; [|by apply entry_of_Some].
    change (map fst (map_to_list s)) with ((map_to_list s).*1).
    apply list_elem_of_fmap. exists (d +:+ n, c). split; [done|].
    by apply elem_of_map_to_list.
Qed.

Lemma NoDup_omap_inj {A B} (f : A -> option B) (l : list A) :
  (forall x y z, f x = Some z -> f y = Some z -> x = y) ->
  NoDup l -> NoDup (omap f l).
Proof.
  intros Hinj. induction 1 as [|x l Hx Hl IH]; [constructor|].
  cbn [omap list_omap]. change (list_omap _ _ f l) with (omap f l).
  destruct (f x) as [z|] eqn:Hz; [|done].
  constructor; [|done]. intros (y & Hy & Hfy)%list_elem_of_omap.
  by rewrite (Hinj x y z Hz Hfy) in Hx.
Qed.

Lemma NoDup_entries (d : string) (s : FS) : NoDup (entries d s).
Proof.
  apply NoDup_omap_inj.
  - intros p q n [-> _]%entry_of_Some [-> _]%entry_of_Some. done.
  - apply NoDup_fst_map_to_list.
Qed.

(** *** One file *)

Lemma reorganise_file_spec (self : Process3DFLAIR) (n : string) (s : FS)
    (act : Action) (c : Content) :
  is_entry_name n = true ->
  s !! (subject_brain_directory self +:+ n) = Some c ->
  classify self n = inr act ->
  reorganise_file self n s = (inr tt, effect self act n s, []).
Proof.
  intros Hn Hs Hc. unfold classify in Hc. unfold reorganise_file.
  destruct (Py.startswith (subject_id self) n); [|by injection Hc as <-].
  destruct (index (Py.rsplit "." 2 n) 0) as [e|base_name]; [discriminate|].
  cbn [lift]. rewrite bind_ret_l.
  destruct (index (Py.rsplit "_" 1 base_name) 1) as [e|suffix]; [discriminate|].
  cbn [lift]. rewrite bind_ret_l.
  rewrite !(join_entry (subject_brain_directory self) n (src_dir_slash self) Hn).
  rewrite (join_entry (subject_bias_directory self) n (bias_dir_slash self) Hn).
  rewrite (join_entry (subject_bias_fields_directory self) n (fields_dir_slash self) Hn).
  destruct (String.eqb suffix "restore");
    [injection Hc as <-; unfold shutil_move, effect, target_of; by rewrite Hs|].
  destruct (String.eqb suffix "bias");
    [injection Hc as <-; unfold shutil_move, effect, target_of; by rewrite Hs|].
  destruct (String.eqb suffix "mixeltype");
    [injection Hc as <-; unfold os_remove, effect; by rewrite Hs|].
  destruct (String.eqb suffix "seg");
    [injection Hc as <-; unfold os_remove, effect; by rewrite Hs|].
  destruct (Py.contains "pve" base_name);
    injection Hc as <-; [unfold os_remove, effect; by rewrite Hs | done].
Qed.

Lemma target_not_src (self : Process3DFLAIR) (act : Action) (n m : string) :
  target_of self act n <> Some (subject_brain_directory self +:+ m).
Proof.
  destruct act; cbn [target_of]; try done; intros H%(inj Some).
  - by apply bias_not_src in H.
  - by apply fields_not_src in H.
Qed.

Lemma target_inj (self : Process3DFLAIR) (act act' : Action) (n m p : string) :
  is_entry_name n = true -> is_entry_name m = true ->
  target_of self act n = Some p -> target_of self act' m = Some p -> n = m.
Proof.
  intros Hn Hm.
  destruct act, act'; cbn [target_of]; try done;
    intros <-%(inj Some) H%(inj Some).
  - by apply bias_inj in H.
  - by apply fields_not_bias in H.
  - symmetry in H. by apply fields_not_bias in H.
  - by apply fields_inj in H.
Qed.

Lemma effect_other (self : Process3DFLAIR) (act : Action) (n p : string) (s : FS) :
  p <> subject_brain_directory self +:+ n ->
  target_of self act n <> Some p ->
  effect self act n s !! p = s !! p.
Proof.
  intros Hsrc Htgt. unfold effect.
  destruct act; cbn [target_of] in *;
    try destruct (s !! (subject_brain_directory self +:+ n)); try done;
    try (rewrite lookup_insert_ne by congruence);
    by rewrite lookup_delete_ne.
Qed.

Lemma effect_src (self : Process3DFLAIR) (act : Action) (n : string) (s : FS)
    (c : Content) :
  act <> Leave ->
  s !! (subject_brain_directory self +:+ n) = Some c ->
  effect self act n s !! (subject_brain_directory self +:+ n) = None.
Proof.
  intros Hact Hs. pose proof (target_not_src self act n n) as Hne. unfold effect.
  destruct act; cbn [target_of] in *; try done; rewrite ?Hs;
    try (rewrite lookup_insert_ne by congruence);
    apply lookup_delete_eq.
Qed.

Lemma effect_target (self : Process3DFLAIR) (act : Action) (n t : string) (s : FS)
    (c : Content) :
  target_of self act n = Some t ->
  s !! (subject_brain_directory self +:+ n) = Some c ->
  effect self act n s !! t = Some c.
Proof.
  intros Ht Hs. unfold effect.
  destruct act; cbn [target_of] in *; try done; rewrite Hs;
    apply (inj Some) in Ht as <-; apply lookup_insert_eq.
Qed.

(** *** The loop *)

Lemma src_not_touched (self : Process3DFLAIR) (rest : list string) (n : string) :
  n ∉ rest -> ~ touched self rest (subject_brain_directory self +:+ n).
Proof.
  intros Hn (m & act & Hm & _ & [[Heq _]|Ht]).
  - apply src_inj in Heq as ->. done.
  - by apply target_not_src in Ht.
Qed.

Lemma target_not_touched (self : Process3DFLAIR) (rest : list string)
    (n t : string) (act : Action) :
  n ∉ rest -> is_entry_name n = true ->
  (forall m, m ∈ rest -> is_entry_name m = true) ->
  target_of self act n = Some t -> ~ touched self rest t.
Proof.
  intros Hn Hen Hrest Ht (m & act' & Hm & _ & [[-> _]|Ht']).
  - by apply target_not_src in Ht.
  - rewrite (target_inj self act act' n m t Hen (Hrest m Hm) Ht Ht') in Hn. done.
Qed.

Lemma touched_cons (self : Process3DFLAIR) (n : string) (rest : list string) (p : string) :
  touched self rest p -> touched self (n :: rest) p.
Proof. intros (m & act & Hm & H). exists m, act. split; [by right|done]. Qed.

Lemma reorganise_spec (self : Process3DFLAIR) (names : list string) :
  forall s : FS,
    NoDup names ->
    (forall n, n ∈ names ->
       is_entry_name n = true /\
       is_Some (s !! (subject_brain_directory self +:+ n)) /\
       exists act, classify self n = inr act) ->
    exists s', reorganise self names s = (inr tt, s', []) /\
               (forall n, n ∈ names -> placed self s s' n) /\
               (forall p, ~ touched self names p -> s' !! p = s !! p).
Proof.
  induction names as [|n rest IH]; intros s Hnd Hall.
  { exists s. split; [done|]. split; [|done]. intros n Hn. by apply elem_of_nil in Hn. }
  apply NoDup_cons in Hnd as [Hn Hnd].
  destruct (Hall n ltac:(left)) as (Hen & [c Hc] & [act Hact]).
  set (s1 := effect self act n s).
  assert (Hs1 : forall m, m ∈ rest ->
            s1 !! (subject_brain_directory self +:+ m)
            = s !! (subject_brain_directory self +:+ m)).
  { intros m Hm. apply effect_other; [|apply target_not_src].
    intros ->%src_inj. done. }
  destruct (IH s1 Hnd) as (s' & Hrun & Hplaced & Hframe).
  { intros m Hm. destruct (Hall m ltac:(by right)) as (? & ? & ?).
    rewrite (Hs1 m Hm). done. }
  assert (Hrest : forall m, m ∈ rest -> is_entry_name m = true).
  { intros m Hm. by destruct (Hall m ltac:(by right)). }
  exists s'. split; [|split].
  - unfold reorganise in *. cbn [for_each].
    rewrite (bind_ok _ _ _ _ _ _ (reorganise_file_spec self n s act c Hen Hc Hact)).
    fold s1. by rewrite Hrun.
  - intros m [->|Hm]%elem_of_cons.
    + unfold placed. rewrite Hact.
      pose proof (Hframe _ (src_not_touched self rest n Hn)) as Hsrc.
      destruct act; cbn zeta.
      * rewrite Hsrc, (Hframe _ (target_not_touched self rest n _ ToBiasCorrected
                                   Hn Hen Hrest eq_refl)).
        split; [|by eapply effect_src].
        rewrite Hc. by apply (effect_target self ToBiasCorrected).
      * rewrite Hsrc, (Hframe _ (target_not_touched self rest n _ ToFields
                                   Hn Hen Hrest eq_refl)).
        split; [|by eapply effect_src].
        rewrite Hc. by apply (effect_target self ToFields).
      * rewrite Hsrc. by eapply effect_src.
      * by rewrite Hsrc.
    + specialize (Hplaced m Hm). unfold placed in *.
      by rewrite (Hs1 m Hm) in Hplaced.
  - intros p Hp. rewrite Hframe by (intros Ht; by apply Hp, touched_cons).
    assert (Hdec : act = Leave \/ act <> Leave) by (destruct act; auto).
    destruct Hdec as [Hl|Hact'].
    { unfold s1. by rewrite Hl. }
    apply effect_other.
    + intros ->. apply Hp. exists n, act. split; [left|]. split; [done|]. by left.
    + intros Ht. apply Hp. exists n, act. split; [left|]. split; [done|]. by right.
Qed.

(** The end of correctBiasField is the reorganisation of the listing of the
    brain directory. *)
Lemma reorganisation_step (self : Process3DFLAIR) (s : FS) :
  (names <- os_listdir (subject_brain_directory self) ;; reorganise self names) s
  = reorganise self (entries (subject_brain_directory self) s) s.
Proof.
  unfold bind, os_listdir.
  by destruct (reorganise self (entries (subject_brain_directory self) s) s)
    as [[o s'] t].
Qed.

(** C8: let the files of the brain directory whose names begin with the
    subject identifier each have a suffix after a last underscore, as the
    outputs of the bias correction and the brain volumes do.  Then the
    reorganisation returns, and for every file of the directory: a
    [restore] file is moved to the bias-corrected directory, a [bias] file
    to the fields subdirectory, a [mixeltype] or [seg] file or one whose
    base name contains [pve] is deleted, and any other file stays; no other
    path of the file system changes.  A name that fits two kinds counts for
    the first of them in this order. *)
Theorem C8_reorganisation_by_suffix (self : Process3DFLAIR) (s : FS) :
  let names := entries (subject_brain_directory self) s in
  (forall n, n ∈ names -> exists act, classify self n = inr act) ->
  exists s', reorganise self names s = (inr tt, s', []) /\
             (forall n, n ∈ names -> placed self s s' n) /\
             (forall p, ~ touched self names p -> s' !! p = s !! p).
Proof.
  intros names Hclass. apply reorganise_spec; [apply NoDup_entries|].
  intros n Hn. pose proof Hn as [Hen Hs]%elem_of_entries. auto.
Qed.

(** The example of the specification: one file of each kind next to the
    brain volume.  Afterwards the bias-corrected directory holds the
    restore file and nothing else, the fields subdirectory the bias file and
    nothing else, the brain directory the brain volume alone, and there is
    no other file. *)
Lemma C8_reorganisation_one_of_each_kind :
  exists s',
    reorganise Sample.subject
      (entries (subject_brain_directory Sample.subject) Sample.fs_fast_outputs)
      Sample.fs_fast_outputs = (inr tt, s', []) /\
    entries (subject_bias_directory Sample.subject) s'
    = ["B-RAP_0027_01_D1_restore.nii.gz"] /\
    entries (subject_bias_fields_directory Sample.subject) s'
    = ["B-RAP_0027_01_D1_bias.nii.gz"] /\
    entries (subject_brain_directory Sample.subject) s' = ["B-RAP_0027_01_D1.nii.gz"] /\
    size s' = 3.
Proof.
  assert (Hall : forallb (fun n => match classify Sample.subject n with
                                   | inr _ => true
                                   | inl _ => false
                                   end)
                   (entries (subject_brain_directory Sample.subject)
                      Sample.fs_fast_outputs) = true)
    by (vm_compute; reflexivity).
  assert (Hclass : forall n,
             n ∈ entries (subject_brain_directory Sample.subject) Sample.fs_fast_outputs ->
             exists act, classify Sample.subject n = inr act).
  { intros n Hn%list_elem_of_In. rewrite forallb_forall in Hall.
    specialize (Hall n Hn). revert Hall.
    destruct (classify Sample.subject n) as [e|act]; [discriminate|by exists act]. }
  pose proof (C8_reorganisation_by_suffix Sample.subject Sample.fs_fast_outputs Hclass)
    as (s' & Hrun & _ & _).
  exists s'. split; [exact Hrun|].
  assert (Hs' : s' = final (reorganise Sample.subject
                              (entries (subject_brain_directory Sample.subject)
                                 Sample.fs_fast_outputs) Sample.fs_fast_outputs))
    by (by rewrite Hrun).
  rewrite Hs'. vm_compute. repeat split.
Defined.

(** *** File names and their suffixes *)

Lemma split_acc_zero (sep : ascii) (s cur : list ascii) :
  Py.split_acc sep 0 s cur = [rev cur ++ s].
Proof. by destruct s. Qed.

Lemma split_acc_none (sep : ascii) (k : nat) (l : list ascii) :
  forall cur, ~ In sep l -> Py.split_acc sep (S k) l cur = [rev cur ++ l].
Proof.
  induction l as [|c l IH]; intros cur Hl; cbn [Py.split_acc].
  { by rewrite app_nil_r. }
  destruct (Ascii.eqb_spec c sep) as [->|Hne]; [exfalso; apply Hl; by left|].
  rewrite IH by (intros H; apply Hl; by right).
  cbn [rev]. by rewrite <- app_assoc.
Qed.

(** Cutting at the first separator. *)
Lemma split_acc_cut (sep : ascii) (k : nat) (l r : list ascii) :
  forall cur, ~ In sep l ->
    Py.split_acc sep (S k) (l ++ sep :: r) cur
    = (rev cur ++ l) :: Py.split_acc sep k r [].
Proof.
  induction l as [|c l IH]; intros cur Hl; cbn [Py.split_acc app].
  { by rewrite Ascii.eqb_refl, app_nil_r. }
  destruct (Ascii.eqb_spec c sep) as [->|Hne]; [exfalso; apply Hl; by left|].
  rewrite IH by (intros H; apply Hl; by right).
  cbn [rev]. by rewrite <- app_assoc.
Qed.

(** The last piece keeps a separator-free tail whole. *)
Lemma split_acc_last (sep : ascii) (b : list ascii) (a : list ascii) :
  ~ In sep b ->
  forall k cur, exists init y, Py.split_acc sep k (a ++ b) cur = init ++ [y ++ b].
Proof.
  intros Hb. induction a as [|c a IH]; intros k cur.
  - destruct k as [|k].
    + rewrite split_acc_zero. by exists [], (rev cur).
    + cbn [app]. rewrite split_acc_none by done. by exists [], (rev cur).
  - destruct k as [|k].
    + rewrite split_acc_zero. exists [], (rev cur ++ c :: a).
      cbn [app]. by rewrite <- app_assoc.
    + cbn [Py.split_acc app]. destruct (Ascii.eqb c sep).
      * destruct (IH k []) as (init & y & ->). by exists (rev cur :: init), y.
      * apply IH.
Qed.

(** With a separator in sight, one cut gives two pieces. *)
Lemma split_acc_two (sep : ascii) (l : list ascii) :
  In sep l -> forall cur, exists p1 p2, Py.split_acc sep 1 l cur = [p1; p2].
Proof.
  induction l as [|c l IH]; intros Hl cur; [done|].
  cbn [Py.split_acc]. destruct (Ascii.eqb_spec c sep) as [->|Hne].
  - rewrite split_acc_zero. by eexists _, _.
  - destruct Hl as [->|Hl]; [done|]. by apply IH.
Qed.

Lemma contains_char (c : ascii) (s : string) :
  Py.contains (String c "") s = true <-> In c (Py.chars s).
Proof.
  induction s as [|b s IH]; [by split|].
  cbn [Py.contains Py.startswith].
  change (Py.chars (String b s)) with (b :: Py.chars s). cbn [In].
  destruct (Ascii.eqb_spec c b) as [->|Hne].
  - destruct s; split; auto.
  - rewrite IH. split; [by right|]. intros [Heq|H]; [congruence|done].
Qed.

Lemma unchars_chars (s : string) : Py.unchars (Py.chars s) = s.
Proof. apply string_of_list_ascii_of_string. Qed.

Lemma unchars_app (a b : list ascii) :
  Py.unchars (a ++ b) = Py.unchars a +:+ Py.unchars b.
Proof.
  induction a as [|c a IH]; [done|].
  change (String c (Py.unchars (a ++ b)) = String c (Py.unchars a +:+ Py.unchars b)).
  by rewrite IH.
Qed.

Lemma startswith_split (p s : string) :
  Py.startswith p s = true -> exists r, s = p +:+ r.
Proof.
  revert s. induction p as [|a p IH]; intros s; [by exists s|].
  destruct s as [|b s]; [done|]. cbn [Py.startswith].
  destruct (Ascii.eqb_spec a b) as [->|]; [|done].
  intros [r ->]%IH. by exists r.
Qed.

(** The base name of a file whose name begins with a dot-free prefix
    begins with that prefix. *)
Lemma rsplit_keeps_prefix (sep : ascii) (k : nat) (p r : string) :
  ~ In sep (Py.chars p) ->
  exists y, index (Py.rsplit sep k (p +:+ r)) 0 = inr (p +:+ y).
Proof.
  intros Hp. unfold Py.rsplit. rewrite chars_app, rev_app_distr.
  destruct (split_acc_last sep (rev (Py.chars p)) (rev (Py.chars r))) with (k := k)
    (cur := @nil ascii) as (init & y & ->).
  { by rewrite <- in_rev. }
  rewrite map_app, rev_app_distr. cbn [map rev app].
  exists (Py.unchars (rev y)). unfold index. cbn [lookup list_lookup].
  by rewrite rev_app_distr, rev_involutive, unchars_app, unchars_chars.
Qed.

(** A name with an underscore has a suffix. *)
Lemma rsplit_suffix_exists (s : string) :
  In "_"%char (Py.chars s) -> exists sfx, index (Py.rsplit "_" 1 s) 1 = inr sfx.
Proof.
  intros Hs. unfold Py.rsplit.
  destruct (split_acc_two "_" (rev (Py.chars s))) with (cur := @nil ascii)
    as (p1 & p2 & ->).
  { by rewrite <- in_rev. }
  by eexists.
Qed.

(** When the subject identifier has an underscore and no dot, as in
    ['B-RAP_0027'], every file name takes a branch of the reorganisation:
    none makes the suffix extraction fail. *)
Lemma classify_total (self : Process3DFLAIR) (n : string) :
  Py.contains "_" (subject_id self) = true ->
  Py.contains "." (subject_id self) = false ->
  exists act, classify self n = inr act.
Proof.
  intros Hus Hdot. unfold classify.
  destruct (Py.startswith (subject_id self) n) eqn:Hpre; [|by eexists].
  apply startswith_split in Hpre as [r ->].
  destruct (rsplit_keeps_prefix "." 2 (subject_id self) r) as [y ->].
  { rewrite <- contains_char. by rewrite Hdot. }
  destruct (rsplit_suffix_exists (subject_id self +:+ y)) as [sfx ->].
  { rewrite chars_app. apply in_or_app. left. by apply contains_char. }
  destruct (String.eqb sfx "restore"); [by eexists|].
  destruct (String.eqb sfx "bias"); [by eexists|].
  destruct (String.eqb sfx "mixeltype"); [by eexists|].
  destruct (String.eqb sfx "seg"); [by eexists|].
  destruct (Py.contains "pve" _); by eexists.
Qed.

Lemma startswith_app (p x : string) : Py.startswith p (p +:+ x) = true.
Proof.
  induction p as [|a p IH]; [done|].
  change (String a p +:+ x) with (String a (p +:+ x)). cbn [Py.startswith].
  by rewrite Ascii.eqb_refl.
Qed.

Lemma chars_cons_app (c : ascii) (s : string) :
  Py.chars (String c "" +:+ s) = c :: Py.chars s.
Proof. reflexivity. Qed.

(** [(z + sep + sfx).rsplit(sep, 1)] when [sfx] has no separator. *)
Lemma rsplit_one (sep : ascii) (z sfx : string) :
  ~ In sep (Py.chars sfx) ->
  Py.rsplit sep 1 (z +:+ String sep "" +:+ sfx) = [z; sfx].
Proof.
  intros Hs. unfold Py.rsplit.
  rewrite chars_app, chars_cons_app, rev_app_distr. cbn [rev].
  rewrite <- app_assoc. cbn [app].
  rewrite split_acc_cut by (by rewrite <- in_rev).
  rewrite split_acc_zero. cbn [map rev app].
  by rewrite !rev_involutive, !unchars_chars.
Qed.

(** [(y + sep + a + sep + b).rsplit(sep, 2)] when [a] and [b] have no
    separator. *)
Lemma rsplit_two (sep : ascii) (y a b : string) :
  ~ In sep (Py.chars a) -> ~ In sep (Py.chars b) ->
  Py.rsplit sep 2 (y +:+ String sep "" +:+ a +:+ String sep "" +:+ b) = [y; a; b].
Proof.
  intros Ha Hb. unfold Py.rsplit.
  rewrite chars_app, chars_cons_app, chars_app, chars_cons_app.
  rewrite rev_app_distr. cbn [rev]. rewrite rev_app_distr. cbn [rev].
  rewrite <- !app_assoc. cbn [app].
  rewrite split_acc_cut by (by rewrite <- in_rev).
  rewrite split_acc_cut by (by rewrite <- in_rev).
  rewrite split_acc_zero. cbn [map rev app].
  by rewrite !rev_involutive, !unchars_chars.
Qed.

(** The branch taken by a compressed NIfTI file [stem_kind.nii.gz] of the
    subject, for a kind without underscore. *)
Lemma classify_by_kind (self : Process3DFLAIR) (stem kind : string) :
  ~ In "_"%char (Py.chars kind) ->
  classify self (subject_id self +:+ stem +:+ "_" +:+ kind +:+ ".nii.gz")
  = if String.eqb kind "restore" then inr ToBiasCorrected
    else if String.eqb kind "bias" then inr ToFields
    else if String.eqb kind "mixeltype" then inr Remove
    else if String.eqb kind "seg" then inr Remove
    else if Py.contains "pve" (subject_id self +:+ stem +:+ "_" +:+ kind)
         then inr Remove
    else inr Leave.
Proof.
  intros Hk. unfold classify. rewrite startswith_app.
  replace (subject_id self +:+ stem +:+ "_" +:+ kind +:+ ".nii.gz")
    with ((subject_id self +:+ stem +:+ "_" +:+ kind) +:+ "." +:+ "nii" +:+ "." +:+ "gz")
    by (by rewrite !append_assoc).
  rewrite rsplit_two by (vm_compute; intuition discriminate).
  unfold index at 1. cbn [lookup list_lookup].
  replace (subject_id self +:+ stem +:+ "_" +:+ kind)
    with ((subject_id self +:+ stem) +:+ "_" +:+ kind)
    by (by rewrite !append_assoc).
  rewrite rsplit_one by done.
  unfold index. cbn [lookup list_lookup]. done.
Qed.

(** The kinds of files that the bias correction leaves next to the brain
    volume [stem]: where each one goes. *)
Lemma classify_fast_outputs (self : Process3DFLAIR) (stem : string) :
  let name kind := subject_id self +:+ stem +:+ "_" +:+ kind +:+ ".nii.gz" in
  classify self (name "restore") = inr ToBiasCorrected /\
  classify self (name "bias") = inr ToFields /\
  classify self (name "mixeltype") = inr Remove /\
  classify self (name "seg") = inr Remove /\
  Forall (fun k => classify self (subject_id self +:+ (stem +:+ "_pve") +:+ "_" +:+ k
                                  +:+ ".nii.gz") = inr Remove)
         ["0"; "1"; "2"; "3"; "4"].
Proof.
  cbn zeta. repeat split;
    try (rewrite classify_by_kind by (vm_compute; intuition discriminate); done).
  repeat constructor.
  all: rewrite classify_by_kind by (vm_compute; intuition discriminate).
  all: cbn [String.eqb Ascii.eqb Bool.eqb].
  all: rewrite contains_app_r; [done|].
  all: rewrite append_assoc; apply contains_app_r; done.
Qed.

(** The same hold for every subject whose identifier has an underscore and
    no dot: the reorganisation then returns on every brain directory. *)
Lemma reorganisation_for_plain_ids (self : Process3DFLAIR) (s : FS) :
  Py.contains "_" (subject_id self) = true ->
  Py.contains "." (subject_id self) = false ->
  exists s',
    reorganise self (entries (subject_brain_directory self) s) s = (inr tt, s', []) /\
    (forall n, n ∈ entries (subject_brain_directory self) s -> placed self s s' n) /\
    (forall p, ~ touched self (entries (subject_brain_directory self) s) p ->
               s' !! p = s !! p).
Proof.
  intros Hus Hdot. apply reorganise_spec; [apply NoDup_entries|].
  intros n Hn. pose proof Hn as [Hen Hs]%elem_of_entries.
  split; [done|]. split; [done|]. by apply classify_total.
Qed.

(** A name that begins with the subject identifier and has no underscore
    makes the suffix extraction raise. *)
Lemma classify_without_suffix :
  classify (mk_Process3DFLAIR "B" 1 [1]%Z "rigidfsl") "B.nii.gz" = inl IndexError.
Proof. reflexivity. Qed.

(** * Further properties *)

(** ** Mask propagation: edges and composition *)

(** X1: with no time point extractBrain raises IndexError at the choice of the
    template, and with one it returns at once: in both cases nothing is
    run and the file system is as before. *)
Theorem extractBrain_fewer_than_two
    (env : Env) (rg : RegistrationModule) (self : Process3DFLAIR) (s : FS) :
  length (time_points_to_consider self) < 2 ->
  extractBrain env rg self s
  = (match time_points_to_consider self with
     | [] => inl IndexError
     | _ => inr tt
     end, s, [Call M_extractBrain]).
Proof.
  intros Hlen. unfold extractBrain.
  destruct (time_points_to_consider self) as [|t [|t' l]] eqn:Htps;
    [done | done | simpl in Hlen; lia].
Qed.

Lemma extractBrain_fewer_than_two_sample :
  extractBrain Sample.env Sample.rg
    (mk_Process3DFLAIR "B-RAP_0027" 5 [3]%Z "rigidfsl") Sample.fs_raw
  = (inr tt, Sample.fs_raw, [Call M_extractBrain]).
Proof.
  exact (extractBrain_fewer_than_two Sample.env Sample.rg
           (mk_Process3DFLAIR "B-RAP_0027" 5 [3]%Z "rigidfsl") Sample.fs_raw
           ltac:(simpl; lia)).
Defined.

(** X2: with a known method applyBETMask runs the selected registration first.
    When it raises, the exception leaves applyBETMask and the mask is not
    applied; when it returns, ApplyMask runs once on the file system that
    the registration left, and its outcome is the outcome of the call. *)
Theorem applyBETMask_registers_then_masks
    (env : Env) (rg : RegistrationModule) (self : Process3DFLAIR)
    (extracted to_extract : Z) (reg : RegAction) (s : FS) :
  selected_registration rg self extracted to_extract = Some reg ->
  applyBETMask env rg self extracted to_extract s
  = match reg s with
    | (inl e, s1, ts) =>
        (inl e, s1, Call (M_applyBETMask extracted to_extract) :: map Tool ts)
    | (inr _, s1, ts) =>
        (fst (fsl_run env (mask_step self extracted to_extract) s1),
         snd (fsl_run env (mask_step self extracted to_extract) s1),
         Call (M_applyBETMask extracted to_extract)
         :: map Tool ts ++ [Tool (mask_step self extracted to_extract)])
    end.
Proof.
  unfold selected_registration, applyBETMask, mask_step. intros Hsel.
  destruct (String.eqb_spec (registration_method self) "rigidfsl") as [Hm|_].
  - rewrite Hm in *.
    change (String.eqb "rigidfsl" "affinefsl") with false.
    change (String.eqb "rigidfsl" "nonlinearfsl") with false.
    cbv iota. apply (inj Some) in Hsel as <-.
    unfold bind, emit, ret, run_reg, run_tool. cbv beta iota zeta.
    destruct (rigidFslFLIRT rg _ _ _ s) as [[[e|[]] s1] ts]; [done|]. cbn.
    destruct (fsl_run env _ s1) as [o s2]. cbn. rewrite ?app_nil_r. reflexivity.
  - destruct (String.eqb_spec (registration_method self) "affinefsl") as [Hm|_].
    + rewrite Hm in *.
      change (String.eqb "affinefsl" "nonlinearfsl") with false.
      cbv iota. apply (inj Some) in Hsel as <-.
      unfold bind, emit, ret, run_reg, run_tool. cbv beta iota zeta.
      destruct (affineFslFLIRT rg _ _ _ s) as [[[e|[]] s1] ts]; [done|]. cbn.
      destruct (fsl_run env _ s1) as [o s2]. cbn. rewrite ?app_nil_r. reflexivity.
    + destruct (String.eqb (registration_method self) "nonlinearfsl"); [|done].
      apply (inj Some) in Hsel as <-.
      unfold bind, emit, ret, run_reg, run_tool. cbv beta iota zeta.
      destruct (nonlinearFslFNIRT rg _ _ s) as [[[e|[]] s1] ts]; [done|]. cbn.
      destruct (fsl_run env _ s1) as [o s2]. cbn. rewrite ?app_nil_r. reflexivity.
Qed.

Lemma applyBETMask_registers_then_masks_sample :
  trace (applyBETMask Sample.env Sample.rg Sample.subject 2 1 Sample.fs_raw)
  = [Call (M_applyBETMask 2 1);
     Tool (FLIRT 6 (brain_file Sample.subject "02") (nifti_file Sample.subject "01")
             (registered_whole_brain_file Sample.subject "01")
             "mutualinfo" "trilinear");
     Tool (mask_step Sample.subject 2 1)].
Proof.
  rewrite (applyBETMask_registers_then_masks Sample.env Sample.rg Sample.subject 2 1
             _ Sample.fs_raw eq_refl).
  vm_compute. reflexivity.
Defined.

(** ** Bias-field correction *)

(** A loop whose every iteration leaves exactly one observation leaves the
    observations of a prefix of the list, and of the whole list when it
    runs to its end. *)
Lemma for_each_observed {A B} (obs : Event -> option B) (g : A -> B)
    (body : A -> M unit) (l : list A) (s : FS) :
  (forall x s', omap obs (trace (body x s')) = [g x]) ->
  (exists k, omap obs (trace (for_each l body s)) = map g (take k l)) /\
  (outcome (for_each l body s) = inr tt ->
   omap obs (trace (for_each l body s)) = map g l).
Proof.
  intros Hbody. revert s. induction l as [|x l IH]; intros s.
  { split; [by exists 0|done]. }
  cbn [for_each]. rewrite trace_bind, outcome_bind, omap_app, Hbody.
  destruct (outcome (body x s)) as [e|[]].
  - split; [by exists 1|done].
  - destruct (IH (final (body x s))) as [[k Hk] Hall]. split.
    + exists (S k). cbn [take map]. by rewrite Hk.
    + intros Hok. by rewrite Hall.
Qed.

Lemma reorganise_runs_no_program (self : Process3DFLAIR) (names : list string) (s : FS) :
  tool_runs (trace (reorganise self names s)) = [].
Proof.
  apply omap_none_nil.
  assert (H : trace_all (fun e => tool_run e = None) (reorganise self names)).
  { unfold reorganise, reorganise_file. trace_auto. }
  apply H.
Qed.

(** X3: correctBiasField compares its argument with ['FSL'] exactly: for any
    other string, a different capitalisation included, it returns without
    running a program and without touching a file. *)
Theorem correctBiasField_other_method
    (env : Env) (self : Process3DFLAIR) (method : string) (s : FS) :
  method <> "FSL" ->
  correctBiasField env self method s
  = (inr tt, s, [Call (M_correctBiasField method)]).
Proof.
  intros Hm. unfold correctBiasField. by rewrite (eqb_neq_false _ _ Hm).
Qed.

Lemma correctBiasField_other_method_lower_case :
  correctBiasField Sample.env Sample.subject "fsl" Sample.fs_raw
  = (inr tt, Sample.fs_raw, [Call (M_correctBiasField "fsl")]).
Proof.
  exact (correctBiasField_other_method Sample.env Sample.subject "fsl" Sample.fs_raw
           ltac:(discriminate)).
Defined.

(** X4: with ['FSL'], correctBiasField runs FAST on the brain volume of each
    configured time point, in the order of the list, with 5 bias
    iterations, image type 1 and 5 classes, and runs no other program: the
    programs of a run are those of a prefix of the time points, and of all
    of them when the method returns. *)
Theorem correctBiasField_FAST_per_time_point
    (env : Env) (self : Process3DFLAIR) (s : FS) :
  let r := correctBiasField env self "FSL" s in
  (exists k, tool_runs (trace r)
             = map (fast_step self) (take k (time_points_to_consider self))) /\
  (outcome r = inr tt ->
   tool_runs (trace r) = map (fast_step self) (time_points_to_consider self)).
Proof.
  cbn zeta. unfold correctBiasField.
  change (String.eqb "FSL" "FSL") with true. cbv iota.
  rewrite !trace_bind, !outcome_bind. cbn [emit outcome final trace fst snd].
  rewrite for_each_seq_index by lia. rewrite firstn_all.
  set (loop := for_each (time_points_to_consider self) _ s).
  destruct (for_each_observed tool_run (fast_step self)
              (fun t => run_tool env (FAST (brain_file self (tp_str0 t)) 5 1 5))
              (time_points_to_consider self) s) as [[k Hk] Hall].
  { intros x s'. by rewrite trace_run_tool. }
  fold loop in Hk, Hall. unfold tool_runs in *.
  rewrite !omap_app.
  change (omap tool_run [Call (M_correctBiasField "FSL")]) with (@nil ToolCall).
  cbn [os_listdir outcome final trace fst snd app].
  pose proof (reorganise_runs_no_program self
                (entries (subject_brain_directory self) (final loop)) (final loop)) as Hre.
  unfold tool_runs in Hre.
  destruct (outcome loop) as [e|[]] eqn:Hloop.
  - cbn [omap]. rewrite app_nil_r. split; [by exists k|done].
  - rewrite Hre, app_nil_r.
    split; [by exists k|]. intros _. by apply Hall.
Qed.

Lemma correctBiasField_FAST_per_time_point_sample :
  tool_runs (trace (correctBiasField Sample.env Sample.subject "FSL" Cases.fs_brains))
  = [FAST (brain_file Sample.subject "01") 5 1 5;
     FAST (brain_file Sample.subject "02") 5 1 5].
Proof.
  assert (Hrun : outcome (correctBiasField Sample.env Sample.subject "FSL"
                            Cases.fs_brains) = inr tt) by (vm_compute; reflexivity).
  exact (proj2 (correctBiasField_FAST_per_time_point Sample.env Sample.subject
                  Cases.fs_brains) Hrun).
Defined.

(** ** Intensity normalisation *)

Lemma collect_length {A B} (f : A -> Exn + B) (l : list A) (ys : list B) :
  collect f l = inr ys -> length ys = length l.
Proof. intros H%collect_ok_iff. symmetry. by eapply Forall2_length. Qed.

Lemma bind_cong_l {A B} (m m' : M A) (f : A -> M B) (s : FS) :
  m s = m' s -> bind m f s = bind m' f s.
Proof. unfold bind. by intros ->. Qed.

Lemma bind_cong_r {A B} (m : M A) (f g : A -> M B) (s : FS) :
  (forall a s', f a s' = g a s') -> bind m f s = bind m g s.
Proof.
  intros H. unfold bind. destruct (m s) as [[[e|a] s1] t1]; [done|]. by rewrite H.
Qed.

(** [for i in range(n): body(l1[i], l2[i])]. *)
Lemma for_each_seq_index2_gen {A B} (body : A -> B -> M unit) (n : nat) :
  forall (pre1 l1 : list A) (pre2 l2 : list B) s,
    length pre1 = length pre2 -> n <= length l1 -> n <= length l2 ->
    for_each (seq (length pre1) n)
      (fun i => x <- lift (index (pre1 ++ l1) i) ;;
                y <- lift (index (pre2 ++ l2) i) ;; body x y) s
    = for_each (take n (zip l1 l2)) (fun p => body p.1 p.2) s.
Proof.
  induction n as [|n IH]; intros pre1 l1 pre2 l2 s Hpre Hn1 Hn2; [done|].
  destruct l1 as [|x l1]; [simpl in Hn1; lia|].
  destruct l2 as [|y l2]; [simpl in Hn2; lia|].
  cbn [seq for_each take zip zip_with fst snd].
  rewrite (bind_cong_l _ (body x y)).
  2:{ rewrite (bind_lift_ok _ x) by apply index_app_r.
      rewrite Hpre. by rewrite (bind_lift_ok _ y) by apply index_app_r. }
  apply bind_cong_r. intros _ s1.
  specialize (IH (pre1 ++ [x]) l1 (pre2 ++ [y]) l2 s1).
  rewrite !length_app, Nat.add_1_r, <- !app_assoc in IH. simpl in IH.
  rewrite IH; [done|lia|simpl in Hn1; lia|simpl in Hn2; lia].
Qed.

Lemma for_each_seq_index2 {A B} (body : A -> B -> M unit) (l1 : list A) (l2 : list B) s :
  length l2 = length l1 ->
  for_each (seq 0 (length l1))
    (fun i => x <- lift (index l1 i) ;; y <- lift (index l2 i) ;; body x y) s
  = for_each (zip l1 l2) (fun p => body p.1 p.2) s.
Proof.
  intros Hlen.
  pose proof (for_each_seq_index2_gen body (length l1) [] l1 [] l2 s eq_refl) as H.
  simpl in H. rewrite H by lia.
  rewrite firstn_all2; [done|]. rewrite length_zip. lia.
Qed.

(** A loop of [nib.save] always runs to its end. *)
Lemma for_each_nib_save {A} (g : A -> string * Nifti1Image) (l : list A) (s : FS) :
  for_each l (fun x => nib_save (g x).2 (g x).1) s
  = (inr tt, save_all (map g l) s, map save_event (map g l)).
Proof.
  revert s. induction l as [|x l IH]; intros s; [done|].
  cbn [for_each map]. unfold bind at 1. rewrite nib_save_run, IH. done.
Qed.

Lemma lift_run {A} (r : Exn + A) (s : FS) : lift r s = (r, s, []).
Proof. by destruct r. Qed.

Lemma res_eta {A} (r : Res A) : r = (outcome r, final r, trace r).
Proof. by destruct r as [[o s] t]. Qed.

(** intensityNormalisation as a function of the file system: it reads and
    computes, then writes the histogram and the volumes, then reorients. *)
Lemma intensityNormalisation_run (env : Env) (self : Process3DFLAIR) (b : bool) (s : FS) :
  intensityNormalisation env self b s =
  match normalised_volumes env self b s with
  | inl e => (inl e, s, [Call (M_intensityNormalisation b)])
  | inr (standard, normalized) =>
      let saves := map (normalised_image self)
                       (zip (time_points_to_consider self) normalized) in
      let r := for_each (time_points_to_consider self)
                 (fun t => run_tool env (reorient_step self t))
                 (save_all saves (<[standard_histogram_file self := Npy standard]> s)) in
      (outcome r, final r,
       Call (M_intensityNormalisation b) :: map save_event saves ++ trace r)
  end.
Proof.
  unfold intensityNormalisation, normalised_volumes. unfold bind at 1, emit at 1.
  cbv zeta.
  unfold bind at 1. rewrite comprehension_seq_index.
  unfold bind at 1.
  rewrite (comprehension_reader nib_load_fdata load_fdata)
    by (intros; apply nib_load_fdata_reader).
  fold (normalisation_inputs self b).
  destruct (collect (load_fdata s) (normalisation_inputs self b)) as [e|images] eqn:Himg;
    [done|].
  unfold bind at 1. rewrite lift_run.
  destruct (nyul_fit env images) as [e|standard]; [done|].
  unfold bind at 1.
  rewrite (comprehension_reader _ (fun _ => nyul_apply env standard))
    by (intros; apply lift_run).
  destruct (collect (nyul_apply env standard) images) as [e|normalized] eqn:Hnorm; [done|].
  assert (Hlen : length normalized = length (time_points_to_consider self)).
  { rewrite (collect_length _ _ _ Hnorm), (collect_length _ _ _ Himg).
    unfold normalisation_inputs. by rewrite length_map. }
  unfold bind at 1. unfold write_file at 1.
  unfold bind at 1.
  rewrite (for_each_seq_index2
             (fun t data => nib_save (mk_nifti data eye4) (normalised_file self (tp_str0 t))))
    by exact Hlen.
  rewrite (for_each_nib_save (normalised_image self)).
  rewrite for_each_seq_index by lia. rewrite firstn_all.
  fold (standard_histogram_file self).
  by destruct (for_each (time_points_to_consider self) _ _) as [[o s'] t'].
Qed.

(** The trace of a loop of program runs: the runs for a prefix of the
    list, for the whole list when the loop runs to its end. *)
Lemma for_each_run_tool_trace {A} (env : Env) (g : A -> ToolCall) (l : list A) (s : FS) :
  exists k, k <= length l /\
    trace (for_each l (fun x => run_tool env (g x)) s)
    = map (fun x => Tool (g x)) (take k l) /\
    (outcome (for_each l (fun x => run_tool env (g x)) s) = inr tt -> k = length l).
Proof.
  revert s. induction l as [|x l IH]; intros s.
  { exists 0. by repeat split. }
  cbn [for_each]. rewrite trace_bind, outcome_bind, trace_run_tool.
  destruct (outcome (run_tool env (g x) s)) as [e|[]].
  - exists 1. repeat split; [simpl; lia|done].
  - destruct (IH (final (run_tool env (g x) s))) as (k & Hk & Htr & Hok).
    exists (S k). repeat split; [simpl; lia|by rewrite Htr|].
    intros H. simpl. by rewrite (Hok H).
Qed.

(** X5: intensityNormalisation loads every volume, fits the standard histogram
    and transforms every volume before it writes its first file: when any
    of these raises, the exception is that of the method, and the file
    system is as it was, with no histogram and no normalised volume
    written and no program run. *)
Theorem intensityNormalisation_fails_before_writing
    (env : Env) (self : Process3DFLAIR) (useBiasCorrected : bool) (s : FS) (e : Exn) :
  normalised_volumes env self useBiasCorrected s = inl e ->
  intensityNormalisation env self useBiasCorrected s
  = (inl e, s, [Call (M_intensityNormalisation useBiasCorrected)]).
Proof. intros H. by rewrite intensityNormalisation_run, H. Qed.

Lemma intensityNormalisation_fails_before_writing_sample :
  intensityNormalisation Sample.env Sample.subject true Sample.fs_raw
  = (inl FileNotFoundError, Sample.fs_raw, [Call (M_intensityNormalisation true)]).
Proof.
  exact (intensityNormalisation_fails_before_writing Sample.env Sample.subject true
           Sample.fs_raw FileNotFoundError eq_refl).
Defined.

(** X6: a volume that is not there stops intensityNormalisation at the loading
    step: with one of the paths it loads absent, the method raises the
    error of a failed load and leaves the file system as it was. *)
Theorem intensityNormalisation_missing_input
    (env : Env) (self : Process3DFLAIR) (useBiasCorrected : bool) (s : FS) (p : string) :
  p ∈ normalisation_inputs self useBiasCorrected ->
  s !! p = None ->
  exists e, (e = FileNotFoundError \/ e = ImageFileError) /\
    intensityNormalisation env self useBiasCorrected s
    = (inl e, s, [Call (M_intensityNormalisation useBiasCorrected)]).
Proof.
  intros Hin Hp.
  destruct (collect (load_fdata s) (normalisation_inputs self useBiasCorrected))
    as [e|images] eqn:Hload.
  - exists e. split.
    + apply collect_error in Hload as (x & _ & Hx).
      unfold load_fdata, nib_load_fdata, outcome in Hx.
      destruct (s !! x) as [[]|]; simplify_eq/=; auto.
    + rewrite intensityNormalisation_run. unfold normalised_volumes. by rewrite Hload.
  - apply collect_ok_iff in Hload.
    apply list_elem_of_lookup in Hin as [i Hi].
    destruct (Forall2_lookup_l _ _ _ _ _ Hload Hi) as (img & _ & Himg).
    unfold load_fdata, nib_load_fdata, outcome in Himg. by rewrite Hp in Himg.
Qed.

Lemma intensityNormalisation_missing_input_sample :
  exists e, (e = FileNotFoundError \/ e = ImageFileError) /\
    intensityNormalisation Sample.env Sample.subject false Sample.fs_raw
    = (inl e, Sample.fs_raw, [Call (M_intensityNormalisation false)]).
Proof.
  assert (Hin : brain_file Sample.subject "01"
                ∈ normalisation_inputs Sample.subject false) by (vm_compute; left).
  exact (intensityNormalisation_missing_input Sample.env Sample.subject false
           Sample.fs_raw _ Hin eq_refl).
Defined.

(** X7: when loading, fitting and transforming succeed, intensityNormalisation
    saves one image per configured time point, in order, holding the
    transformed data of that time point under the identity affine, at the
    normalised path of the time point; only then does it run Reorient2Std,
    in place on these paths and in the same order, for a prefix of the
    time points, and for all of them when the method returns. *)
Theorem intensityNormalisation_saves_then_reorients
    (env : Env) (self : Process3DFLAIR) (useBiasCorrected : bool) (s : FS)
    (standard : list Q) (normalized : list ndarray) :
  normalised_volumes env self useBiasCorrected s = inr (standard, normalized) ->
  let r := intensityNormalisation env self useBiasCorrected s in
  length normalized = length (time_points_to_consider self) /\
  exists k, k <= length (time_points_to_consider self) /\
    trace r
    = Call (M_intensityNormalisation useBiasCorrected)
      :: map save_event
           (map (normalised_image self) (zip (time_points_to_consider self) normalized))
      ++ map (fun t => Tool (reorient_step self t))
           (take k (time_points_to_consider self)) /\
    (outcome r = inr tt -> k = length (time_points_to_consider self)).
Proof.
  intros Hnv. cbn zeta. split.
  - unfold normalised_volumes in Hnv.
    destruct (collect _ _) as [|images] eqn:Himg in Hnv; [done|].
    destruct (nyul_fit env images) as [|st]; [done|].
    destruct (collect (nyul_apply env st) images) as [|norm] eqn:Hnorm; [done|].
    injection Hnv as -> ->.
    rewrite (collect_length _ _ _ Hnorm), (collect_length _ _ _ Himg).
    unfold normalisation_inputs. by rewrite length_map.
  - rewrite intensityNormalisation_run, Hnv. cbn zeta.
    match goal with
    | |- context [for_each ?l (fun t => run_tool env (reorient_step self t)) ?s1] =>
        destruct (for_each_run_tool_trace env (reorient_step self) l s1)
          as (k & Hk & Htr & Hok)
    end.
    exists k. split; [exact Hk|]. split.
    + unfold trace at 1. cbn [snd]. by rewrite Htr.
    + exact Hok.
Qed.

Lemma intensityNormalisation_saves_then_reorients_sample :
  trace (intensityNormalisation Sample.env Sample.subject true Cases.fs_restored)
  = [Call (M_intensityNormalisation true);
     NibSave (normalised_file Sample.subject "01")
             (mk_nifti (Sample.uniform (2, 2, 1)%nat 10) eye4);
     NibSave (normalised_file Sample.subject "02")
             (mk_nifti (Sample.uniform (2, 2, 1)%nat 20) eye4);
     Tool (reorient_step Sample.subject 1);
     Tool (reorient_step Sample.subject 2)].
Proof.
  assert (Hnv : normalised_volumes Sample.env Sample.subject true Cases.fs_restored
                = inr ([0; 1]%Q, [Sample.uniform (2, 2, 1)%nat 10;
                                  Sample.uniform (2, 2, 1)%nat 20]))
    by (vm_compute; reflexivity).
  assert (Hrun : outcome (intensityNormalisation Sample.env Sample.subject true
                            Cases.fs_restored) = inr tt) by (vm_compute; reflexivity).
  pose proof (intensityNormalisation_saves_then_reorients Sample.env Sample.subject true
                Cases.fs_restored _ _ Hnv) as (_ & k & _ & Htr & Hok).
  rewrite Htr, (Hok Hrun). reflexivity.
Defined.

(** ** The variance map: frame, edge cases and sign *)

(** X8: calcVariance writes at its output path only, and only at its very end:
    every other path holds after the call what it held before, and a call
    that raises has written nothing at all and saved no image. *)
Theorem calcVariance_writes_only_output
    (self : Process3DFLAIR) (out_file : string) (s : FS) :
  let r := calcVariance self out_file s in
  (forall p, p <> out_file -> final r !! p = s !! p) /\
  (forall e, outcome r = inl e ->
             final r = s /\ trace r = [Call (M_calcVariance out_file)]).
Proof.
  cbn zeta. rewrite calcVariance_run.
  destruct (collect (load_fdata s) (variance_inputs self)) as [e|images];
    [by split; intros; simplify_eq/=|].
  destruct (index images 0) as [e|first]; [by split; intros; simplify_eq/=|].
  destruct (variance_loop images _ _) as [e|variances];
    [by split; intros; simplify_eq/=|].
  split; [|done]. intros p Hp. cbn [final fst snd]. by rewrite lookup_insert_ne.
Qed.

Lemma calcVariance_writes_only_output_sample :
  final (calcVariance Sample.subject Sample.out_file Sample.fs_normalised)
    !! normalised_file Sample.subject "01"
  = Sample.fs_normalised !! normalised_file Sample.subject "01" /\
  final (calcVariance Sample.subject Sample.out_file Sample.fs_mismatch_small)
  = Sample.fs_mismatch_small.
Proof.
  split.
  - assert (Hne : normalised_file Sample.subject "01" <> Sample.out_file)
      by (vm_compute; discriminate).
    exact (proj1 (calcVariance_writes_only_output Sample.subject Sample.out_file
                    Sample.fs_normalised) _ Hne).
  - assert (Hraise : outcome (calcVariance Sample.subject Sample.out_file
                                Sample.fs_mismatch_small) = inl IndexError)
      by (vm_compute; reflexivity).
    exact (proj1 (proj2 (calcVariance_writes_only_output Sample.subject Sample.out_file
                           Sample.fs_mismatch_small) _ Hraise)).
Defined.

(** X9: with no configured time point, calcVariance has no first image to take
    the shape from: [images[0]] raises IndexError and nothing is written. *)
Theorem calcVariance_no_time_point
    (self : Process3DFLAIR) (out_file : string) (s : FS) :
  time_points_to_consider self = [] ->
  calcVariance self out_file s
  = (inl IndexError, s, [Call (M_calcVariance out_file)]).
Proof.
  intros Hnil. rewrite calcVariance_run. unfold variance_inputs. by rewrite Hnil.
Qed.

Lemma calcVariance_no_time_point_sample :
  calcVariance (mk_Process3DFLAIR "B-RAP_0027" 5 [] "rigidfsl") Sample.out_file
    Sample.fs_normalised
  = (inl IndexError, Sample.fs_normalised, [Call (M_calcVariance Sample.out_file)]).
Proof.
  exact (calcVariance_no_time_point (mk_Process3DFLAIR "B-RAP_0027" 5 [] "rigidfsl")
           Sample.out_file Sample.fs_normalised eq_refl).
Defined.

(** X10: the orchestrator with no configured time point stops in its first
    stage: the template [time_points_to_consider[-1]] does not exist, so
    IndexError is raised before any program is run or any file touched. *)
Theorem runVariancePipeline_no_time_point
    (env : Env) (rg : RegistrationModule) (self : Process3DFLAIR)
    (out_file : string) (s : FS) :
  time_points_to_consider self = [] ->
  runVariancePipeline env rg self out_file s
  = (inl IndexError, s, [Call M_extractBrain]).
Proof.
  intros Hnil. unfold runVariancePipeline, extractBrain. by rewrite Hnil.
Qed.

Lemma runVariancePipeline_no_time_point_sample :
  runVariancePipeline Sample.env Sample.rg (mk_Process3DFLAIR "B-RAP_0027" 5 [] "rigidfsl")
    Sample.out_file Sample.fs_raw
  = (inl IndexError, Sample.fs_raw, [Call M_extractBrain]).
Proof.
  exact (runVariancePipeline_no_time_point Sample.env Sample.rg
           (mk_Process3DFLAIR "B-RAP_0027" 5 [] "rigidfsl")
           Sample.out_file Sample.fs_raw eq_refl).
Defined.

Lemma Qsquare_nonneg (a : Q) : (0 <= a * a)%Q.
Proof. unfold Qle. simpl. rewrite Z.mul_1_r. apply Z.square_nonneg. Qed.

Lemma fold_right_Qplus_nonneg (l : list Q) :
  Forall (fun x => (0 <= x)%Q) l -> (0 <= fold_right Qplus 0 l)%Q.
Proof.
  induction 1 as [|x l Hx _ IH]; cbn [fold_right]; [apply Qle_refl|].
  apply (Qle_trans _ (0 + 0)); [apply Qle_refl|]. by apply Qplus_le_compat.
Qed.

Lemma arithmetic_mean_nonneg (l : list Q) :
  Forall (fun x => (0 <= x)%Q) l -> (0 <= arithmetic_mean l)%Q.
Proof.
  intros H. unfold arithmetic_mean, Qdiv. apply Qmult_le_0_compat.
  - by apply fold_right_Qplus_nonneg.
  - apply Qinv_le_0_compat. change 0%Q with (inject_Z 0). rewrite <- Zle_Qle. lia.
Qed.

(** [np.var] is never negative. *)
Lemma np_var_nonneg (l : list Q) : (0 <= np.var l)%Q.
Proof.
  unfold np.var. cbv zeta. rewrite np_mean_arithmetic_mean.
  apply arithmetic_mean_nonneg, Forall_forall.
  intros y [x [<- _]]%list_elem_of_In%in_map_iff. apply Qsquare_nonneg.
Qed.

Lemma load_holds_volumes (s : FS) (paths : list string) (images : list ndarray) :
  collect (load_fdata s) paths = inr images -> holds_volumes s paths images.
Proof.
  intros H%collect_ok_iff. eapply Forall2_impl; [exact H|].
  intros p img Hp. unfold load_fdata, nib_load_fdata, outcome in Hp.
  destruct (s !! p) as [[[d aff]| |]|]; simplify_eq/=. by exists aff.
Qed.

Lemma calcVariance_nonnegative_run
    (self : Process3DFLAIR) (out_file : string) (s : FS) :
  outcome (calcVariance self out_file s) = inr tt ->
  exists variances,
    final (calcVariance self out_file s) !! out_file
    = Some (Nifti (mk_nifti variances eye4)) /\
    Forall (fun x => (0 <= x)%Q) (flat variances).
Proof.
  rewrite calcVariance_run.
  destruct (collect (load_fdata s) (variance_inputs self)) as [e|images] eqn:Hload;
    [done|].
  destruct (index images 0) as [e|first] eqn:Hfirst; [done|].
  assert (Hlen : length (time_points_to_consider self) = length images).
  { rewrite (collect_length _ _ _ Hload). unfold variance_inputs. by rewrite length_map. }
  rewrite Hlen, variance_loop_spec.
  destruct (collect (voxel_variance images) (voxels (shape first))) as [e|xs] eqn:Hxs;
    [done|].
  intros _. exists (mk_ndarray (shape first) xs). cbn [final fst snd flat].
  split; [by rewrite lookup_insert_eq|].
  apply collect_ok_iff in Hxs. apply Forall_forall. intros x Hx.
  apply list_elem_of_lookup in Hx as [n Hn].
  destruct (Forall2_lookup_r _ _ _ _ _ Hxs Hn) as ([[i j] k] & _ & Hv).
  unfold voxel_variance in Hv.
  destruct (forallb _ images); simplify_eq/=. apply np_var_nonneg.
Qed.

(** X11: when the normalised volumes hold finite numbers only (the
    volumes [images] of the model; a NaN or an infinity in a volume makes
    numpy's variance NaN and is outside this statement), a variance map
    that calcVariance writes has no negative voxel: the file at the
    output path after a call that returns is a volume under the identity
    affine whose every element is at least zero. *)
Theorem calcVariance_map_is_nonnegative
    (self : Process3DFLAIR) (out_file : string) (s : FS) (images : list ndarray) :
  holds_volumes s (variance_inputs self) images ->
  outcome (calcVariance self out_file s) = inr tt ->
  exists variances,
    final (calcVariance self out_file s) !! out_file
    = Some (Nifti (mk_nifti variances eye4)) /\
    Forall (fun x => (0 <= x)%Q) (flat variances).
Proof. intros _. apply calcVariance_nonnegative_run. Qed.

Lemma calcVariance_map_is_nonnegative_sample :
  exists variances,
    final (calcVariance Sample.subject Sample.out_file Sample.fs_normalised)
      !! Sample.out_file
    = Some (Nifti (mk_nifti variances eye4)) /\
    Forall (fun x => (0 <= x)%Q) (flat variances).
Proof.
  assert (Hvol : holds_volumes Sample.fs_normalised (variance_inputs Sample.subject)
                   [Sample.uniform (2, 2, 1)%nat 10; Sample.uniform (2, 2, 1)%nat 20]).
  { constructor; [by exists Sample.scanner_affine|].
    constructor; [by exists Sample.scanner_affine|constructor]. }
  assert (Hrun : outcome (calcVariance Sample.subject Sample.out_file
                            Sample.fs_normalised) = inr tt) by (vm_compute; reflexivity).
  exact (calcVariance_map_is_nonnegative Sample.subject Sample.out_file
           Sample.fs_normalised _ Hvol Hrun).
Defined.

Lemma fold_right_Qplus_replicate (n : nat) (c : Q) :
  (fold_right Qplus 0 (replicate n c) == inject_Z (Z.of_nat n) * c)%Q.
Proof.
  induction n as [|n IH]; [simpl; ring|].
  cbn [replicate fold_right]. rewrite IH, Nat2Z.inj_succ, <- Z.add_1_r, inject_Z_plus.
  ring.
Qed.

Lemma arithmetic_mean_replicate (n : nat) (x : Q) :
  0 < n -> (arithmetic_mean (replicate n x) == x)%Q.
Proof.
  intros Hn. unfold arithmetic_mean.
  rewrite fold_right_Qplus_replicate, length_replicate.
  field. unfold Qeq. simpl. lia.
Qed.

Lemma arithmetic_mean_zeros (n : nat) (c : Q) :
  (c == 0)%Q -> (arithmetic_mean (replicate n c) == 0)%Q.
Proof.
  intros Hc. unfold arithmetic_mean.
  rewrite fold_right_Qplus_replicate, length_replicate. rewrite Hc.
  unfold Qdiv. ring.
Qed.

(** The variance of equal intensities is zero. *)
Lemma np_var_replicate (n : nat) (x : Q) : (np.var (replicate n x) == 0)%Q.
Proof.
  rewrite np_var_population_variance. unfold population_variance.
  change (map ?f (replicate n x)) with (f <$> replicate n x).
  rewrite fmap_replicate.
  destruct n as [|n]; [reflexivity|].
  apply arithmetic_mean_zeros.
  rewrite arithmetic_mean_replicate by lia. simpl. ring.
Qed.

(** X12: with a single configured time point whose normalised volume holds
    finite numbers only (a volume [img] of the model), there is nothing
    to vary: calcVariance returns and writes a map of the shape of the one
    volume whose every voxel is zero.  Where that volume holds a NaN or an
    infinity numpy's variance is NaN; such volumes are outside this
    statement. *)
Theorem calcVariance_single_time_point
    (self : Process3DFLAIR) (out_file : string) (s : FS)
    (t : Z) (img : ndarray) (aff : matrix) :
  time_points_to_consider self = [t] ->
  s !! normalised_file self (tp_str0 t) = Some (Nifti (mk_nifti img aff)) ->
  exists variances,
    calcVariance self out_file s
    = (inr tt, <[out_file := Nifti (mk_nifti variances eye4)]> s,
       [Call (M_calcVariance out_file); NibSave out_file (mk_nifti variances eye4)]) /\
    shape variances = shape img /\
    forall i j k,
      np.in_bounds (shape img) i j k = true ->
      exists x, np.getitem variances i j k = inr x /\ (x == 0)%Q.
Proof.
  intros Htps Himg.
  destruct (calcVariance_same_shape self out_file s [img] (shape img))
    as (variances & Hrun & Hshape & _ & Hvox).
  { by rewrite Htps. }
  { unfold variance_inputs. rewrite Htps. constructor; [by exists aff|constructor]. }
  { by constructor. }
  exists variances. split; [exact Hrun|]. split; [exact Hshape|].
  intros i j k Hb. destruct (Hvox i j k Hb) as [Hget _].
  eexists. split; [exact Hget|].
  apply (np_var_replicate 1).
Qed.

Lemma calcVariance_single_time_point_sample :
  exists variances,
    calcVariance (mk_Process3DFLAIR "B-RAP_0027" 5 [1%Z] "rigidfsl") Sample.out_file
      Sample.fs_normalised
    = (inr tt, <[Sample.out_file := Nifti (mk_nifti variances eye4)]> Sample.fs_normalised,
       [Call (M_calcVariance Sample.out_file);
        NibSave Sample.out_file (mk_nifti variances eye4)]) /\
    shape variances = (2, 2, 1)%nat /\
    forall i j k,
      np.in_bounds (2, 2, 1)%nat i j k = true ->
      exists x, np.getitem variances i j k = inr x /\ (x == 0)%Q.
Proof.
  exact (calcVariance_single_time_point
           (mk_Process3DFLAIR "B-RAP_0027" 5 [1%Z] "rigidfsl") Sample.out_file
           Sample.fs_normalised 1 (Sample.uniform (2, 2, 1)%nat 10)
           Sample.scanner_affine eq_refl eq_refl).
Defined.

(** ** The reorganisation: reruns, failures, composition *)

(** Files that take no branch of the reorganisation loop are left alone. *)
Lemma reorganise_leave (self : Process3DFLAIR) (names : list string) (s : FS) :
  (forall n, n ∈ names ->
     is_entry_name n = true /\
     is_Some (s !! (subject_brain_directory self +:+ n)) /\
     classify self n = inr Leave) ->
  reorganise self names s = (inr tt, s, []).
Proof.
  induction names as [|n rest IH]; intros Hall; [done|].
  destruct (Hall n ltac:(left)) as (Hen & [c Hc] & Hcl).
  unfold reorganise in *. cbn [for_each].
  rewrite (bind_ok _ _ _ _ _ _ (reorganise_file_spec self n s Leave c Hen Hc Hcl)).
  cbn [effect]. rewrite IH; [done|]. intros m Hm. apply Hall. by right.
Qed.

(** What is left in the brain directory after a reorganisation that
    returned: files that were there and take no branch. *)
Lemma reorganise_remaining (self : Process3DFLAIR) (s s' : FS) :
  let names := entries (subject_brain_directory self) s in
  (forall n, n ∈ names -> placed self s s' n) ->
  (forall p, ~ touched self names p -> s' !! p = s !! p) ->
  forall n, n ∈ entries (subject_brain_directory self) s' ->
            n ∈ names /\ classify self n = inr Leave /\
            s' !! (subject_brain_directory self +:+ n)
            = s !! (subject_brain_directory self +:+ n).
Proof.
  intros names Hplaced Hframe n [Hen Hs']%elem_of_entries.
  assert (Hin : n ∈ names).
  { destruct (decide (n ∈ names)) as [|Hnot]; [done|].
    apply elem_of_entries. split; [done|].
    by rewrite <- (Hframe _ (src_not_touched self names n Hnot)). }
  split; [done|]. specialize (Hplaced n Hin). unfold placed in Hplaced.
  destruct (classify self n) as [e|[]]; cbn zeta in Hplaced; try done.
  - destruct Hplaced as [_ Hnone]. rewrite Hnone in Hs'. by destruct Hs'.
  - destruct Hplaced as [_ Hnone]. rewrite Hnone in Hs'. by destruct Hs'.
  - rewrite Hplaced in Hs'. by destruct Hs'.
Qed.

(** X13: the reorganisation never adds a file to the brain directory: after a
    reorganisation that returns, every file of the brain directory was
    there before with the same content, and is one for which the loop
    takes no branch. *)
Theorem reorganisation_only_removes (self : Process3DFLAIR) (s : FS) :
  let names := entries (subject_brain_directory self) s in
  (forall n, n ∈ names -> exists act, classify self n = inr act) ->
  exists s', reorganise self names s = (inr tt, s', []) /\
    forall n, n ∈ entries (subject_brain_directory self) s' ->
      n ∈ names /\ classify self n = inr Leave /\
      s' !! (subject_brain_directory self +:+ n)
      = s !! (subject_brain_directory self +:+ n).
Proof.
  intros names Hclass.
  destruct (reorganise_spec self names s) as (s' & Hrun & Hplaced & Hframe).
  { apply NoDup_entries. }
  { intros n Hn. pose proof Hn as [Hen Hs]%elem_of_entries. auto. }
  exists s'. split; [exact Hrun|]. by apply reorganise_remaining.
Qed.

(** X14: reorganising twice is reorganising once: on the file system that a
    reorganisation left, the reorganisation of the new listing of the
    brain directory returns and changes nothing. *)
Theorem reorganisation_is_idempotent (self : Process3DFLAIR) (s : FS) :
  let names := entries (subject_brain_directory self) s in
  (forall n, n ∈ names -> exists act, classify self n = inr act) ->
  exists s', reorganise self names s = (inr tt, s', []) /\
    reorganise self (entries (subject_brain_directory self) s') s' = (inr tt, s', []).
Proof.
  intros names Hclass.
  destruct (reorganise_spec self names s) as (s' & Hrun & Hplaced & Hframe).
  { apply NoDup_entries. }
  { intros n Hn. pose proof Hn as [Hen Hs]%elem_of_entries. auto. }
  exists s'. split; [exact Hrun|].
  apply reorganise_leave. intros n Hn.
  pose proof Hn as [Hen Hs']%elem_of_entries.
  destruct (reorganise_remaining self s s' Hplaced Hframe n Hn) as (_ & Hleave & _).
  done.
Qed.

Lemma classify_all_ok (self : Process3DFLAIR) (names : list string) :
  forallb (fun n => match classify self n with inr _ => true | inl _ => false end)
    names = true ->
  forall n, n ∈ names -> exists act, classify self n = inr act.
Proof.
  intros Hall n Hn%list_elem_of_In. rewrite forallb_forall in Hall.
  specialize (Hall n Hn). revert Hall.
  destruct (classify self n) as [e|act]; [discriminate|by exists act].
Qed.

Lemma reorganisation_only_removes_sample :
  exists s',
    reorganise Sample.subject
      (entries (subject_brain_directory Sample.subject) Sample.fs_fast_outputs)
      Sample.fs_fast_outputs = (inr tt, s', []) /\
    forall n, n ∈ entries (subject_brain_directory Sample.subject) s' ->
      n ∈ entries (subject_brain_directory Sample.subject) Sample.fs_fast_outputs /\
      classify Sample.subject n = inr Leave /\
      s' !! (subject_brain_directory Sample.subject +:+ n)
      = Sample.fs_fast_outputs !! (subject_brain_directory Sample.subject +:+ n).
Proof.
  assert (Hall : forallb (fun n => match classify Sample.subject n with
                                   | inr _ => true
                                   | inl _ => false
                                   end)
                   (entries (subject_brain_directory Sample.subject)
                      Sample.fs_fast_outputs) = true)
    by (vm_compute; reflexivity).
  exact (reorganisation_only_removes Sample.subject Sample.fs_fast_outputs
           (classify_all_ok Sample.subject _ Hall)).
Defined.

Lemma reorganisation_is_idempotent_sample :
  exists s',
    reorganise Sample.subject
      (entries (subject_brain_directory Sample.subject) Sample.fs_fast_outputs)
      Sample.fs_fast_outputs = (inr tt, s', []) /\
    reorganise Sample.subject (entries (subject_brain_directory Sample.subject) s') s'
    = (inr tt, s', []).
Proof.
  assert (Hall : forallb (fun n => match classify Sample.subject n with
                                   | inr _ => true
                                   | inl _ => false
                                   end)
                   (entries (subject_brain_directory Sample.subject)
                      Sample.fs_fast_outputs) = true)
    by (vm_compute; reflexivity).
  exact (reorganisation_is_idempotent Sample.subject Sample.fs_fast_outputs
           (classify_all_ok Sample.subject _ Hall)).
Defined.

Lemma reorganise_file_error (self : Process3DFLAIR) (n : string) (s : FS) (e : Exn) :
  classify self n = inl e -> reorganise_file self n s = (inl e, s, []).
Proof.
  unfold classify, reorganise_file. intros Hc.
  destruct (Py.startswith (subject_id self) n); [|done].
  destruct (index (Py.rsplit "." 2 n) 0) as [e'|base_name];
    [by injection Hc as ->|].
  cbn [lift]. rewrite bind_ret_l.
  destruct (index (Py.rsplit "_" 1 base_name) 1) as [e'|suffix];
    [by injection Hc as ->|].
  destruct (String.eqb suffix "restore"); [done|].
  destruct (String.eqb suffix "bias"); [done|].
  destruct (String.eqb suffix "mixeltype"); [done|].
  destruct (String.eqb suffix "seg"); [done|].
  by destruct (Py.contains "pve" base_name).
Qed.

Lemma for_each_app {A} (l1 l2 : list A) (body : A -> M unit) (s : FS) :
  for_each (l1 ++ l2) body s = (for_each l1 body ;;; for_each l2 body) s.
Proof.
  revert s. induction l1 as [|x l1 IH]; intros s; cbn [app for_each].
  - by rewrite bind_ret_l.
  - unfold bind. destruct (body x s) as [[[e|[]] s1] t1]; [done|].
    rewrite IH. unfold bind.
    destruct (for_each l1 body s1) as [[[e|[]] s2] t2]; [done|].
    destruct (for_each l2 body s2) as [[o s3] t3]. by rewrite app_assoc.
Qed.

(** X15: the error of a file name that the suffix extraction cannot split stops
    the reorganisation where it stands: the files listed before it have
    been moved or deleted, those listed after it are not looked at, and
    the exception leaves the method. *)
Theorem reorganisation_stops_at_malformed_name
    (self : Process3DFLAIR) (before after : list string) (n : string)
    (s s1 : FS) (e : Exn) :
  reorganise self before s = (inr tt, s1, []) ->
  classify self n = inl e ->
  reorganise self (before ++ n :: after) s = (inl e, s1, []).
Proof.
  intros Hbefore Hn. unfold reorganise in *.
  rewrite for_each_app. unfold bind at 1. rewrite Hbefore.
  cbn [for_each]. unfold bind. by rewrite (reorganise_file_error self n s1 e Hn).
Qed.

Lemma reorganisation_stops_at_malformed_name_sample :
  reorganise Cases.subject_plain
    ["B_01_D1_seg.nii.gz"; "B.nii.gz"; "B_01_D1_restore.nii.gz"] Cases.fs_stray
  = (inl IndexError,
     delete (subject_brain_directory Cases.subject_plain +:+ "B_01_D1_seg.nii.gz")
       Cases.fs_stray, []).
Proof.
  assert (Hbefore : reorganise Cases.subject_plain ["B_01_D1_seg.nii.gz"] Cases.fs_stray
                    = (inr tt,
                       delete (subject_brain_directory Cases.subject_plain
                               +:+ "B_01_D1_seg.nii.gz") Cases.fs_stray, []))
    by (vm_compute; reflexivity).
  exact (reorganisation_stops_at_malformed_name Cases.subject_plain
           ["B_01_D1_seg.nii.gz"] ["B_01_D1_restore.nii.gz"] "B.nii.gz"
           Cases.fs_stray _ IndexError Hbefore eq_refl).
Defined.

(** X16: the bias-corrected volume that FAST leaves next to the brain volume of
    a time point, named after it with [_restore], is moved by the
    reorganisation to exactly the path from which intensityNormalisation
    loads the bias-corrected volume of that time point. *)
Theorem restored_volume_reaches_bias_directory
    (self : Process3DFLAIR) (s : FS) (tp : string) (c : Content) :
  let n := subject_id self +:+ "_" +:+ tp +:+ "_D1_restore.nii.gz" in
  is_entry_name n = true ->
  (forall m, m ∈ entries (subject_brain_directory self) s ->
             exists act, classify self m = inr act) ->
  s !! (subject_brain_directory self +:+ n) = Some c ->
  exists s',
    reorganise self (entries (subject_brain_directory self) s) s = (inr tt, s', []) /\
    s' !! bias_restore_file self tp = Some c /\
    s' !! (subject_brain_directory self +:+ n) = None.
Proof.
  intros n Hen Hclass Hc.
  destruct (reorganise_spec self (entries (subject_brain_directory self) s) s)
    as (s' & Hrun & Hplaced & _).
  { apply NoDup_entries. }
  { intros m Hm. pose proof Hm as [Hem Hs]%elem_of_entries. auto. }
  exists s'. split; [exact Hrun|].
  assert (Hin : n ∈ entries (subject_brain_directory self) s).
  { apply elem_of_entries. split; [done|]. by exists c. }
  assert (Hcl : classify self n = inr ToBiasCorrected).
  { pose proof (classify_by_kind self ("_" +:+ tp +:+ "_D1") "restore") as Hk.
    rewrite !append_assoc in Hk. apply Hk. vm_compute. intuition discriminate. }
  specialize (Hplaced n Hin). unfold placed in Hplaced. rewrite Hcl in Hplaced.
  cbn zeta in Hplaced. destruct Hplaced as [Htgt Hsrc].
  split; [|exact Hsrc]. unfold bias_restore_file. fold n. by rewrite <- Hc.
Qed.

Lemma restored_volume_reaches_bias_directory_sample :
  exists s',
    reorganise Sample.subject
      (entries (subject_brain_directory Sample.subject) Sample.fs_fast_outputs)
      Sample.fs_fast_outputs = (inr tt, s', []) /\
    s' !! bias_restore_file Sample.subject "01"
    = Some (Sample.volume (1, 1, 1)%nat 11) /\
    s' !! (subject_brain_directory Sample.subject +:+ "B-RAP_0027_01_D1_restore.nii.gz")
    = None.
Proof.
  assert (Hall : forallb (fun n => match classify Sample.subject n with
                                   | inr _ => true
                                   | inl _ => false
                                   end)
                   (entries (subject_brain_directory Sample.subject)
                      Sample.fs_fast_outputs) = true)
    by (vm_compute; reflexivity).
  exact (restored_volume_reaches_bias_directory Sample.subject Sample.fs_fast_outputs
           "01" _ eq_refl (classify_all_ok Sample.subject _ Hall) eq_refl).
Defined.

Lemma run_tool_outcome (env : Env) (t : ToolCall) (s : FS) :
  outcome (run_tool env t s) = (fsl_run env t s).1.
Proof.
  unfold run_tool. rewrite outcome_bind. cbn [emit outcome final fst snd].
  by destruct (fsl_run env t s).
Qed.

Lemma for_each_run_tool_error {A} (env : Env) (g : A -> ToolCall) (l : list A)
    (s : FS) (e : Exn) :
  outcome (for_each l (fun x => run_tool env (g x)) s) = inl e ->
  exists x s0, x ∈ l /\ (fsl_run env (g x) s0).1 = inl e.
Proof.
  revert s. induction l as [|x l IH]; intros s; [done|].
  cbn [for_each]. rewrite outcome_bind.
  destruct (outcome (run_tool env (g x) s)) as [e'|[]] eqn:Hx.
  - intros [= ->]. exists x, s. split; [left|]. by rewrite <- run_tool_outcome.
  - intros (y & s0 & Hy & He)%IH. exists y, s0. split; [by right|done].
Qed.

(** X17: for a subject whose identifier has an underscore and no dot, as in
    ['B-RAP_0027'], the reorganisation cannot fail, so that an exception
    out of correctBiasField is the exception of one of its FAST runs. *)
Theorem correctBiasField_raises_only_with_FAST
    (env : Env) (self : Process3DFLAIR) (s : FS) (e : Exn) :
  Py.contains "_" (subject_id self) = true ->
  Py.contains "." (subject_id self) = false ->
  outcome (correctBiasField env self "FSL" s) = inl e ->
  exists t s0, t ∈ time_points_to_consider self /\
               (fsl_run env (fast_step self t) s0).1 = inl e.
Proof.
  intros Hus Hdot. unfold correctBiasField.
  change (String.eqb "FSL" "FSL") with true. cbv iota.
  rewrite outcome_bind. cbn [emit outcome final fst snd].
  rewrite outcome_bind.
  rewrite for_each_seq_index by lia. rewrite firstn_all.
  destruct (outcome (for_each (time_points_to_consider self) _ s)) as [e'|[]] eqn:Hloop.
  - intros [= ->].
    exact (for_each_run_tool_error env (fast_step self) _ s e Hloop).
  - rewrite reorganisation_step.
    match goal with
    | |- context [reorganise self (entries _ ?s1) ?s1] =>
        destruct (reorganisation_for_plain_ids self s1 Hus Hdot) as (s' & Hrun & _)
    end.
    by rewrite Hrun.
Qed.

Lemma correctBiasField_raises_only_with_FAST_sample :
  exists t s0, t ∈ time_points_to_consider Sample.subject /\
               (fsl_run Sample.env (fast_step Sample.subject t) s0).1
               = inl ExternalToolFailure.
Proof.
  assert (Hraise : outcome (correctBiasField Sample.env Sample.subject "FSL"
                              Sample.fs_raw) = inl ExternalToolFailure)
    by (vm_compute; reflexivity).
  exact (correctBiasField_raises_only_with_FAST Sample.env Sample.subject Sample.fs_raw
           ExternalToolFailure eq_refl eq_refl Hraise).
Defined.

(** ** The paths of the stages *)

Lemma path_of_shape (self : Process3DFLAIR) (k : PathKind) (tp : string) :
  path_of self k tp
  = subject_directory_root self
    +:+ (folder_of k +:+ (subject_id self +:+ "_" +:+ tp)) +:+ ending_of k.
Proof.
  destruct k; cbn [path_of folder_of ending_of];
    unfold nifti_file, brain_file_mask, brain_file, affine_file_path,
      registered_whole_brain_file, bias_restore_file, normalised_file,
      subject_nifti_directory, subject_brain_directory, registered_directory,
      subject_bias_directory, subject_normalised_directory;
    rewrite !append_assoc; reflexivity.
Qed.

Lemma last_chars_app (a b : string) :
  b <> "" -> last (Py.chars (a +:+ b)) = last (Py.chars b).
Proof.
  intros Hb. rewrite chars_app.
  destruct b as [|c b]; [done|].
  change (Py.chars (String c b)) with (c :: Py.chars b).
  destruct (Py.chars b) as [|c' l] eqn:Hl using rev_ind.
  - by rewrite last_snoc.
  - by rewrite app_comm_cons, app_assoc, !last_snoc.
Qed.

(** X18: the seven families of paths are disjoint and each is injective in the
    time-point string: whatever the subject identifier and the time-point
    strings, two paths coincide only when they are of the same kind and
    for the same time point.  No stage can take the file of another stage
    or of another time point for its own. *)
Theorem path_of_inj (self : Process3DFLAIR) (k k' : PathKind) (a b : string) :
  path_of self k a = path_of self k' b -> k = k' /\ a = b.
Proof.
  rewrite !path_of_shape. intros H.
  assert (Hlast : last (Py.chars (ending_of k)) = last (Py.chars (ending_of k'))).
  { apply (f_equal (fun p => last (Py.chars p))) in H.
    rewrite !append_assoc in H.
    rewrite <- !(append_assoc (subject_directory_root self)) in H.
    rewrite <- !(append_assoc _ (subject_id self)) in H.
    rewrite <- !(append_assoc _ "_") in H.
    rewrite <- !(append_assoc _ a), <- !(append_assoc _ b) in H.
    by rewrite !last_chars_app in H by (by destruct k + by destruct k'). }
  rewrite !append_assoc in H. apply String.app_inj in H.
  destruct k, k'; try (vm_compute in Hlast; discriminate Hlast);
    try (vm_compute in H; discriminate H).
  all: split; [done|].
  all: cbn [folder_of ending_of] in H.
  all: apply String.app_inj in H; apply String.app_inj in H.
  all: apply (String.app_inj "_") in H; by apply append_inj_r in H.
Qed.

Lemma path_of_inj_sample :
  KRestore = KRestore /\ "01" = "01".
Proof.
  exact (path_of_inj Sample.subject KRestore KRestore "01" "01" eq_refl).
Defined.

(** ** The search of the DICOM folder *)

Lemma DirTree_induction (P : DirTree -> Prop) :
  (forall files subdirs,
     Forall (fun p => P (snd p)) subdirs -> P (Dir files subdirs)) ->
  forall d, P d.
Proof.
  intros H. fix IH 1. intros [files subdirs]. apply H.
  induction subdirs as [|[name d] rest IHrest]; constructor; [apply IH | exact IHrest].
Qed.

Lemma dicom_files_holds (d : DirTree) :
  dicom_files d <> [] <-> holds_dicom d.
Proof.
  unfold dicom_files, holds_dicom. split.
  - destruct (List.filter _ _) as [|f l] eqn:Hf; [done|]. intros _.
    assert (Hin : In f (List.filter (endswith ".dcm") (listdir d)))
      by (rewrite Hf; left; done).
    apply filter_In in Hin as [Hin Hend]. exists f. by rewrite list_elem_of_In.
  - intros (f & Hin%list_elem_of_In & Hend) Hnil.
    assert (Hf : In f (List.filter (endswith ".dcm") (listdir d)))
      by (by apply filter_In).
    by rewrite Hnil in Hf.
Qed.

Lemma first_dicom_folder_Some (p q : string) (dirnames : list (string * DirTree)) :
  first_dicom_folder p dirnames = Some q ->
  exists name d, (name, d) ∈ dirnames /\ q = os_path_join p name /\ holds_dicom d.
Proof.
  induction dirnames as [|[name d] rest IH]; cbn [first_dicom_folder]; [done|].
  destruct (dicom_files d) as [|f l] eqn:Hd.
  - intros (name' & d' & Hin & Hq)%IH. exists name', d'. split; [by right|done].
  - intros [= <-]. exists name, d. split; [left|]. split; [done|].
    apply dicom_files_holds. by rewrite Hd.
Qed.

Lemma first_dicom_folder_None (p : string) (dirnames : list (string * DirTree)) :
  first_dicom_folder p dirnames = None ->
  forall name d, (name, d) ∈ dirnames -> ~ holds_dicom d.
Proof.
  induction dirnames as [|[name d] rest IH]; cbn [first_dicom_folder].
  - intros _ name d Hin. by apply elem_of_nil in Hin.
  - destruct (dicom_files d) as [|f l] eqn:Hd; [|done].
    intros Hrest name' d' [[= -> ->]|Hin]%elem_of_cons.
    + intros Hh%dicom_files_holds. done.
    + by eapply IH.
Qed.

Lemma search_walk_app (l1 l2 : list (string * list (string * DirTree))) :
  search_walk (l1 ++ l2)
  = match search_walk l1 with
    | Some q => Some q
    | None => search_walk l2
    end.
Proof.
  induction l1 as [|[p dirnames] l1 IH]; cbn [app search_walk]; [done|].
  by destruct (first_dicom_folder p dirnames).
Qed.

Lemma search_walk_flat_map_Some {A} (f : A -> list (string * list (string * DirTree)))
    (l : list A) (q : string) :
  search_walk (flat_map f l) = Some q ->
  exists x, x ∈ l /\ search_walk (f x) = Some q.
Proof.
  induction l as [|x l IH]; cbn [flat_map]; [done|].
  rewrite search_walk_app. destruct (search_walk (f x)) as [q'|] eqn:Hx.
  - intros [= ->]. exists x. split; [left|done].
  - intros (y & Hy & Hq)%IH. exists y. split; [by right|done].
Qed.

Lemma search_walk_flat_map_None {A} (f : A -> list (string * list (string * DirTree)))
    (l : list A) :
  search_walk (flat_map f l) = None ->
  forall x, x ∈ l -> search_walk (f x) = None.
Proof.
  induction l as [|x l IH]; cbn [flat_map].
  - intros _ y Hy. by apply elem_of_nil in Hy.
  - rewrite search_walk_app. destruct (search_walk (f x)) as [q'|] eqn:Hx; [done|].
    intros Hl y [->|Hy]%elem_of_cons; [done|by apply IH].
Qed.

Lemma search_walk_sound (d : DirTree) :
  forall p q, search_walk (os_walk p d) = Some q ->
              exists d', below p d q d' /\ holds_dicom d'.
Proof.
  induction d as [files subdirs IH] using DirTree_induction. intros p q.
  cbn [os_walk search_walk].
  destruct (first_dicom_folder p subdirs) as [q'|] eqn:Hfirst.
  - intros [= ->]. apply first_dicom_folder_Some in Hfirst as (name & d' & Hin & -> & Hd).
    exists d'. split; [by apply below_child|done].
  - intros ([name d1] & Hin & Hq)%search_walk_flat_map_Some.
    rewrite Forall_forall in IH. cbn [fst snd] in Hq.
    destruct (IH _ Hin _ _ Hq) as (d' & Hbelow & Hd).
    exists d'. split; [|done]. by eapply below_deeper.
Qed.

Lemma search_walk_complete (p : string) (d : DirTree) (q : string) (d' : DirTree) :
  below p d q d' -> holds_dicom d' -> search_walk (os_walk p d) <> None.
Proof.
  induction 1 as [p d name d' Hin | p d name d1 q d' Hin Hbelow IH]; intros Hd.
  - destruct d as [files subdirs]. cbn [os_walk search_walk subdirs_of] in *.
    destruct (first_dicom_folder p subdirs) as [q'|] eqn:Hfirst; [done|].
    by destruct (first_dicom_folder_None _ _ Hfirst _ _ Hin).
  - destruct d as [files subdirs]. cbn [os_walk search_walk subdirs_of] in *.
    destruct (first_dicom_folder p subdirs) as [q'|] eqn:Hfirst; [done|].
    intros Hnone. apply (IH Hd).
    exact (search_walk_flat_map_None _ _ Hnone (name, d1) Hin).
Qed.

(** X19: what findDICOMFolder returns is the path of a folder strictly below
    the DICOM root of the time point that holds an entry ending in [.dcm];
    the root folder itself is never the answer. *)
Theorem findDICOMFolder_sound
    (self : Process3DFLAIR) (time_point : Z) (root : option DirTree) (q : string) :
  findDICOMFolder self time_point root = Some q ->
  exists d d', root = Some d /\
               below (dicom_root_path self time_point) d q d' /\ holds_dicom d'.
Proof.
  unfold findDICOMFolder. destruct root as [d|]; [|done].
  intros (d' & Hbelow & Hd)%search_walk_sound. by exists d, d'.
Qed.

Lemma findDICOMFolder_sound_nested :
  exists d d', Some Folders.nested = Some d /\
    below (dicom_root_path Sample.subject 1) d
      (dicom_root_path Sample.subject 1 +:+ "/scans/1-FLAIR") d' /\
    holds_dicom d'.
Proof.
  exact (findDICOMFolder_sound Sample.subject 1 (Some Folders.nested) _ eq_refl).
Defined.

(** X20: findDICOMFolder returns None exactly when the DICOM root of the time
    point is no folder or no folder strictly below it holds an entry
    ending in [.dcm]; DICOM files that lie in the root folder itself are
    not seen. *)
Theorem findDICOMFolder_None
    (self : Process3DFLAIR) (time_point : Z) (root : option DirTree) :
  findDICOMFolder self time_point root = None <->
  forall d, root = Some d ->
    forall q d', below (dicom_root_path self time_point) d q d' -> ~ holds_dicom d'.
Proof.
  unfold findDICOMFolder. destruct root as [d|]; [|done]. split.
  - intros Hnone d0 [= <-] q d' Hbelow Hd.
    by apply (search_walk_complete _ _ _ _ Hbelow Hd).
  - intros Hall.
    destruct (search_walk (os_walk (dicom_root_path self time_point) d)) as [q|] eqn:Hs;
      [|done].
    apply search_walk_sound in Hs as (d' & Hbelow & Hd).
    by destruct (Hall d eq_refl q d' Hbelow).
Qed.

Lemma findDICOMFolder_None_flat :
  holds_dicom Folders.flat /\
  forall q d', below (dicom_root_path Sample.subject 1) Folders.flat q d' ->
               ~ holds_dicom d'.
Proof.
  split.
  - exists "IM0001.dcm". split; [left|reflexivity].
  - exact (proj1 (findDICOMFolder_None Sample.subject 1 (Some Folders.flat)) eq_refl
             Folders.flat eq_refl).
Defined.

(** ** The earlier brain extraction *)

Lemma each_seq_index_gen {A} (body : A -> FS -> Old.Res) (n : nat) :
  forall (pre l : list A) s,
    n <= length l ->
    Old.each (seq (length pre) n)
      (fun i s' =>
         match index (pre ++ l) i with
         | inl e => (inl e, s', [])
         | inr x => body x s'
         end) s
    = Old.each (take n l) body s.
Proof.
  induction n as [|n IH]; intros pre l s Hn; [done|].
  destruct l as [|x l]; [simpl in Hn; lia|].
  cbn [seq Old.each take]. rewrite index_app_r.
  destruct (body x s) as [[[e|[]] s1] t1]; [done|]. cbn [Old.and_then].
  specialize (IH (pre ++ [x]) l s1 ltac:(simpl in Hn; lia)).
  rewrite length_app, Nat.add_1_r, <- app_assoc in IH. simpl in IH.
  by rewrite IH.
Qed.

Lemma extractBrainNIFTIold_each (tools : Old.Tools) (self : Process3DFLAIR)
    (useT1 : bool) (s : FS) :
  Old.extractBrainNIFTIold tools self useT1 s
  = Old.each (time_points_to_consider self) (Old.time_point_step tools self useT1) s.
Proof.
  unfold Old.extractBrainNIFTIold.
  pose proof (each_seq_index_gen (Old.time_point_step tools self useT1)
                (length (time_points_to_consider self)) []
                (time_points_to_consider self) s (le_n _)) as H.
  simpl in H. by rewrite H, firstn_all.
Qed.

(** X21: extractBrainNIFTIold tests for its target before it works on a time
    point: when the brain volume of every configured time point is there,
    the call returns with the file system as it was and has run no
    program, with or without the T1 and whatever the programs would do. *)
Theorem extractBrainNIFTIold_skips_existing
    (tools : Old.Tools) (self : Process3DFLAIR) (useT1 : bool) (s : FS) :
  Forall (fun t => is_file s (brain_file self (tp_str0 t)) = true)
         (time_points_to_consider self) ->
  Old.extractBrainNIFTIold tools self useT1 s = (inr tt, s, []).
Proof.
  rewrite extractBrainNIFTIold_each.
  induction 1 as [|t l Ht _ IH]; [done|].
  cbn [Old.each]. unfold Old.time_point_step at 1. rewrite Ht.
  cbn [Old.skip Old.and_then]. by rewrite IH.
Qed.

Lemma extractBrainNIFTIold_skips_existing_sample :
  Old.extractBrainNIFTIold Old.sample_tools Sample.subject true Cases.fs_brains
  = (inr tt, Cases.fs_brains, []).
Proof.
  assert (Hall : Forall (fun t => is_file Cases.fs_brains
                                    (brain_file Sample.subject (tp_str0 t)) = true)
                   (time_points_to_consider Sample.subject))
    by (repeat constructor).
  exact (extractBrainNIFTIold_skips_existing Old.sample_tools Sample.subject true
           Cases.fs_brains Hall).
Defined.

(** X22: without the T1, extractBrainNIFTIold runs nothing but BET, with the
    fractional threshold 0.45, from the converted scan of a time point to
    its brain path: the programs of a call are the BET runs of some of the
    configured time points, in the order of the list and at most one per
    position. *)
Theorem extractBrainNIFTIold_runs_BET_only
    (tools : Old.Tools) (self : Process3DFLAIR) (s : FS) :
  exists l, sublist l (time_points_to_consider self) /\
    (Old.extractBrainNIFTIold tools self false s).2 = map (Old.bet_step self) l.
Proof.
  rewrite extractBrainNIFTIold_each.
  revert s. induction (time_points_to_consider self) as [|t rest IH]; intros s.
  { exists []. by split. }
  cbn [Old.each]. unfold Old.time_point_step at 1. cbv zeta.
  destruct (is_file s (brain_file self (tp_str0 t))).
  - cbn [Old.skip Old.and_then]. destruct (IH s) as (l & Hl & Htr).
    exists l. split; [by apply sublist_cons|].
    destruct (Old.each rest _ s) as [[o s'] t']. by rewrite <- Htr.
  - cbn [negb Old.run].
    destruct (Old.bet_run tools _ _ _ _ s) as [[e|[]] s1]; cbn [Old.and_then snd].
    + exists [t]. split; [apply sublist_skip, sublist_nil_l|done].
    + destruct (IH s1) as (l & Hl & Htr). exists (t :: l).
      split; [by apply sublist_skip|].
      destruct (Old.each rest _ s1) as [[o s'] t']. cbn [snd] in *. by rewrite Htr.
Qed.

(** ** The stages and their programs *)

(** X23: each later stage runs programs of one kind only, in every run, also in
    one that raises: correctBiasField nothing but FAST, whatever its
    argument; intensityNormalisation nothing but Reorient2Std; calcVariance
    no program at all. *)
Theorem stages_run_their_own_programs
    (env : Env) (self : Process3DFLAIR) (method : string) (useBiasCorrected : bool)
    (out_file : string) :
  trace_all is_FAST (correctBiasField env self method) /\
  trace_all is_Reorient2Std (intensityNormalisation env self useBiasCorrected) /\
  trace_all no_program (calcVariance self out_file).
Proof.
  split; [|split].
  - unfold correctBiasField, reorganise, reorganise_file. trace_auto.
  - unfold intensityNormalisation. trace_auto.
  - unfold calcVariance. trace_auto.
Qed.

(** X24: a run of the whole pipeline that returns has at least one configured
    time point and leaves a volume under the identity affine at the output
    path. *)
Theorem runVariancePipeline_leaves_variance_map
    (env : Env) (rg : RegistrationModule) (self : Process3DFLAIR)
    (out_file : string) (s : FS) :
  outcome (runVariancePipeline env rg self out_file s) = inr tt ->
  time_points_to_consider self <> [] /\
  exists variances,
    final (runVariancePipeline env rg self out_file s) !! out_file
    = Some (Nifti (mk_nifti variances eye4)).
Proof.
  intros Hok. split.
  { intros Hnil. revert Hok. unfold runVariancePipeline, extractBrain.
    by rewrite Hnil. }
  unfold runVariancePipeline in *.
  apply bind_ok_inv in Hok as ([] & _ & Hok & -> & _).
  apply bind_ok_inv in Hok as ([] & _ & Hok & -> & _).
  apply bind_ok_inv in Hok as ([] & _ & Hok & -> & _).
  destruct (calcVariance_nonnegative_run _ _ _ Hok) as (variances & Hfile & _).
  by exists variances.
Qed.

Lemma runVariancePipeline_leaves_variance_map_sample :
  time_points_to_consider Sample.subject <> [] /\
  exists variances,
    final (runVariancePipeline Sample.env Sample.rg Sample.subject Sample.out_file
             Sample.fs_raw) !! Sample.out_file
    = Some (Nifti (mk_nifti variances eye4)).
Proof.
  assert (Hrun : outcome (runVariancePipeline Sample.env Sample.rg Sample.subject
                            Sample.out_file Sample.fs_raw) = inr tt)
    by (vm_compute; reflexivity).
  exact (runVariancePipeline_leaves_variance_map Sample.env Sample.rg Sample.subject
           Sample.out_file Sample.fs_raw Hrun).
Defined.

(** ** Hand-over between the stages *)

(** X25: for the time points from 1 to 9 the brain volume that applyBETMask
    writes for a time point is the volume on which correctBiasField runs
    FAST for that time point. *)
Theorem masked_brain_is_FAST_input (self : Process3DFLAIR) (template t : Z) :
  (1 <= t <= 9)%Z ->
  exists registered mask brain,
    mask_step self template t = ApplyMask registered mask brain /\
    fast_step self t = FAST brain 5 1 5.
Proof.
  intros Ht. destruct (tp_str0_one_digit t Ht) as [Heq _].
  unfold mask_step, fast_step. rewrite Heq. by eexists _, _, _.
Qed.

Lemma masked_brain_is_FAST_input_sample :
  exists registered mask brain,
    mask_step Sample.subject 2 1 = ApplyMask registered mask brain /\
    fast_step Sample.subject 1 = FAST brain 5 1 5.
Proof.
  exact (masked_brain_is_FAST_input Sample.subject 2 1 ltac:(lia)).
Defined.

Lemma saved_images_tools {A} (env : Env) (g : A -> ToolCall) (l : list A) (s : FS) :
  saved_images (trace (for_each l (fun x => run_tool env (g x)) s)) = [].
Proof.
  apply omap_none_nil.
  assert (H : trace_all (fun e => saved_image e = None)
                (for_each l (fun x => run_tool env (g x)))) by trace_auto.
  apply H.
Qed.

(** X26: the volumes that calcVariance loads are the files that
    intensityNormalisation saves, one per configured time point and in the
    same order, whatever the time points are. *)
Theorem normalised_volumes_are_variance_inputs
    (env : Env) (self : Process3DFLAIR) (useBiasCorrected : bool) (s : FS)
    (standard : list Q) (normalized : list ndarray) :
  normalised_volumes env self useBiasCorrected s = inr (standard, normalized) ->
  map fst (saved_images (trace (intensityNormalisation env self useBiasCorrected s)))
  = variance_inputs self.
Proof.
  intros Hnv.
  assert (Hlen : length normalized = length (time_points_to_consider self)).
  { unfold normalised_volumes in Hnv.
    destruct (collect _ _) as [|images] eqn:Himg in Hnv; [done|].
    destruct (nyul_fit env images) as [|st]; [done|].
    destruct (collect (nyul_apply env st) images) as [|norm] eqn:Hnorm; [done|].
    injection Hnv as -> ->.
    rewrite (collect_length _ _ _ Hnorm), (collect_length _ _ _ Himg).
    unfold normalisation_inputs. by rewrite length_map. }
  rewrite intensityNormalisation_run, Hnv. cbn zeta. unfold trace at 1. cbn [snd].
  unfold saved_images. cbn [omap list_omap saved_image].
  change (list_omap _ _ saved_image ?l) with (omap saved_image l).
  rewrite omap_app.
  pose proof (saved_images_tools env (reorient_step self)) as Htools.
  unfold saved_images in Htools. rewrite Htools, app_nil_r.
  unfold variance_inputs. clear Hnv Htools.
  revert normalized Hlen.
  induction (time_points_to_consider self) as [|t l IH]; intros [|d ds] Hlen;
    try done.
  cbn [zip zip_with map omap list_omap save_event saved_image normalised_image fst snd].
  change (list_omap _ _ saved_image ?l) with (omap saved_image l).
  f_equal. apply IH. simpl in Hlen. lia.
Qed.

Lemma normalised_volumes_are_variance_inputs_sample :
  map fst (saved_images (trace (intensityNormalisation Sample.env Sample.subject true
                                  Cases.fs_restored)))
  = variance_inputs Sample.subject.
Proof.
  assert (Hnv : normalised_volumes Sample.env Sample.subject true Cases.fs_restored
                = inr ([0; 1]%Q, [Sample.uniform (2, 2, 1)%nat 10;
                                  Sample.uniform (2, 2, 1)%nat 20]))
    by (vm_compute; reflexivity).
  exact (normalised_volumes_are_variance_inputs Sample.env Sample.subject true
           Cases.fs_restored _ _ Hnv).
Defined.

Lemma nifti_file_inj (self : Process3DFLAIR) (a b : string) :
  nifti_file self a = nifti_file self b -> a = b.
Proof.
  unfold nifti_file. intros H.
  apply String.app_inj in H. apply String.app_inj in H.
  apply (String.app_inj "_") in H. by apply append_inj_r in H.
Qed.

Lemma nifti_dir_slash (self : Process3DFLAIR) :
  endswith_slash (subject_nifti_directory self) = true.
Proof. unfold subject_nifti_directory. by rewrite endswith_slash_app. Qed.

(** X27: renameNIFTIFiles gives the scan at position [index] the path that
    applyBETMask reads for the time point [index].  For the positions from
    1 to 9 this is also the path that convertDICOMtoNIFTI tests and
    reorients for that time point; for the positions from 10 to 99 it is
    not, since that path is built with [str(0) + str(i + 1)]. *)
Theorem renamed_scan_path (self : Process3DFLAIR) (index : Z) :
  Py.startswith "/" (subject_id self) = false ->
  renamed_nifti_path self index = nifti_file self (tp_zfill index) /\
  ((1 <= index <= 9)%Z ->
   renamed_nifti_path self index = converted_nifti_path self index) /\
  ((10 <= index <= 99)%Z ->
   renamed_nifti_path self index <> converted_nifti_path self index).
Proof.
  intros Hid.
  assert (Hpath : renamed_nifti_path self index = nifti_file self (tp_zfill index)).
  { unfold renamed_nifti_path, os_path_join, new_nifti_name, new_file_name.
    replace (Py.startswith "/" _) with false.
    2:{ destruct (subject_id self) as [|c r]; [done|].
        rewrite !append_assoc.
        change (String c r +:+ ?x) with (String c (r +:+ x)).
        cbn [Py.startswith] in *. by destruct (Ascii.eqb "/" c). }
    rewrite nifti_dir_slash, orb_true_r.
    unfold nifti_file, tp_zfill. by rewrite !append_assoc. }
  split; [exact Hpath|]. rewrite Hpath. unfold converted_nifti_path.
  fold (tp_str0 index). split.
  - intros Hi. by destruct (tp_str0_one_digit index Hi) as [-> _].
  - intros Hi Heq%nifti_file_inj.
    assert (Hall : forallb (fun t => negb (String.eqb (tp_zfill t) (tp_str0 t)))
                     (map Z.of_nat (seq 10 90)) = true) by (vm_compute; reflexivity).
    rewrite forallb_forall in Hall.
    specialize (Hall index (in_Z_range 10 90 index ltac:(lia))).
    apply negb_true_iff, String.eqb_neq in Hall. done.
Qed.

Lemma renamed_scan_path_sample :
  renamed_nifti_path Sample.subject 10 = nifti_file Sample.subject (tp_zfill 10) /\
  renamed_nifti_path Sample.subject 3 = converted_nifti_path Sample.subject 3 /\
  renamed_nifti_path Sample.subject 10 <> converted_nifti_path Sample.subject 10.
Proof.
  split; [|split].
  - exact (proj1 (renamed_scan_path Sample.subject 10 eq_refl)).
  - exact (proj1 (proj2 (renamed_scan_path Sample.subject 3 eq_refl)) ltac:(lia)).
  - exact (proj2 (proj2 (renamed_scan_path Sample.subject 10 eq_refl)) ltac:(lia)).
Defined.

(** * The orchestrator and the saved volumes *)

(** ** What a stage that returned has done *)

(** Sequencing, in terms of the two runs. *)
Lemma bind_run {A B} (m : M A) (f : A -> M B) (s : FS) :
  bind m f s
  = match outcome (m s) with
    | inl e => (inl e, final (m s), trace (m s))
    | inr a =>
        (outcome (f a (final (m s))), final (f a (final (m s))),
         trace (m s) ++ trace (f a (final (m s))))
    end.
Proof.
  unfold bind, outcome, final, trace.
  destruct (m s) as [[[e|a] s1] t1]; [done|]. cbn [fst snd].
  by destruct (f a s1) as [[o s2] t2].
Qed.

(** A returning extractBrain has called applyBETMask, with the last time
    point as template, for every earlier position of the list. *)
Lemma extractBrain_ok_mask_calls env rg self s :
  outcome (extractBrain env rg self s) = inr tt ->
  exists template,
    last (time_points_to_consider self) = Some template /\
    mask_calls (trace (extractBrain env rg self s))
    = map (pair template) (removelast (time_points_to_consider self)).
Proof.
  destruct (last (time_points_to_consider self)) as [template|] eqn:Hlast.
  2:{ unfold extractBrain. rewrite outcome_bind. cbn [emit outcome final fst snd].
      rewrite outcome_bind. unfold index_last. by rewrite Hlast. }
  intros Hok. exists template. split; [done|].
  pose proof (last_removelast _ _ Hlast) as Hsplit.
  set (others := removelast (time_points_to_consider self)) in *.
  assert (Hlen : length (time_points_to_consider self) - 1 = length others).
  { rewrite Hsplit at 1. rewrite length_app. simpl. lia. }
  clearbody others.
  assert (Hr : extractBrain env rg self s
               = (outcome (for_each others (applyBETMask env rg self template) s),
                  final (for_each others (applyBETMask env rg self template) s),
                  Call M_extractBrain ::
                  trace (for_each others (applyBETMask env rg self template) s))).
  { unfold extractBrain. unfold bind at 1. unfold emit at 1.
    unfold index_last. rewrite Hlast. cbn [lift].
    rewrite bind_ret_l, Hlen.
    rewrite for_each_seq_index by (rewrite <- Hlen; lia).
    replace (take (length others) (time_points_to_consider self)) with others.
    2:{ by rewrite Hsplit, take_app_length. }
    by destruct (for_each others (applyBETMask env rg self template) s) as [[o s'] t']. }
  rewrite Hr in Hok |- *. cbn [outcome trace fst snd] in *.
  destruct (for_each_mask_calls env rg self template others s) as [_ Hall].
  exact (Hall Hok).
Qed.

(** A returning correctBiasField('FSL') has run FAST for every time point,
    in order, and no other program. *)
Lemma correctBiasField_ok_tool_runs env self s :
  outcome (correctBiasField env self "FSL" s) = inr tt ->
  tool_runs (trace (correctBiasField env self "FSL" s))
  = map (fast_step self) (time_points_to_consider self).
Proof.
  unfold correctBiasField.
  change (String.eqb "FSL" "FSL") with true. cbv iota.
  rewrite !trace_bind, !outcome_bind. cbn [emit outcome final trace fst snd].
  rewrite for_each_seq_index by lia. rewrite firstn_all.
  set (loop := for_each (time_points_to_consider self) _ s).
  destruct (for_each_observed tool_run (fast_step self)
              (fun t => run_tool env (FAST (brain_file self (tp_str0 t)) 5 1 5))
              (time_points_to_consider self) s) as [_ Hall].
  { intros x s'. by rewrite trace_run_tool. }
  fold loop in Hall. unfold tool_runs in *.
  rewrite !omap_app.
  change (omap tool_run [Call (M_correctBiasField "FSL")]) with (@nil ToolCall).
  cbn [os_listdir outcome final trace fst snd app].
  pose proof (reorganise_runs_no_program self
                (entries (subject_brain_directory self) (final loop)) (final loop)) as Hre.
  unfold tool_runs in Hre.
  destruct (outcome loop) as [e|[]] eqn:Hloop; [done|].
  intros _. rewrite Hre, app_nil_r. by apply Hall.
Qed.

(** A returning intensityNormalisation has loaded, fitted and transformed,
    saved one image per time point and reoriented each of them. *)
Lemma intensityNormalisation_ok_trace env self b s :
  outcome (intensityNormalisation env self b s) = inr tt ->
  exists standard normalized,
    normalised_volumes env self b s = inr (standard, normalized) /\
    length normalized = length (time_points_to_consider self) /\
    trace (intensityNormalisation env self b s)
    = Call (M_intensityNormalisation b)
      :: map save_event
           (map (normalised_image self) (zip (time_points_to_consider self) normalized))
      ++ map (fun t => Tool (reorient_step self t)) (time_points_to_consider self).
Proof.
  rewrite intensityNormalisation_run.
  destruct (normalised_volumes env self b s) as [e|[standard normalized]] eqn:Hnv;
    [done|].
  cbn zeta. cbn [outcome trace fst snd]. intros Hok.
  exists standard, normalized. split; [done|]. split.
  - unfold normalised_volumes in Hnv.
    destruct (collect _ _) as [|images] eqn:Himg in Hnv; [done|].
    destruct (nyul_fit env images) as [|st]; [done|].
    destruct (collect (nyul_apply env st) images) as [|norm] eqn:Hnorm; [done|].
    injection Hnv as -> ->.
    rewrite (collect_length _ _ _ Hnorm), (collect_length _ _ _ Himg).
    unfold normalisation_inputs. by rewrite length_map.
  - match goal with
    | |- context [for_each ?l (fun t => run_tool env (reorient_step self t)) ?s1] =>
        destruct (for_each_run_tool_trace env (reorient_step self) l s1)
          as (k & Hk & Htr & Hall)
    end.
    rewrite Htr, (Hall Hok), firstn_all. done.
Qed.

Lemma saved_images_saves (l : list (string * Nifti1Image)) :
  saved_images (map save_event l) = l.
Proof.
  induction l as [|[p img] l IH]; [done|].
  unfold saved_images in *. cbn [map omap list_omap save_event saved_image fst snd].
  change (list_omap _ _ saved_image ?x) with (omap saved_image x). by rewrite IH.
Qed.

Lemma saved_images_app (t1 t2 : list Event) :
  saved_images (t1 ++ t2) = saved_images t1 ++ saved_images t2.
Proof. unfold saved_images. apply omap_app. Qed.

Lemma saved_images_tool_events {A} (g : A -> ToolCall) (l : list A) :
  saved_images (map (fun x => Tool (g x)) l) = [].
Proof. induction l as [|x l IH]; [done|]. exact IH. Qed.

Lemma tool_runs_saves (l : list (string * Nifti1Image)) :
  tool_runs (map save_event l) = [].
Proof. induction l as [|x l IH]; [done|]. exact IH. Qed.

Lemma tool_runs_tool_events {A} (g : A -> ToolCall) (l : list A) :
  tool_runs (map (fun x => Tool (g x)) l) = map g l.
Proof.
  induction l as [|x l IH]; [done|].
  unfold tool_runs in *. cbn [map omap list_omap tool_run].
  change (list_omap _ _ tool_run ?y) with (omap tool_run y). by rewrite IH.
Qed.

(** A returning calcVariance has saved the variance map, and nothing else. *)
Lemma calcVariance_ok_trace self out_file s :
  outcome (calcVariance self out_file s) = inr tt ->
  exists variances,
    calcVariance self out_file s
    = (inr tt, <[out_file := Nifti (mk_nifti variances eye4)]> s,
       [Call (M_calcVariance out_file); NibSave out_file (mk_nifti variances eye4)]).
Proof.
  rewrite calcVariance_run.
  destruct (collect _ _) as [e|images]; [done|].
  destruct (index images 0) as [e|first]; [done|].
  destruct (variance_loop _ _ _) as [e|variances]; [done|].
  intros _. by exists variances.
Qed.

(** ** The orchestrator *)

(** C7: runVariancePipeline runs the four stages in the order brain
    extraction and mask propagation, bias-field correction, intensity
    normalisation, variance map, each on the file system that the stage
    before it left, and adds nothing of its own.  No test of the
    orchestrator guards a stage: the first is always run; each later one
    is run exactly when the one before it returned; the run raises
    exactly the exception of the first stage that raises, with the
    effects up to there, and returns when the fourth stage returns.  A
    run that returns has propagated the mask of the last time point to
    every earlier position of the list, run FAST and then Reorient2Std
    for every time point, saved one normalised image per time point and
    saved the variance map. *)
Theorem C7_stages_in_order
    (env : Env) (rg : RegistrationModule) (self : Process3DFLAIR)
    (out_file : string) (s : FS) :
  let r := runVariancePipeline env rg self out_file s in
  let r1 := extractBrain env rg self s in
  let r2 := correctBiasField env self "FSL" (final r1) in
  let r3 := intensityNormalisation env self true (final r2) in
  let r4 := calcVariance self out_file (final r3) in
  (exists k, 0 < k <= 4 /\ stage_calls (trace r) = take k (pipeline_stages out_file)) /\
  (outcome r = inr tt -> stage_calls (trace r) = pipeline_stages out_file) /\
  (forall e, outcome r1 = inl e -> r = (inl e, final r1, trace r1)) /\
  (outcome r1 = inr tt ->
   forall e, outcome r2 = inl e -> r = (inl e, final r2, trace r1 ++ trace r2)) /\
  (outcome r1 = inr tt -> outcome r2 = inr tt ->
   forall e, outcome r3 = inl e ->
             r = (inl e, final r3, trace r1 ++ trace r2 ++ trace r3)) /\
  (outcome r1 = inr tt -> outcome r2 = inr tt -> outcome r3 = inr tt ->
   r = (outcome r4, final r4, trace r1 ++ trace r2 ++ trace r3 ++ trace r4)) /\
  (outcome r = inr tt ->
   outcome r1 = inr tt /\ outcome r2 = inr tt /\
   outcome r3 = inr tt /\ outcome r4 = inr tt /\
   (exists template,
      last (time_points_to_consider self) = Some template /\
      mask_calls (trace r1)
      = map (pair template) (removelast (time_points_to_consider self))) /\
   tool_runs (trace r2) = map (fast_step self) (time_points_to_consider self) /\
   tool_runs (trace r3) = map (reorient_step self) (time_points_to_consider self) /\
   length (saved_images (trace r3)) = length (time_points_to_consider self) /\
   exists variances,
     trace r4 = [Call (M_calcVariance out_file);
                 NibSave out_file (mk_nifti variances eye4)]).
Proof.
  cbn zeta.
  set (r1 := extractBrain env rg self s).
  set (r2 := correctBiasField env self "FSL" (final r1)).
  set (r3 := intensityNormalisation env self true (final r2)).
  set (r4 := calcVariance self out_file (final r3)).
  assert (Hc1 : stage_calls (trace r1) = [M_extractBrain])
    by apply stage_calls_extractBrain.
  assert (Hc2 : stage_calls (trace r2) = [M_correctBiasField "FSL"])
    by apply stage_calls_correctBiasField.
  assert (Hc3 : stage_calls (trace r3) = [M_intensityNormalisation true])
    by apply stage_calls_intensityNormalisation.
  assert (Hc4 : stage_calls (trace r4) = [M_calcVariance out_file])
    by apply stage_calls_calcVariance.
  assert (Happ : forall t1 t2, stage_calls (t1 ++ t2) = stage_calls t1 ++ stage_calls t2)
    by (intros; apply omap_app).
  assert (Hr : runVariancePipeline env rg self out_file s
               = match outcome r1 with
                 | inl e => (inl e, final r1, trace r1)
                 | inr _ =>
                     match outcome r2 with
                     | inl e => (inl e, final r2, trace r1 ++ trace r2)
                     | inr _ =>
                         match outcome r3 with
                         | inl e => (inl e, final r3, trace r1 ++ trace r2 ++ trace r3)
                         | inr _ =>
                             (outcome r4, final r4,
                              trace r1 ++ trace r2 ++ trace r3 ++ trace r4)
                         end
                     end
                 end).
  { unfold runVariancePipeline. rewrite bind_run. fold r1.
    destruct (outcome r1) as [e|[]]; [done|].
    rewrite bind_run. fold r2. cbn [outcome final trace fst snd].
    destruct (outcome r2) as [e|[]]; [done|].
    rewrite bind_run. fold r3. cbn [outcome final trace fst snd].
    destruct (outcome r3) as [e|[]]; [done|].
    fold r4. cbn [outcome final trace fst snd]. done. }
  rewrite Hr. clear Hr.
  destruct (outcome r1) as [e1|[]] eqn:H1.
  { cbn [outcome trace fst snd]. rewrite Hc1.
    repeat split; try done.
    - exists 1. split; [lia|reflexivity].
    - intros e [= ->]. reflexivity. }
  destruct (outcome r2) as [e2|[]] eqn:H2.
  { cbn [outcome trace fst snd]. rewrite Happ, Hc1, Hc2.
    repeat split; try done.
    - exists 2. split; [lia|reflexivity].
    - intros _ e [= ->]. reflexivity. }
  destruct (outcome r3) as [e3|[]] eqn:H3.
  { cbn [outcome trace fst snd]. rewrite !Happ, Hc1, Hc2, Hc3.
    repeat split; try done.
    - exists 3. split; [lia|reflexivity].
    - intros _ _ e [= ->]. reflexivity. }
  cbn [outcome trace fst snd]. rewrite !Happ, Hc1, Hc2, Hc3, Hc4.
  split; [exists 4; split; [lia|reflexivity]|].
  split; [done|]. split; [done|]. split; [done|]. split; [done|]. split; [done|].
  intros H4.
  destruct (intensityNormalisation_ok_trace env self true (final r2) H3)
    as (standard & normalized & _ & Hlen & Htr3).
  fold r3 in Htr3.
  split; [done|]. split; [done|]. split; [done|]. split; [done|]. split.
  { exact (extractBrain_ok_mask_calls env rg self s H1). }
  split.
  { exact (correctBiasField_ok_tool_runs env self (final r1) H2). }
  split.
  { rewrite Htr3. unfold tool_runs. cbn [omap list_omap tool_run].
    change (list_omap _ _ tool_run ?x) with (tool_runs x).
    unfold tool_runs. rewrite omap_app.
    change (omap tool_run ?x) with (tool_runs x).
    by rewrite tool_runs_saves, tool_runs_tool_events. }
  split.
  { rewrite Htr3. unfold saved_images. cbn [omap list_omap saved_image].
    change (list_omap _ _ saved_image ?x) with (saved_images x).
    rewrite saved_images_app, saved_images_saves, saved_images_tool_events, app_nil_r.
    rewrite length_map, length_zip. lia. }
  destruct (calcVariance_ok_trace self out_file (final r3) H4) as [variances Hrun].
  exists variances. fold r4 in Hrun. by rewrite Hrun.
Qed.

Lemma C7_stages_in_order_sample :
  stage_calls (trace (runVariancePipeline Sample.env Sample.rg Sample.subject
                        Sample.out_file Sample.fs_raw))
  = pipeline_stages Sample.out_file /\
  mask_calls (trace (extractBrain Sample.env Sample.rg Sample.subject Sample.fs_raw))
  = [(2, 1)%Z] /\
  tool_runs
    (trace (correctBiasField Sample.env Sample.subject "FSL"
              (final (extractBrain Sample.env Sample.rg Sample.subject Sample.fs_raw))))
  = [fast_step Sample.subject 1; fast_step Sample.subject 2] /\
  tool_runs
    (trace (intensityNormalisation Sample.env Sample.subject true
              (final (correctBiasField Sample.env Sample.subject "FSL"
                        (final (extractBrain Sample.env Sample.rg Sample.subject
                                  Sample.fs_raw))))))
  = [reorient_step Sample.subject 1; reorient_step Sample.subject 2].
Proof.
  assert (Hrun : outcome (runVariancePipeline Sample.env Sample.rg Sample.subject
                            Sample.out_file Sample.fs_raw) = inr tt)
    by (vm_compute; reflexivity).
  pose proof (C7_stages_in_order Sample.env Sample.rg Sample.subject Sample.out_file
                Sample.fs_raw) as H.
  cbv zeta in H. destruct H as (_ & Hcalls & _ & _ & _ & _ & Hall).
  destruct (Hall Hrun) as (_ & _ & _ & _ & (template & Hlast & Hmask) & Hfast & Hre & _).
  injection Hlast as <-.
  split; [exact (Hcalls Hrun)|]. split; [exact Hmask|]. split; [exact Hfast|exact Hre].
Defined.

(** ** Saved volumes *)

(** C10: every image that intensityNormalisation and calcVariance hand to
    [nib.save] carries the identity matrix as its affine, whatever affine
    the volumes they were computed from had.  intensityNormalisation,
    once it has loaded, fitted and transformed, saves exactly one such
    image per configured time point, in order, at the normalised path of
    the time point and holding its transformed data; a call that returns
    has done so.  calcVariance, when it returns, has saved exactly one
    such image, the variance map, and it is the file at the output path. *)
Theorem C10_outputs_saved_with_identity_affine
    (env : Env) (self : Process3DFLAIR) (useBiasCorrected : bool)
    (out_file : string) (s : FS) :
  let rn := intensityNormalisation env self useBiasCorrected s in
  let rv := calcVariance self out_file s in
  Forall saved_with_identity (trace rn) /\
  Forall saved_with_identity (trace rv) /\
  (outcome rv = inr tt ->
   exists variances,
     final rv !! out_file = Some (Nifti (mk_nifti variances eye4)) /\
     saved_images (trace rv) = [(out_file, mk_nifti variances eye4)]) /\
  (forall standard normalized,
     normalised_volumes env self useBiasCorrected s = inr (standard, normalized) ->
     length normalized = length (time_points_to_consider self) /\
     saved_images (trace rn)
     = map (normalised_image self) (zip (time_points_to_consider self) normalized)) /\
  (outcome rn = inr tt ->
   exists normalized,
     length normalized = length (time_points_to_consider self) /\
     saved_images (trace rn)
     = map (normalised_image self) (zip (time_points_to_consider self) normalized)).
Proof.
  cbn zeta.
  assert (Hsaves : forall standard normalized,
            normalised_volumes env self useBiasCorrected s = inr (standard, normalized) ->
            length normalized = length (time_points_to_consider self) /\
            saved_images (trace (intensityNormalisation env self useBiasCorrected s))
            = map (normalised_image self)
                  (zip (time_points_to_consider self) normalized)).
  { intros standard normalized Hnv. split.
    - unfold normalised_volumes in Hnv.
      destruct (collect _ _) as [|images] eqn:Himg in Hnv; [done|].
      destruct (nyul_fit env images) as [|st]; [done|].
      destruct (collect (nyul_apply env st) images) as [|norm] eqn:Hnorm; [done|].
      injection Hnv as -> ->.
      rewrite (collect_length _ _ _ Hnorm), (collect_length _ _ _ Himg).
      unfold normalisation_inputs. by rewrite length_map.
    - rewrite intensityNormalisation_run, Hnv. cbn zeta. unfold trace at 1. cbn [snd].
      unfold saved_images. cbn [omap list_omap saved_image].
      change (list_omap _ _ saved_image ?x) with (saved_images x).
      rewrite saved_images_app, saved_images_saves.
      pose proof (saved_images_tools env (reorient_step self)) as Htools.
      by rewrite Htools, app_nil_r. }
  split; [|split; [|split; [|split]]].
  - assert (H : trace_all saved_with_identity
                  (intensityNormalisation env self useBiasCorrected)) by trace_auto.
    apply H.
  - assert (H : trace_all saved_with_identity (calcVariance self out_file))
      by trace_auto.
    apply H.
  - intros [variances Hrun]%calcVariance_ok_trace. exists variances.
    rewrite Hrun. cbn [final trace fst snd]. split; [apply lookup_insert_eq|done].
  - exact Hsaves.
  - intros (standard & normalized & Hnv & _)%intensityNormalisation_ok_trace.
    exists normalized. exact (Hsaves standard normalized Hnv).
Qed.

Lemma C10_outputs_saved_with_identity_affine_sample :
  Sample.scanner_affine <> eye4 /\
  saved_images (trace (intensityNormalisation Sample.env Sample.subject true
                         Cases.fs_restored))
  = [(normalised_file Sample.subject "01",
      mk_nifti (Sample.uniform (2, 2, 1)%nat 10) eye4);
     (normalised_file Sample.subject "02",
      mk_nifti (Sample.uniform (2, 2, 1)%nat 20) eye4)] /\
  exists variances,
    final (calcVariance Sample.subject Sample.out_file Sample.fs_normalised)
      !! Sample.out_file
    = Some (Nifti (mk_nifti variances eye4)) /\
    saved_images (trace (calcVariance Sample.subject Sample.out_file
                           Sample.fs_normalised))
    = [(Sample.out_file, mk_nifti variances eye4)].
Proof.
  split; [discriminate|].
  assert (Hnv : normalised_volumes Sample.env Sample.subject true Cases.fs_restored
                = inr ([0; 1]%Q, [Sample.uniform (2, 2, 1)%nat 10;
                                  Sample.uniform (2, 2, 1)%nat 20]))
    by (vm_compute; reflexivity).
  assert (Hrun : outcome (calcVariance Sample.subject Sample.out_file
                            Sample.fs_normalised) = inr tt)
    by (vm_compute; reflexivity).
  split.
  - pose proof (C10_outputs_saved_with_identity_affine Sample.env Sample.subject true
                  Sample.out_file Cases.fs_restored) as H.
    cbv zeta in H. destruct H as (_ & _ & _ & Hsaves & _).
    exact (proj2 (Hsaves _ _ Hnv)).
  - pose proof (C10_outputs_saved_with_identity_affine Sample.env Sample.subject true
                  Sample.out_file Sample.fs_normalised) as H.
    cbv zeta in H. destruct H as (_ & _ & Hvar & _).
    exact (Hvar Hrun).
Defined.
